(** * The HTTP client layer of the library front end

    A shallow embedding of [src/api/advancedAxios.js] (interceptors, the
    retry helper, the response cache, the [apiWrapper] object and the upload
    percentage), of the session writers of [src/context/AuthContext.js], and
    of what the other axios clients of the repository do to the same storage
    slots.

    JavaScript values are a small inductive type, the mutable singletons
    ([cache], [localStorage], [window.location]) live in one [World] record
    that every operation threads explicitly, and what the program does to the
    outside (requests put on the wire, timers awaited, toasts shown) is
    appended to the world's [trace].  The remote service and the clock are the
    environment: a [Server] oracle answers each request and says how long the
    answer took. *)

From Stdlib Require Import ZArith String Ascii List DecimalString Lia.
From Stdlib Require SpecFloat.
From stdpp Require Import gmap strings list fin_maps.

Set Warnings "-register-all".
Open Scope string_scope.
Open Scope list_scope.
Open Scope Z_scope.

(** ** JavaScript values *)

(** [JNum] carries an integer: the numbers met here are HTTP statuses,
    millisecond clocks, counters and ids.  [JObj] lists the own properties in
    enumeration order. *)
Inductive JsVal : Type :=
| JUndefined
| JNull
| JBool (b : bool)
| JNum (n : Z)
| JStr (s : string)
| JArr (items : list JsVal)
| JObj (props : list (string * JsVal)).

(** ToBoolean, as used by [if (x)], [!x], [a || b]. *)
Definition truthy (v : JsVal) : bool :=
  match v with
  | JUndefined | JNull => false
  | JBool b => b
  | JNum n => negb (n =? 0)
  | JStr s => negb (String.eqb s "")
  | JArr _ | JObj _ => true
  end.

(** [a || b] *)
Definition js_or (a b : JsVal) : JsVal := if truthy a then a else b.

Definition dec (z : Z) : string := NilZero.string_of_int (Z.to_int z).

Fixpoint join (sep : string) (l : list string) : string :=
  match l with
  | [] => ""
  | [x] => x
  | x :: rest => x +:+ sep +:+ join sep rest
  end.

(** ToString, as used by template literals and by [localStorage.setItem]. *)
Fixpoint js_string (v : JsVal) : string :=
  match v with
  | JUndefined => "undefined"
  | JNull => "null"
  | JBool b => if b then "true" else "false"
  | JNum n => dec n
  | JStr s => s
  | JArr items =>
      join "," (map (fun x => match x with
                              | JUndefined | JNull => ""
                              | _ => js_string x
                              end) items)
  | JObj _ => "[object Object]"
  end.

Fixpoint assoc (name : string) (props : list (string * JsVal)) : JsVal :=
  match props with
  | [] => JUndefined
  | (k, v) :: rest => if String.eqb k name then v else assoc name rest
  end.

(** [v?.name]: reading a named (non-index) property never fails; only objects
    have the ones read here. *)
Definition opt_prop (v : JsVal) (name : string) : JsVal :=
  match v with
  | JObj props => assoc name props
  | _ => JUndefined
  end.

(** ** Strings: [split], [pop], [includes], [JSON.stringify] *)

(** [s.split(sep)] for a one-character separator; never the empty array. *)
Fixpoint split (sep : ascii) (s : string) : list string :=
  match s with
  | EmptyString => [""]
  | String c rest =>
      if Ascii.eqb c sep then "" :: split sep rest
      else match split sep rest with
           | seg :: segs => String c seg :: segs
           | [] => [String c ""]
           end
  end.

(** [arr[0]] and [arr.pop()] of an array of strings; [None] is [undefined]. *)
Definition first_segment (segs : list string) : option string := head segs.
Definition pop_segment (segs : list string) : option string := last segs.

(** [s.includes(pat)] *)
Fixpoint includes (s pat : string) : bool :=
  String.prefix pat s ||
  match s with
  | EmptyString => false
  | String _ rest => includes rest pat
  end.

Definition dquote : ascii := ascii_of_N 34.

Definition hex_digit (n : N) : ascii :=
  ascii_of_N (if (n <? 10)%N then 48 + n else 87 + n)%N.

(** QuoteJSONString on the bytes of a string. *)
Definition escape_char (c : ascii) : string :=
  let n := N_of_ascii c in
  if (n =? 34)%N then String "\" (String dquote "")
  else if (n =? 92)%N then "\\"
  else if (n =? 8)%N then "\b"
  else if (n =? 12)%N then "\f"
  else if (n =? 10)%N then "\n"
  else if (n =? 13)%N then "\r"
  else if (n =? 9)%N then "\t"
  else if (n <? 32)%N then
    "\u00" +:+ String (hex_digit (n / 16)) (String (hex_digit (n mod 16)) "")
  else String c "".

Fixpoint escape (s : string) : string :=
  match s with
  | EmptyString => ""
  | String c rest => escape_char c +:+ escape rest
  end.

Definition quote (s : string) : string :=
  String dquote (escape s +:+ String dquote "").

(** [JSON.stringify(v)]; [None] is [undefined].  Inside an array an
    unserialisable item prints as [null], inside an object its property is
    left out. *)
Fixpoint stringify (v : JsVal) : option string :=
  match v with
  | JUndefined => None
  | JNull => Some "null"
  | JBool b => Some (if b then "true" else "false")
  | JNum n => Some (dec n)
  | JStr s => Some (quote s)
  | JArr items =>
      Some ("[" +:+ join "," (map (fun x => match stringify x with
                                            | Some s => s
                                            | None => "null"
                                            end) items) +:+ "]")
  | JObj props =>
      Some ("{" +:+ join "," (flat_map (fun kv => match stringify (snd kv) with
                                                  | Some s => [quote (fst kv) +:+ ":" +:+ s]
                                                  | None => []
                                                  end) props) +:+ "}")
  end.

(** A template literal hole [${x}] where [x] may be [undefined]. *)
Definition hole (o : option string) : string :=
  match o with
  | Some s => s
  | None => "undefined"
  end.

(** ** Requests, responses, errors *)

Inductive Method : Type := GET | POST | PUT | DELETE.

(** The request config object: what the caller passes to [apiWrapper] and
    what axios merges it into.  [cfg_retry] is the [_retry] marker the
    response interceptor puts on [error.config]. *)
Record Config : Type := mkConfig {
  cfg_method : Method;
  cfg_url : string;
  cfg_data : JsVal;
  cfg_params : JsVal;
  cfg_authorization : option string;
  cfg_requestedAt : option Z;
  cfg_retry : bool;
  skipCache : bool;
  maxRetries : option Z
}.

(** [config = {}] *)
Definition empty_config : Config :=
  {| cfg_method := GET; cfg_url := ""; cfg_data := JUndefined;
     cfg_params := JUndefined; cfg_authorization := None;
     cfg_requestedAt := None; cfg_retry := false; skipCache := false;
     maxRetries := None |}.

Definition with_request (m : Method) (u : string) (d : JsVal) (c : Config) : Config :=
  {| cfg_method := m; cfg_url := u; cfg_data := d;
     cfg_params := cfg_params c; cfg_authorization := cfg_authorization c;
     cfg_requestedAt := cfg_requestedAt c; cfg_retry := cfg_retry c;
     skipCache := skipCache c; maxRetries := maxRetries c |}.

Definition with_authorization (a : string) (c : Config) : Config :=
  {| cfg_method := cfg_method c; cfg_url := cfg_url c; cfg_data := cfg_data c;
     cfg_params := cfg_params c; cfg_authorization := Some a;
     cfg_requestedAt := cfg_requestedAt c; cfg_retry := cfg_retry c;
     skipCache := skipCache c; maxRetries := maxRetries c |}.

Definition with_requestedAt (t : Z) (c : Config) : Config :=
  {| cfg_method := cfg_method c; cfg_url := cfg_url c; cfg_data := cfg_data c;
     cfg_params := cfg_params c; cfg_authorization := cfg_authorization c;
     cfg_requestedAt := Some t; cfg_retry := cfg_retry c;
     skipCache := skipCache c; maxRetries := maxRetries c |}.

Definition with_retry (c : Config) : Config :=
  {| cfg_method := cfg_method c; cfg_url := cfg_url c; cfg_data := cfg_data c;
     cfg_params := cfg_params c; cfg_authorization := cfg_authorization c;
     cfg_requestedAt := cfg_requestedAt c; cfg_retry := true;
     skipCache := skipCache c; maxRetries := maxRetries c |}.

Record Response : Type := mkResponse {
  res_status : Z;
  res_data : JsVal;
  res_config : Config
}.

(** What can be thrown: an axios error ([error.config], [error.response],
    [error.code], [error.message]) or a [TypeError] of the runtime. *)
Inductive JsError : Type :=
| AxiosError (config : Config) (response : option Response)
             (code : option string) (message : string)
| TypeError (message : string).

Definition err_message (e : JsError) : string :=
  match e with
  | AxiosError _ _ _ m => m
  | TypeError m => m
  end.

(** [error.response?.status] *)
Definition err_status (e : JsError) : option Z :=
  match e with
  | AxiosError _ (Some r) _ _ => Some (res_status r)
  | _ => None
  end.

(** [error.code] *)
Definition err_code (e : JsError) : option string :=
  match e with
  | AxiosError _ _ c _ => c
  | TypeError _ => None
  end.

(** ** The environment *)

(** What came back from the network: an HTTP reply, or none (time-out, no
    connection, ...) with the code and message the transport reports. *)
Inductive Wire : Type :=
| HttpReply (status : Z) (body : JsVal)
| NoReply (code : option string) (message : string).

Record Reply : Type := mkReply { wire : Wire; elapsed : Z }.

Inductive Client : Type := ApiInstance | GlobalAxios.

(** The remote service, the transport and the time they take: the [n]-th
    request of the run (counted from 0) gets [server n client config]. *)
Definition Server : Type := nat -> Client -> Config -> Reply.

Inductive Event : Type :=
| Sent (via : Client) (request : Config)
| Timer (ms : Z)
| Toast (message : string).

Record CacheEntry : Type := mkEntry { data : JsVal; timestamp : Z }.

Record World : Type := mkWorld {
  cache : gmap string CacheEntry;
  localStorage : gmap string string;
  location_href : string;
  now : Z;
  sent : nat;
  trace : list Event
}.

Definition set_cache (c : gmap string CacheEntry) (w : World) : World :=
  {| cache := c; localStorage := localStorage w;
     location_href := location_href w; now := now w; sent := sent w;
     trace := trace w |}.

Definition set_localStorage (s : gmap string string) (w : World) : World :=
  {| cache := cache w; localStorage := s;
     location_href := location_href w; now := now w; sent := sent w;
     trace := trace w |}.

Definition set_location_href (h : string) (w : World) : World :=
  {| cache := cache w; localStorage := localStorage w;
     location_href := h; now := now w; sent := sent w; trace := trace w |}.

Definition emit (e : Event) (w : World) : World :=
  {| cache := cache w; localStorage := localStorage w;
     location_href := location_href w; now := now w; sent := sent w;
     trace := trace w ++ [e] |}.

(** The clock moves on by [ms]. *)
Definition advance (ms : Z) (w : World) : World :=
  {| cache := cache w; localStorage := localStorage w;
     location_href := location_href w; now := now w + ms; sent := sent w;
     trace := trace w |}.

(** One more request has left. *)
Definition count_sent (w : World) : World :=
  {| cache := cache w; localStorage := localStorage w;
     location_href := location_href w; now := now w; sent := S (sent w);
     trace := trace w |}.

(** ** Computations

    An [async] function is a world transformer that ends in a value or in a
    thrown error.  [Exhausted] is the model running out of recursion budget
    ([api_call]); no [catch] sees it. *)

Inductive Result (A : Type) : Type :=
| Ok (a : A)
| Throw (e : JsError)
| Exhausted.

Arguments Ok {A} a.
Arguments Throw {A} e.
Arguments Exhausted {A}.

Definition M (A : Type) : Type := World -> Result A * World.

Definition ret {A} (a : A) : M A := fun w => (Ok a, w).

Definition throw {A} (e : JsError) : M A := fun w => (Throw e, w).

Definition bind {A B} (m : M A) (k : A -> M B) : M B :=
  fun w =>
    match m w with
    | (Ok a, w') => k a w'
    | (Throw e, w') => (Throw e, w')
    | (Exhausted, w') => (Exhausted, w')
    end.

(** [try { body } catch (e) { handler(e) }] *)
Definition try_catch {A} (body : M A) (handler : JsError -> M A) : M A :=
  fun w =>
    match body w with
    | (Throw e, w') => handler e w'
    | settled => settled
    end.

(** A statement that cannot fail. *)
Definition act (f : World -> World) : M unit := fun w => (Ok tt, f w).

Notation "'let!' x ':=' m 'in' k" := (bind m (fun x => k))
  (at level 10, x pattern, m at level 100, k at level 200).
Notation "m ';;' k" := (bind m (fun _ => k))
  (at level 100, k at level 200, right associativity).

(** [localStorage.getItem(key)]; [None] is [null]. *)
Definition getItem (key : string) (w : World) : option string :=
  localStorage w !! key.

Definition setItem (key value : string) : World -> World :=
  fun w => set_localStorage (<[key := value]> (localStorage w)) w.

Definition removeItem (key : string) : World -> World :=
  fun w => set_localStorage (delete key (localStorage w)) w.

(** [if (s)] for [s] a string or [null]. *)
Definition present (o : option string) : bool :=
  match o with
  | Some s => negb (String.eqb s "")
  | None => false
  end.

(** [obj.name]: throws on [undefined] and [null]. *)
Definition get_prop (v : JsVal) (name : string) : M JsVal :=
  match v with
  | JUndefined =>
      throw (TypeError ("Cannot read properties of undefined (reading '" +:+ name +:+ "')"))
  | JNull =>
      throw (TypeError ("Cannot read properties of null (reading '" +:+ name +:+ "')"))
  | _ => ret (opt_prop v name)
  end.

(** ** Transport *)

(** The code axios attaches to the error of a reply outside 2xx. *)
Definition status_code (status : Z) : option string :=
  if status / 100 =? 4 then Some "ERR_BAD_REQUEST"
  else if status / 100 =? 5 then Some "ERR_BAD_RESPONSE"
  else None.

(** One round trip: the request leaves, the clock moves on by the time the
    answer took, and axios settles the promise: fulfilled for a 2xx status
    (its default [validateStatus]), rejected otherwise. *)
Definition adapter (server : Server) (client : Client) (config : Config) : M Response :=
  fun w =>
    let reply := server (sent w) client config in
    let w' := advance (elapsed reply) (count_sent (emit (Sent client config) w)) in
    match wire reply with
    | HttpReply status body =>
        let response := mkResponse status body config in
        if (200 <=? status) && (status <? 300) then (Ok response, w')
        else (Throw (AxiosError config (Some response) (status_code status)
                       ("Request failed with status code " +:+ dec status)), w')
    | NoReply code message => (Throw (AxiosError config None code message), w')
    end.

(** ** Interceptors of the [api] instance *)

(** The request interceptor: bearer token from [localStorage], time stamp.
    (The random [X-Request-ID] header and the development-mode console output
    are not part of the model.) *)
Definition request_interceptor (config : Config) (w : World) : Config :=
  let token := getItem "adminToken" w in
  let config :=
    match token with
    | Some t => if present token then with_authorization ("Bearer " +:+ t) config
                else config
    | None => config
    end in
  with_requestedAt (now w) config.

Definition handleAuthFailure : World -> World :=
  fun w =>
    set_location_href "/login"
      (removeItem "refreshToken" (removeItem "adminUser" (removeItem "adminToken" w))).

(** [toast.error(text)] *)
Definition toast_error (text : string) : World -> World := emit (Toast text).

(** The body of [axios.post('/auth/refresh', { refreshToken })]. *)
Definition refresh_request (refreshToken : string) : Config :=
  with_request POST "/auth/refresh" (JObj [("refreshToken", JStr refreshToken)])
    empty_config.

(** The [try] block of the 401 branch up to its [return]: [Some request] is
    the request to re-issue, [None] means no refresh token was stored and
    control falls out of the [if].  The re-issue itself, [return
    api(originalRequest)], is not awaited inside the [try], so the [catch]
    does not see its rejection; it is made by [on_rejected]. *)
Definition refresh (server : Server) (originalRequest : Config) : M (option Config) :=
  fun w =>
    let refreshToken := getItem "refreshToken" w in
    match refreshToken with
    | Some t =>
        if present refreshToken then
          (let! response := adapter server GlobalAxios (refresh_request t) in
           let! newToken := get_prop (res_data response) "token" in
           act (setItem "adminToken" (js_string newToken)) ;;
           ret (Some (with_authorization ("Bearer " +:+ js_string newToken)
                        originalRequest))) w
        else (Ok None, w)
    | None => (Ok None, w)
    end.

(** [error.response?.data?.message || error.message] *)
Definition error_message (error : JsError) : JsVal :=
  match error with
  | AxiosError _ (Some r) _ m => js_or (opt_prop (res_data r) "message") (JStr m)
  | _ => JStr (err_message error)
  end.

(** [error.code === name] *)
Definition code_is (code : option string) (name : string) : bool :=
  match code with
  | Some c => String.eqb c name
  | None => false
  end.

(** The [switch (status)] of the response interceptor: the toast shown, and
    the session torn down on 401. *)
Definition report (status : option Z) (code : option string) (message : JsVal)
  : World -> World :=
  fun w =>
    match status with
    | Some 400 => toast_error ("Bad Request: " +:+ js_string message) w
    | Some 401 =>
        handleAuthFailure (toast_error "Session expired. Please login again." w)
    | Some 403 => toast_error "Access denied. Insufficient permissions." w
    | Some 404 => toast_error "Resource not found." w
    | Some 409 => toast_error ("Conflict: " +:+ js_string message) w
    | Some 422 => toast_error ("Validation Error: " +:+ js_string message) w
    | Some 429 => toast_error "Too many requests. Please wait and try again." w
    | Some 500 => toast_error "Server error. Please try again later." w
    | Some 502 | Some 503 | Some 504 =>
        toast_error "Service unavailable. Please try again later." w
    | _ =>
        if code_is code "ECONNABORTED" then
          toast_error "Request timeout. Please check your connection." w
        else if code_is code "ERR_NETWORK" then
          toast_error "Network error. Please check your connection." w
        else toast_error ("An error occurred: " +:+ js_string message) w
    end.

(** [originalRequest._retry = true] writes into the object that is both
    [error.config] and [error.response.config]. *)
Definition mark_retry (error : JsError) : JsError :=
  match error with
  | AxiosError config response code message =>
      AxiosError (with_retry config)
        (option_map (fun r => mkResponse (res_status r) (res_data r) (with_retry config))
           response)
        code message
  | TypeError m => TypeError m
  end.

Definition err_config (error : JsError) : Config :=
  match error with
  | AxiosError config _ _ _ => config
  | TypeError _ => empty_config
  end.

(** The rejection handler of the response interceptor.  [api] is the
    instance itself, called again for the one re-issue. *)
Definition on_rejected (api : Config -> M Response) (server : Server)
    (error : JsError) : M Response :=
  let classify (error : JsError) : M Response :=
    act (report (err_status error) (err_code error) (error_message error)) ;;
    throw error in
  if match err_status error with Some 401 => true | _ => false end
     && negb (cfg_retry (err_config error))
  then
    let error := mark_retry error in
    let originalRequest := err_config error in
    let! reissue :=
      try_catch (refresh server originalRequest)
        (fun refreshError => act handleAuthFailure ;; throw refreshError) in
    match reissue with
    | Some request => api request
    | None => classify error
    end
  else classify error.

(** [api(config)]: request interceptor, round trip, response interceptor.
    The recursion is the source's [return api(originalRequest)]; [fuel]
    bounds its depth. *)
Fixpoint api_call (fuel : nat) (server : Server) (config : Config) : M Response :=
  match fuel with
  | O => fun w => (Exhausted, w)
  | S fuel' =>
      fun w =>
        let config := request_interceptor config w in
        match adapter server ApiInstance config w with
        | (Throw error, w') => on_rejected (api_call fuel' server) server error w'
        | settled => settled
        end
  end.

(** A re-issued request carries the marker, so the handler recurses once at
    most: two levels are always enough (see [api_call_fuel]). *)
Definition api (server : Server) (config : Config) : M Response :=
  api_call 2 server config.

(** [api.get(url, config)], [api.post(url, data, config)], ... *)
Definition api_get (server : Server) (url : string) (config : Config) : M Response :=
  api server (with_request GET url (cfg_data config) config).

Definition api_post (server : Server) (url : string) (data : JsVal) (config : Config)
  : M Response :=
  api server (with_request POST url data config).

Definition api_put (server : Server) (url : string) (data : JsVal) (config : Config)
  : M Response :=
  api server (with_request PUT url data config).

Definition api_delete (server : Server) (url : string) (config : Config) : M Response :=
  api server (with_request DELETE url (cfg_data config) config).

(** ** Retry helper *)

(** [await new Promise(resolve => setTimeout(resolve, ms))], with an ideal
    timer: the clock moves on by exactly [ms]. *)
Definition setTimeout (ms : Z) (w : World) : World := advance ms (emit (Timer ms) w).

(** The [for] loop of [retryRequest] entered with counter [i]; [rounds] is
    the number of iterations the loop condition [i < maxRetries] still
    admits.  Leaving the loop returns [undefined] ([None]). *)
Fixpoint retry_loop {A} (rounds : nat) (requestFunc : M A) (maxRetries delay i : Z)
  : M (option A) :=
  match rounds with
  | O => ret None
  | S rounds' =>
      fun w =>
        match requestFunc w with
        | (Ok response, w') => (Ok (Some response), w')
        | (Throw error, w') =>
            if i =? maxRetries - 1 then (Throw error, w')
            else
              let waitTime := delay * 2 ^ i in
              retry_loop rounds' requestFunc maxRetries delay (i + 1)
                (setTimeout waitTime w')
        | (Exhausted, w') => (Exhausted, w')
        end
  end.

(** [retryRequest(requestFunc, maxRetries = 3, delay = 1000)]; an argument
    left out ([None]) takes its default. *)
Definition retryRequest {A} (requestFunc : M A) (maxRetries delay : option Z)
  : M (option A) :=
  let maxRetries := default 3 maxRetries in
  let delay := default 1000 delay in
  retry_loop (Z.to_nat (maxRetries - 0)) requestFunc maxRetries delay 0.

(** ** Response cache *)

Definition CACHE_DURATION : Z := 5 * 60 * 1000.

Definition getCachedData (key : string) (w : World) : JsVal * World :=
  match cache w !! key with
  | Some cached =>
      if now w - timestamp cached <? CACHE_DURATION then (data cached, w)
      else (JNull, set_cache (delete key (cache w)) w)
  | None => (JNull, set_cache (delete key (cache w)) w)
  end.

Definition setCachedData (key : string) (value : JsVal) (w : World) : World :=
  set_cache (<[key := {| data := value; timestamp := now w |}]> (cache w)) w.

(** [for (const [key] of cache) if (key.includes(pattern)) cache.delete(key)] *)
Definition evict (pattern : string) (w : World) : World :=
  set_cache (filter (fun kv : string * CacheEntry => includes kv.1 pattern = false)
               (cache w)) w.

(** ** [apiWrapper] *)

Definition cacheKey (url : string) (config : Config) : string :=
  "GET_" +:+ url +:+ "_" +:+ hole (stringify (js_or (cfg_params config) (JObj []))).

Definition apiWrapper_get (server : Server) (url : string) (config : Config) : M JsVal :=
  fun w =>
    let key := cacheKey url config in
    let fetch : M JsVal :=
      let! response := api_get server url config in
      (if (res_status response =? 200) && negb (skipCache config)
       then act (setCachedData key (res_data response))
       else ret tt) ;;
      ret (res_data response) in
    if negb (skipCache config) then
      let (cached, w1) := getCachedData key w in
      if truthy cached then (Ok cached, w1) else fetch w1
    else fetch w.

Definition apiWrapper_post (server : Server) (url : string) (data : JsVal)
    (config : Config) : M JsVal :=
  let requestFunc := api_post server url data config in
  let! response := retryRequest requestFunc (maxRetries config) None in
  match response with
  | Some r => ret (res_data r)
  | None => throw (TypeError "Cannot read properties of undefined (reading 'data')")
  end.

Definition apiWrapper_put (server : Server) (url : string) (data : JsVal)
    (config : Config) : M JsVal :=
  let! response := api_put server url data config in
  let urlPattern := first_segment (split "/" url) in
  act (evict (hole urlPattern)) ;;
  ret (res_data response).

Definition apiWrapper_delete (server : Server) (url : string) (config : Config)
  : M JsVal :=
  let! response := api_delete server url config in
  let resourceId := pop_segment (split "/" url) in
  act (evict (hole resourceId)) ;;
  ret (res_data response).

(** ** Session store ([AuthContext]) *)

Record AuthState : Type := mkAuth {
  isAuthenticated : bool;
  user : JsVal;
  token : JsVal
}.

Definition login (newToken userData : JsVal) (w : World) : AuthState * World :=
  ({| isAuthenticated := true; user := userData; token := newToken |},
   setItem "adminUser" (hole (stringify userData))
     (setItem "adminToken" (js_string newToken) w)).

Definition logout (w : World) : AuthState * World :=
  ({| isAuthenticated := false; user := JNull; token := JNull |},
   removeItem "adminUser" (removeItem "adminToken" w)).

(** ** Reading a run *)

(** The events a run added: those of [w'] after the ones [w] already had. *)
Definition since (w w' : World) : list Event := drop (length (trace w)) (trace w').

Definition is_request (e : Event) : bool :=
  match e with Sent ApiInstance _ => true | _ => false end.

Definition is_refresh (e : Event) : bool :=
  match e with Sent GlobalAxios _ => true | _ => false end.

(** A request of the [api] instance that carries the [_retry] marker. *)
Definition is_reissue (e : Event) : bool :=
  match e with Sent ApiInstance c => cfg_retry c | _ => false end.

Definition count (p : Event -> bool) (evs : list Event) : nat :=
  length (List.filter p evs).

(** [c] asks the service for what [config] asks: the same method, url, body
    and query. *)
Definition same_request (c config : Config) : Prop :=
  cfg_method c = cfg_method config /\ cfg_url c = cfg_url config
  /\ cfg_data c = cfg_data config /\ cfg_params c = cfg_params config.

Definition timers (evs : list Event) : list Z :=
  flat_map (fun e => match e with Timer ms => [ms] | _ => [] end) evs.

Definition toasts (evs : list Event) : list string :=
  flat_map (fun e => match e with Toast m => [m] | _ => [] end) evs.

Definition wire_status (r : Wire) : option Z :=
  match r with
  | HttpReply status _ => Some status
  | NoReply _ _ => None
  end.

(** ** The handlers, statement by statement *)

(** What [refresh] does, by cases on the stored refresh token and on the
    answer of the refresh end point. *)
Definition refresh_outcome (server : Server) (originalRequest : Config) (w : World)
  : Result (option Config) * World :=
  match getItem "refreshToken" w with
  | Some t =>
      if String.eqb t "" then (Ok None, w)
      else
        match adapter server GlobalAxios (refresh_request t) w with
        | (Ok response, w1) =>
            match res_data response with
            | JUndefined =>
                (Throw (TypeError "Cannot read properties of undefined (reading 'token')"), w1)
            | JNull =>
                (Throw (TypeError "Cannot read properties of null (reading 'token')"), w1)
            | body =>
                let newToken := js_string (opt_prop body "token") in
                (Ok (Some (with_authorization ("Bearer " +:+ newToken) originalRequest)),
                 setItem "adminToken" newToken w1)
            end
        | (Throw e, w1) => (Throw e, w1)
        | (Exhausted, w1) => (Exhausted, w1)
        end
  | None => (Ok None, w)
  end.

(** The classifying tail of the rejection handler, and the test that guards
    its refresh branch. *)
Definition classified (error : JsError) (w : World) : Result Response * World :=
  (Throw error,
   report (err_status error) (err_code error) (error_message error) w).

Definition refreshable (error : JsError) : bool :=
  match err_status error with Some 401 => true | _ => false end
  && negb (cfg_retry (err_config error)).

(** The request [refresh] puts on the wire, if any. *)
Definition refresh_events (w : World) : list Event :=
  match getItem "refreshToken" w with
  | Some t => if String.eqb t "" then [] else [Sent GlobalAxios (refresh_request t)]
  | None => []
  end.

(** ** The error table *)

Inductive ErrorKind : Type :=
| BadRequest | Unauthorized | Forbidden | NotFound | Conflict | Validation
| RateLimited | ServerError | ServiceUnavailable | Timeout | NetworkError
| Unknown.

(** The table as the specification words it: status first, then the
    transport code ([ECONNABORTED] is a connection time-out, [ERR_NETWORK] no
    connection), anything else unknown.  [report] is compared with it. *)
Definition spec_kind (status : option Z) (code : option string) : ErrorKind :=
  match status with
  | Some 400 => BadRequest
  | Some 401 => Unauthorized
  | Some 403 => Forbidden
  | Some 404 => NotFound
  | Some 409 => Conflict
  | Some 422 => Validation
  | Some 429 => RateLimited
  | Some 500 => ServerError
  | Some 502 | Some 503 | Some 504 => ServiceUnavailable
  | _ =>
      if code_is code "ECONNABORTED" then Timeout
      else if code_is code "ERR_NETWORK" then NetworkError
      else Unknown
  end.

(** The text the observer ([toast.error]) is given for each kind. *)
Definition kind_toast (kind : ErrorKind) (message : JsVal) : string :=
  match kind with
  | BadRequest => "Bad Request: " +:+ js_string message
  | Unauthorized => "Session expired. Please login again."
  | Forbidden => "Access denied. Insufficient permissions."
  | NotFound => "Resource not found."
  | Conflict => "Conflict: " +:+ js_string message
  | Validation => "Validation Error: " +:+ js_string message
  | RateLimited => "Too many requests. Please wait and try again."
  | ServerError => "Server error. Please try again later."
  | ServiceUnavailable => "Service unavailable. Please try again later."
  | Timeout => "Request timeout. Please check your connection."
  | NetworkError => "Network error. Please check your connection."
  | Unknown => "An error occurred: " +:+ js_string message
  end.

(** What else the interceptor does for a kind: the session is torn down on
    [Unauthorized]. *)
Definition kind_effect (kind : ErrorKind) : World -> World :=
  match kind with
  | Unauthorized => handleAuthFailure
  | _ => fun w => w
  end.

(** ** Worlds and servers of the examples *)

Module Scenario.

(** A signed-in browser tab with nothing cached. *)
Definition start : World :=
  {| cache := ∅;
     localStorage := <["adminUser" := "{}"]> (<["adminToken" := "t1"]> ∅);
     location_href := "/";
     now := 1000;
     sent := 0;
     trace := [] |}.

(** The same tab holding a refresh token. *)
Definition renewable : World := setItem "refreshToken" "r1" start.

Definition books : JsVal :=
  JObj [("success", JBool true);
        ("data", JObj [("books", JArr [JObj [("_id", JStr "1"); ("title", JStr "Dune")]])])].

(** Every request is answered [status] with [body] after 10 ms. *)
Definition always (status : Z) (body : JsVal) : Server :=
  fun _ _ _ => mkReply (HttpReply status body) 10.

(** The service rejects every token; the refresh end point answers
    [refreshed]. *)
Definition expired (refreshed : Wire) : Server :=
  fun _ client _ =>
    match client with
    | ApiInstance => mkReply (HttpReply 401 (JObj [("message", JStr "jwt expired")])) 10
    | GlobalAxios => mkReply refreshed 5
    end.

(** The first request is rejected with 401, the refresh end point hands
    out [t2], and from then on the service answers 200. *)
Definition renewing : Server :=
  fun n client _ =>
    match client with
    | GlobalAxios => mkReply (HttpReply 200 (JObj [("token", JStr "t2")])) 5
    | ApiInstance =>
        match n with
        | O => mkReply (HttpReply 401 (JObj [("message", JStr "jwt expired")])) 10
        | S _ => mkReply (HttpReply 200 books) 10
        end
    end.

End Scenario.

(** Whether the refresh branch of the handler is taken for [config] and ends
    in its [catch]. *)
Definition refresh_fails (server : Server) (config : Config) (w : World) : bool :=
  match adapter server ApiInstance (request_interceptor config w) w with
  | (Throw error, w1) =>
      refreshable error
      && match fst (refresh server (err_config (mark_retry error)) w1) with
         | Throw _ => true
         | _ => false
         end
  | _ => false
  end.

(** ** The other clients that touch the session slots *)

(** Two more modules of the repository keep an axios instance of their own
    and write the same storage keys.  Both reject with plain [Error] objects;
    such a rejection is given here by the message of the [Error]. *)

(** [error.response?.data?.message] *)
Definition response_message (error : JsError) : JsVal :=
  match error with
  | AxiosError _ (Some r) _ _ => opt_prop (res_data r) "message"
  | _ => JUndefined
  end.

(** [authApiClient] (the auth module kept in [src/api/adminAPI.js]): the
    rejection handler of its response interceptor.  It always throws
    [new Error(message)]; the result is that message. *)
Definition authApiClient_on_rejected (error : JsError) (w : World) : string * World :=
  let w' :=
    match err_status error with
    | Some 401 =>
        set_location_href "/login" (removeItem "adminUser" (removeItem "adminToken" w))
    | _ => w
    end in
  (js_string (js_or (error_message error) (JStr "An error occurred")), w').

(** The axios usage examples ([unnamed/part_002]): the rejection handler of
    the response interceptor of their [api] instance (console output is not
    part of the model).  It rejects with the error it was given. *)
Definition examples_on_rejected (error : JsError) : M Response :=
  (match err_status error with
   | Some 401 =>
       act (fun w => set_location_href "/login"
                       (removeItem "userToken" (removeItem "adminToken" w)))
   | _ => ret tt
   end) ;;
  throw error.

(** [authAPI.login(credentials)] of the examples; [post] is
    [api.post('/auth/login', credentials)] on their instance.  The [catch]
    turns whatever the [try] block threw into [new Error(message)]: the
    promise fulfils with [inl response.data] or rejects with the [Error]
    whose message is [inr message]. *)
Definition examples_login (post : M Response) (credentials : JsVal)
  : M (JsVal + string) :=
  try_catch
    (let! response := post in
     let! token := get_prop (res_data response) "token" in
     (if truthy token then
        act (setItem "adminToken" (js_string token)) ;;
        let! user := get_prop (res_data response) "user" in
        let! profile :=
          (if truthy user then ret user
           else let! username := get_prop credentials "username" in
                ret (JObj [("username", username)])) in
        act (setItem "adminUser" (hole (stringify profile)))
      else ret tt) ;;
     ret (inl (res_data response)))
    (fun error =>
       ret (inr (js_string (js_or (response_message error) (JStr "Login failed"))))).

(** [authAPI.logout()] of the examples; [post] is [api.post('/auth/logout')].
    The slots are removed whether the request succeeded or not. *)
Definition examples_logout (post : M Response) : M unit :=
  try_catch
    (post ;; act (removeItem "adminToken") ;; act (removeItem "adminUser"))
    (fun _ => act (removeItem "adminToken") ;; act (removeItem "adminUser")).

(** ** Session restore ([AuthContext.checkAuthStatus]) *)

(** What [fetch] and then [response.json()] give for the verification
    request: a JSON body (under whatever HTTP status), a body that is not
    JSON ([response.json()] rejects), or no response at all ([fetch]
    rejects). *)
Inductive Fetched : Type :=
| FetchedJson (status : Z) (body : JsVal)
| FetchedOther (status : Z)
| FetchFailed (message : string).

(** The state of the [AuthProvider] component, and the bearer tokens it has
    sent for verification. *)
Record Provider : Type := mkProvider {
  auth : AuthState;
  isLoading : bool;
  verifications : list string
}.

(** The [useState] initial values. *)
Definition initial_provider : Provider :=
  {| auth := {| isAuthenticated := false; user := JNull; token := JNull |};
     isLoading := true;
     verifications := [] |}.

Definition setToken (t : JsVal) (p : Provider) : Provider :=
  {| auth := {| isAuthenticated := isAuthenticated (auth p); user := user (auth p);
                token := t |};
     isLoading := isLoading p; verifications := verifications p |}.

Definition setUser (u : JsVal) (p : Provider) : Provider :=
  {| auth := {| isAuthenticated := isAuthenticated (auth p); user := u;
                token := token (auth p) |};
     isLoading := isLoading p; verifications := verifications p |}.

Definition setIsAuthenticated (b : bool) (p : Provider) : Provider :=
  {| auth := {| isAuthenticated := b; user := user (auth p); token := token (auth p) |};
     isLoading := isLoading p; verifications := verifications p |}.

Definition setIsLoading (b : bool) (p : Provider) : Provider :=
  {| auth := auth p; isLoading := b; verifications := verifications p |}.

Definition verification_sent (t : string) (p : Provider) : Provider :=
  {| auth := auth p; isLoading := isLoading p;
     verifications := verifications p ++ [t] |}.

(** [logout()] called from inside the provider. *)
Definition logout_provider (p : Provider) (w : World) : Provider * World :=
  let (signedOut, w') := logout w in
  ({| auth := signedOut; isLoading := isLoading p; verifications := verifications p |},
   w').

(** [checkAuthStatus()].  [parse] is [JSON.parse] ([None] when it throws) and
    [verify t] is what comes back from [POST /auth/verify] sent with
    [Authorization: Bearer t].  The [try] block yields whether it threw and
    the state it had reached; [catch] logs out, [finally] ends the loading
    state. *)
Definition checkAuthStatus (parse : string -> option JsVal) (verify : string -> Fetched)
    (p : Provider) (w : World) : Provider * World :=
  let savedToken := getItem "adminToken" w in
  let savedUser := getItem "adminUser" w in
  let '(threw, (p1, w1)) :=
    match savedToken, savedUser with
    | Some t, Some u =>
        if present savedToken && present savedUser then
          let p0 := verification_sent t p in
          match verify t with
          | FetchFailed _ => (true, (p0, w))
          | FetchedOther _ => (true, (p0, w))
          | FetchedJson _ JUndefined => (true, (p0, w))
          | FetchedJson _ JNull => (true, (p0, w))
          | FetchedJson _ body =>
              if truthy (opt_prop body "success") then
                let p1 := setToken (JStr t) p0 in
                match parse u with
                | Some userData =>
                    (false, (setIsAuthenticated true (setUser userData p1), w))
                | None => (true, (p1, w))
                end
              else (false, logout_provider p0 w)
          end
        else (false, (p, w))
    | _, _ => (false, (p, w))
    end in
  let (p2, w2) := if threw : bool then logout_provider p1 w1 else (p1, w1) in
  (setIsLoading false p2, w2).

(** ** Upload progress *)

(** [progressEvent.loaded] and [progressEvent.total] are byte counts held in
    double-precision numbers, and the product and the quotient are those of
    IEEE 754 binary64 (53 bits of mantissa, round to nearest even), as
    [SpecFloat] specifies them.  [number z] is the double nearest to the
    integer [z]: [z] itself up to 2^53. *)
Definition number (z : Z) : SpecFloat.spec_float :=
  SpecFloat.binary_normalize 53 1024 z 0 false.

(** [Math.round(x)]: the integer nearest to [x], a half rounding up; [None]
    when [x] is [NaN] or an infinity, which [Math.round] hands back as they
    are. *)
Definition Math_round (x : SpecFloat.spec_float) : option Z :=
  match x with
  | SpecFloat.S754_zero _ => Some 0
  | SpecFloat.S754_finite s m e =>
      let z := if s then Zneg m else Zpos m in
      Some (if 0 <=? e then z * 2 ^ e else (2 * z + 2 ^ (- e)) / 2 ^ (1 - e))
  | _ => None
  end.

(** [Math.round((progressEvent.loaded * 100) / progressEvent.total)] *)
Definition percentCompleted (loaded total : Z) : option Z :=
  Math_round
    (SpecFloat.SFdiv 53 1024
       (SpecFloat.SFmul 53 1024 (number loaded) (number 100)) (number total)).

(** The same percentage in exact arithmetic: the integer nearest to
    [100 * loaded / total], a half rounding up. *)
Definition nearest_percent (loaded total : Z) : Z :=
  (2 * (loaded * 100) + total) / (2 * total).

(** What a rounding location says of a remainder [r] out of [B]: nothing
    left, less than half, exactly half, more than half. *)
Definition loc_ok (l : SpecFloat.location) (r B : Z) : Prop :=
  match l with
  | SpecFloat.loc_Exact => r = 0
  | SpecFloat.loc_Inexact Lt => 0 < 2 * r < B
  | SpecFloat.loc_Inexact Eq => 2 * r = B
  | SpecFloat.loc_Inexact Gt => B < 2 * r < 2 * B
  end.

(** * Properties *)

(** ** World bookkeeping *)

Lemma since_app (w w' : World) (evs : list Event) :
  trace w' = trace w ++ evs -> since w w' = evs.
Proof.
  intros E. unfold since. rewrite E. apply drop_app_length.
Qed.

Lemma adapter_world (server : Server) (client : Client) (config : Config) (w : World) :
  snd (adapter server client config w)
  = advance (elapsed (server (sent w) client config))
      (count_sent (emit (Sent client config) w)).
Proof.
  unfold adapter.
  destruct (wire (server (sent w) client config)) as [status body | code message];
    [destruct ((200 <=? status) && (status <? 300)) |]; reflexivity.
Qed.

Lemma adapter_not_exhausted (server : Server) (client : Client) (config : Config)
    (w : World) :
  fst (adapter server client config w) <> Exhausted.
Proof.
  unfold adapter.
  destruct (wire (server (sent w) client config)) as [status body | code message];
    [destruct ((200 <=? status) && (status <? 300)) |]; discriminate.
Qed.

Lemma adapter_throw_config (server : Server) (client : Client) (config : Config)
    (w w' : World) (error : JsError) :
  adapter server client config w = (Throw error, w') -> err_config error = config.
Proof.
  unfold adapter.
  destruct (wire (server (sent w) client config)) as [status body | code message];
    [destruct ((200 <=? status) && (status <? 300)) |];
    intros E; inversion E; reflexivity.
Qed.

Lemma request_interceptor_retry (config : Config) (w : World) :
  cfg_retry (request_interceptor config w) = cfg_retry config.
Proof.
  unfold request_interceptor.
  destruct (getItem "adminToken" w) as [t |]; [destruct (present (Some t)) |];
    reflexivity.
Qed.

(** A request that carries the marker never reaches the refresh branch, so
    its handler does not call the instance again. *)
Lemma on_rejected_marked (api1 api2 : Config -> M Response) (server : Server)
    (error : JsError) (w : World) :
  cfg_retry (err_config error) = true ->
  on_rejected api1 server error w = on_rejected api2 server error w.
Proof.
  intros Hm. unfold on_rejected. rewrite Hm, andb_false_r. reflexivity.
Qed.

Lemma on_rejected_marked_settles (api1 : Config -> M Response) (server : Server)
    (error : JsError) (w : World) :
  cfg_retry (err_config error) = true ->
  fst (on_rejected api1 server error w) <> Exhausted.
Proof.
  intros Hm. unfold on_rejected. rewrite Hm, andb_false_r. discriminate.
Qed.

Lemma api_call_marked (n : nat) (server : Server) (config : Config) (w : World) :
  cfg_retry config = true ->
  api_call (S n) server config w = api_call 1 server config w
  /\ fst (api_call 1 server config w) <> Exhausted.
Proof.
  intros Hm. cbn [api_call].
  pose proof (adapter_not_exhausted server ApiInstance (request_interceptor config w) w) as Hne.
  destruct (adapter server ApiInstance (request_interceptor config w) w)
    as [[response | error |] w1] eqn:E.
  - split; [reflexivity | discriminate].
  - apply adapter_throw_config in E.
    assert (cfg_retry (err_config error) = true) as Hm'
      by (rewrite E, request_interceptor_retry; exact Hm).
    split; [apply on_rejected_marked | apply on_rejected_marked_settles]; exact Hm'.
  - exfalso. apply Hne. reflexivity.
Qed.

Lemma refresh_unfold (server : Server) (originalRequest : Config) (w : World) :
  refresh server originalRequest w = refresh_outcome server originalRequest w.
Proof.
  unfold refresh, refresh_outcome.
  destruct (getItem "refreshToken" w) as [t |]; [| reflexivity].
  unfold present. destruct (String.eqb t ""); [reflexivity |]. cbn [negb].
  unfold bind at 1.
  destruct (adapter server GlobalAxios (refresh_request t) w) as [[response | e |] w1];
    [| reflexivity | reflexivity].
  destruct (res_data response); reflexivity.
Qed.

Lemma refresh_settles (server : Server) (originalRequest : Config) (w : World) :
  fst (refresh server originalRequest w) <> Exhausted.
Proof.
  rewrite refresh_unfold. unfold refresh_outcome.
  destruct (getItem "refreshToken" w) as [t |]; [| discriminate].
  destruct (String.eqb t ""); [discriminate |].
  pose proof (adapter_not_exhausted server GlobalAxios (refresh_request t) w) as Hne.
  destruct (adapter server GlobalAxios (refresh_request t) w) as [[response | e |] w1];
    [| discriminate | exfalso; apply Hne; reflexivity].
  destruct (res_data response); discriminate.
Qed.

Lemma refresh_keeps_marker (server : Server) (originalRequest request : Config)
    (w w' : World) :
  refresh server originalRequest w = (Ok (Some request), w') ->
  cfg_retry request = cfg_retry originalRequest.
Proof.
  rewrite refresh_unfold. unfold refresh_outcome.
  destruct (getItem "refreshToken" w) as [t |]; [| discriminate].
  destruct (String.eqb t ""); [discriminate |].
  destruct (adapter server GlobalAxios (refresh_request t) w) as [[response | e |] w1];
    [| discriminate | discriminate].
  destruct (res_data response); intros E; inversion E; reflexivity.
Qed.

Lemma mark_retry_marked (error : JsError) (config : Config) (response : option Response)
    (code : option string) (message : string) :
  error = AxiosError config response code message ->
  cfg_retry (err_config (mark_retry error)) = true.
Proof. intros ->. reflexivity. Qed.

Lemma adapter_throws_axios (server : Server) (client : Client) (config : Config)
    (w w' : World) (error : JsError) :
  adapter server client config w = (Throw error, w') ->
  exists response code message, error = AxiosError config response code message.
Proof.
  unfold adapter.
  destruct (wire (server (sent w) client config)) as [status body | code message];
    [destruct ((200 <=? status) && (status <? 300)) |];
    intros E; inversion E; eauto.
Qed.

Lemma on_rejected_unfold (api1 : Config -> M Response) (server : Server)
    (error : JsError) (w : World) :
  on_rejected api1 server error w =
  if refreshable error then
    match refresh server (err_config (mark_retry error)) w with
    | (Ok (Some request), w') => api1 request w'
    | (Ok None, w') => classified (mark_retry error) w'
    | (Throw refreshError, w') => (Throw refreshError, handleAuthFailure w')
    | (Exhausted, w') => (Exhausted, w')
    end
  else classified error w.
Proof.
  unfold on_rejected, refreshable.
  destruct (match err_status error with Some 401 => true | _ => false end
            && negb (cfg_retry (err_config error))); [| reflexivity].
  unfold bind, try_catch.
  destruct (refresh server (err_config (mark_retry error)) w)
    as [[[request |] | e |] w2]; reflexivity.
Qed.

Lemma api_call_unfold (n : nat) (server : Server) (config : Config) (w : World) :
  api_call (S n) server config w =
  match adapter server ApiInstance (request_interceptor config w) w with
  | (Throw error, w') => on_rejected (api_call n server) server error w'
  | settled => settled
  end.
Proof. reflexivity. Qed.

(** Two levels of [api_call] are enough whatever the request: more fuel gives
    the same run, and the run never ends for want of fuel. *)
Lemma api_call_fuel (n : nat) (server : Server) (config : Config) (w : World) :
  api_call (S (S n)) server config w = api server config w
  /\ fst (api server config w) <> Exhausted.
Proof.
  unfold api. rewrite !api_call_unfold.
  pose proof (adapter_not_exhausted server ApiInstance (request_interceptor config w) w) as Hne.
  destruct (adapter server ApiInstance (request_interceptor config w) w)
    as [[response | error |] w1] eqn:E.
  - split; [reflexivity | discriminate].
  - destruct (adapter_throws_axios _ _ _ _ _ _ E) as (r & c & m & Herr).
    pose proof (mark_retry_marked _ _ _ _ _ Herr) as Hmark.
    rewrite !on_rejected_unfold.
    destruct (refreshable error); [| split; [reflexivity | discriminate]].
    pose proof (refresh_settles server (err_config (mark_retry error)) w1) as Hs.
    destruct (refresh server (err_config (mark_retry error)) w1)
      as [[[request |] | e |] w2] eqn:R.
    + apply refresh_keeps_marker in R. rewrite Hmark in R.
      apply api_call_marked. exact R.
    + split; [reflexivity | discriminate].
    + split; [reflexivity | discriminate].
    + exfalso. apply Hs. reflexivity.
  - exfalso. apply Hne. reflexivity.
Qed.

(** ** The model on small inputs *)

Example split_path : split "/" "/books/42" = [""; "books"; "42"].
Proof. reflexivity. Qed.

Example split_relative : split "/" "books/42" = ["books"; "42"].
Proof. reflexivity. Qed.

Example includes_id : includes "GET_/issues/42_{}" "42" = true.
Proof. reflexivity. Qed.

Example includes_anything_empty : includes "GET_/issues_{}" "" = true.
Proof. reflexivity. Qed.

Example cacheKey_no_params : cacheKey "/books" empty_config = "GET_/books_{}".
Proof. reflexivity. Qed.

Example cacheKey_search :
  cacheKey "/books"
    {| cfg_method := GET; cfg_url := ""; cfg_data := JUndefined;
       cfg_params := JObj [("search", JStr "dune"); ("page", JNum 2);
                           ("genre", JUndefined)];
       cfg_authorization := None; cfg_requestedAt := None; cfg_retry := false;
       skipCache := false; maxRetries := None |}
  = "GET_/books_{" +:+ quote "search" +:+ ":" +:+ quote "dune" +:+ ","
    +:+ quote "page" +:+ ":2}".
Proof. reflexivity. Qed.

(** Sign-in left token [t1]; the service answers 401, the refresh end point
    hands out [t2], and the request re-issued with [t2] succeeds. *)
Example refresh_then_retry :
  let run := api Scenario.renewing (with_request GET "/books" JUndefined empty_config)
               Scenario.renewable in
  let evs := since Scenario.renewable (snd run) in
  (exists response,
      fst run = Ok response
      /\ res_status response = 200
      /\ res_data response = Scenario.books
      /\ cfg_authorization (res_config response) = Some "Bearer t2"
      /\ cfg_retry (res_config response) = true)
  /\ getItem "adminToken" (snd run) = Some "t2"
  /\ count is_request evs = 2%nat
  /\ count is_refresh evs = 1%nat
  /\ toasts evs = [].
Proof.
  intros run evs.
  split; [eexists; vm_compute; repeat split | vm_compute; repeat split].
Qed.

(** A cached search, read again within the TTL, then invalidated by a PUT. *)
Example search_cached_then_invalidated :
  let server := Scenario.always 200 Scenario.books in
  let first := apiWrapper_get server "/books" empty_config Scenario.start in
  let second := apiWrapper_get server "/books" empty_config (snd first) in
  let third := apiWrapper_put server "/books/1" Scenario.books empty_config (snd second) in
  fst second = Ok Scenario.books
  /\ sent (snd second) = 1%nat
  /\ cache (snd second) !! "GET_/books_{}"
     = Some {| data := Scenario.books; timestamp := 1010 |}
  /\ cache (snd third) !! "GET_/books_{}" = None.
Proof. repeat split. Qed.

(** ** The status switch and the table *)

Lemma report_table (status : option Z) (code : option string) (message : JsVal)
    (w : World) :
  report status code message w
  = kind_effect (spec_kind status code)
      (toast_error (kind_toast (spec_kind status code) message) w).
Proof.
  unfold report, spec_kind.
  destruct (code_is code "ECONNABORTED"), (code_is code "ERR_NETWORK");
    repeat match goal with
           | |- context [match ?x with _ => _ end] => is_var x; destruct x
           end; reflexivity.
Qed.

(** ** Response cache: expiry *)

(** C7: an entry answers a read only while [now - storedAt] is below the one
    fixed TTL of five minutes; a read of an expired entry is a miss that
    removes the entry; [setCachedData] stamps every entry with the clock. *)
Theorem cache_entry_valid_within_ttl (key : string) (entry : CacheEntry) (w : World) :
  cache w !! key = Some entry ->
  CACHE_DURATION = 300000
  /\ (forall value, cache (setCachedData key value w) !! key
                    = Some {| data := value; timestamp := now w |})
  /\ (now w - timestamp entry < CACHE_DURATION ->
      getCachedData key w = (data entry, w))
  /\ (~ now w - timestamp entry < CACHE_DURATION ->
      getCachedData key w = (JNull, set_cache (delete key (cache w)) w)
      /\ cache (snd (getCachedData key w)) !! key = None).
Proof.
  intros Hlook. split; [reflexivity |]. split; [| split].
  - intros value. unfold setCachedData. cbn [cache set_cache].
    apply lookup_insert_eq.
  - intros Hfresh. unfold getCachedData. rewrite Hlook.
    apply Z.ltb_lt in Hfresh. rewrite Hfresh. reflexivity.
  - intros Hstale. unfold getCachedData. rewrite Hlook.
    apply Z.ltb_nlt in Hstale. rewrite Hstale. split; [reflexivity |].
    cbn [snd cache set_cache]. apply lookup_delete_eq.
Qed.

Lemma cache_entry_valid_within_ttl_witness :
  let w := advance 300000 (setCachedData "GET_/books_{}" Scenario.books Scenario.start) in
  let entry := {| data := Scenario.books; timestamp := 1000 |} in
  cache w !! "GET_/books_{}" = Some entry
  /\ ~ now w - timestamp entry < CACHE_DURATION
  /\ cache (snd (getCachedData "GET_/books_{}" w)) !! "GET_/books_{}" = None.
Proof.
  intros w entry.
  assert (cache w !! "GET_/books_{}" = Some entry) as Hlook by reflexivity.
  assert (~ now w - timestamp entry < CACHE_DURATION) as Hstale
    by (vm_compute; intros H; discriminate H).
  split; [exact Hlook |]. split; [exact Hstale |].
  apply (cache_entry_valid_within_ttl "GET_/books_{}" entry w Hlook). exact Hstale.
Defined.

(** ** Retry helper *)

Lemma retry_loop_failure {A} (rounds : nat) (requestFunc : M A) (n delay i : Z)
    (w w' : World) (error : JsError) :
  requestFunc w = (Throw error, w') ->
  retry_loop (S rounds) requestFunc n delay i w
  = if i =? n - 1 then (Throw error, w')
    else retry_loop rounds requestFunc n delay (i + 1) (setTimeout (delay * 2 ^ i) w').
Proof. intros E. cbn [retry_loop]. rewrite E. reflexivity. Qed.

(** C3, as the code has it: with [maxRetries = 3] and [delay = 1000] an
    operation that fails every time is invoked three times, [delay * 2^(i-1)]
    ms (1000, then 2000) are awaited before attempt [i = 1, 2], and the error
    of the third attempt is raised. *)
Theorem retry_backoff_three_attempts {A} (requestFunc : M A) (w0 : World) :
  (forall w, exists error w', requestFunc w = (Throw error, w')) ->
  exists e1 w1 e2 w2 e3 w3,
    requestFunc w0 = (Throw e1, w1)
    /\ requestFunc (setTimeout (1000 * 2 ^ (1 - 1)) w1) = (Throw e2, w2)
    /\ requestFunc (setTimeout (1000 * 2 ^ (2 - 1)) w2) = (Throw e3, w3)
    /\ retryRequest requestFunc (Some 3) (Some 1000) w0 = (Throw e3, w3).
Proof.
  intros Hfail.
  destruct (Hfail w0) as (e1 & w1 & E1).
  destruct (Hfail (setTimeout (1000 * 2 ^ (1 - 1)) w1)) as (e2 & w2 & E2).
  destruct (Hfail (setTimeout (1000 * 2 ^ (2 - 1)) w2)) as (e3 & w3 & E3).
  exists e1, w1, e2, w2, e3, w3. repeat split; try assumption.
  change (retryRequest requestFunc (Some 3) (Some 1000) w0)
    with (retry_loop 3 requestFunc 3 1000 0 w0).
  rewrite (retry_loop_failure _ _ _ _ _ _ _ _ E1).
  change (0 =? 3 - 1) with false. cbv iota.
  rewrite (retry_loop_failure _ _ _ _ _ _ _ _ E2).
  change (0 + 1 =? 3 - 1) with false. cbv iota.
  rewrite (retry_loop_failure _ _ _ _ _ _ _ _ E3).
  reflexivity.
Qed.

Lemma retry_backoff_three_attempts_witness :
  let requestFunc :=
    api_post (Scenario.always 500 JNull) "/books" Scenario.books empty_config in
  (forall w, exists error w', requestFunc w = (Throw error, w'))
  /\ exists e1 w1 e2 w2 e3 w3,
       requestFunc Scenario.start = (Throw e1, w1)
       /\ requestFunc (setTimeout (1000 * 2 ^ (1 - 1)) w1) = (Throw e2, w2)
       /\ requestFunc (setTimeout (1000 * 2 ^ (2 - 1)) w2) = (Throw e3, w3)
       /\ retryRequest requestFunc (Some 3) (Some 1000) Scenario.start = (Throw e3, w3).
Proof.
  intros requestFunc.
  assert (forall w, exists error w', requestFunc w = (Throw error, w')) as Hfail
    by (intros w; eexists _, _; reflexivity).
  split; [exact Hfail |].
  exact (retry_backoff_three_attempts requestFunc Scenario.start Hfail).
Defined.

(** C3, as stated, fails: a POST that the service answers 500 every time is
    sent three times, not four, and the waits are 1000 and 2000 ms, not 0,
    1000 and 2000 ms. *)
Lemma retry_backoff_counterexample :
  let requestFunc :=
    api_post (Scenario.always 500 JNull) "/books" Scenario.books empty_config in
  let run := retryRequest requestFunc (Some 3) (Some 1000) Scenario.start in
  let evs := since Scenario.start (snd run) in
  (forall w, exists error w', requestFunc w = (Throw error, w'))
  /\ (exists error, fst run = Throw error)
  /\ count is_request evs = 3%nat
  /\ count is_request evs <> 4%nat
  /\ timers evs = [1000; 2000]
  /\ timers evs <> [0; 1000; 2000].
Proof.
  intros requestFunc run evs.
  split; [intros w; eexists _, _; reflexivity |].
  split; [eexists; reflexivity |].
  split; [reflexivity |].
  split; [vm_compute; discriminate |].
  split; [reflexivity |].
  vm_compute; discriminate.
Qed.

(** C10: with [maxRetries <= 0] the loop body never runs: the operation is
    not invoked, the world is untouched and the helper returns [undefined];
    [apiWrapper.post] with such a [config.maxRetries] then reads [data] of
    [undefined], a [TypeError], and nothing is sent. *)
Theorem retry_without_rounds {A} (requestFunc : M A) (n : Z) (delay : option Z)
    (server : Server) (url : string) (body : JsVal) (config : Config) (w : World) :
  n <= 0 ->
  retryRequest requestFunc (Some n) delay w = (Ok None, w)
  /\ (maxRetries config = Some n ->
      apiWrapper_post server url body config w
      = (Throw (TypeError "Cannot read properties of undefined (reading 'data')"), w)).
Proof.
  intros Hn.
  assert (forall B (f : M B), retryRequest f (Some n) delay w = (Ok None, w)) as Hnone.
  { intros B f. unfold retryRequest. cbn [default from_option id].
    replace (Z.to_nat (n - 0)) with O by lia. reflexivity. }
  split; [apply Hnone |].
  intros Hcfg. unfold apiWrapper_post, bind. rewrite Hcfg.
  unfold retryRequest. cbn [default from_option id].
  replace (Z.to_nat (n - 0)) with O by lia. reflexivity.
Qed.

Lemma retry_without_rounds_witness :
  let config := {| cfg_method := GET; cfg_url := ""; cfg_data := JUndefined;
                   cfg_params := JUndefined; cfg_authorization := None;
                   cfg_requestedAt := None; cfg_retry := false;
                   skipCache := false; maxRetries := Some 0 |} in
  0 <= 0
  /\ maxRetries config = Some 0
  /\ retryRequest (api_post (Scenario.always 201 Scenario.books) "/books" Scenario.books config)
       (Some 0) None Scenario.start = (Ok None, Scenario.start)
  /\ apiWrapper_post (Scenario.always 201 Scenario.books) "/books" Scenario.books config
       Scenario.start
     = (Throw (TypeError "Cannot read properties of undefined (reading 'data')"),
        Scenario.start).
Proof.
  intros config.
  split; [lia |]. split; [reflexivity |].
  pose proof (retry_without_rounds
                (api_post (Scenario.always 201 Scenario.books) "/books" Scenario.books config)
                0 None (Scenario.always 201 Scenario.books) "/books" Scenario.books
                config Scenario.start (Z.le_refl 0)) as [Hretry Hpost].
  split; [exact Hretry | apply Hpost; reflexivity].
Defined.

(** ** The client never touches the cache *)

Lemma adapter_snd (server : Server) (client : Client) (config : Config)
    (w w' : World) (r : Result Response) :
  adapter server client config w = (r, w') ->
  w' = advance (elapsed (server (sent w) client config))
         (count_sent (emit (Sent client config) w)).
Proof.
  intros E. rewrite <- (adapter_world server client config w), E. reflexivity.
Qed.

Lemma report_cache (status : option Z) (code : option string) (message : JsVal)
    (w : World) :
  cache (report status code message w) = cache w.
Proof.
  rewrite report_table. destruct (spec_kind status code); reflexivity.
Qed.

Lemma refresh_cache (server : Server) (originalRequest : Config) (w : World) :
  cache (snd (refresh server originalRequest w)) = cache w.
Proof.
  rewrite refresh_unfold. unfold refresh_outcome.
  destruct (getItem "refreshToken" w) as [t |]; [| reflexivity].
  destruct (String.eqb t ""); [reflexivity |].
  destruct (adapter server GlobalAxios (refresh_request t) w) as [[response | e |] w1] eqn:E;
    apply adapter_snd in E; subst w1; [| reflexivity | reflexivity].
  destruct (res_data response); reflexivity.
Qed.

Lemma api_call_cache (n : nat) (server : Server) (config : Config) (w : World) :
  cache (snd (api_call n server config w)) = cache w.
Proof.
  revert config w. induction n as [| n IH]; intros config w; [reflexivity |].
  rewrite api_call_unfold.
  destruct (adapter server ApiInstance (request_interceptor config w) w)
    as [[response | error |] w1] eqn:E;
    apply adapter_snd in E; [subst w1; reflexivity | | subst w1; reflexivity].
  assert (cache w1 = cache w) as Hw1 by (subst w1; reflexivity).
  clear E. rewrite on_rejected_unfold.
  destruct (refreshable error).
  - pose proof (refresh_cache server (err_config (mark_retry error)) w1) as Hr.
    destruct (refresh server (err_config (mark_retry error)) w1)
      as [[[request |] | e |] w2]; cbn [snd] in Hr |- *.
    + rewrite IH. congruence.
    + unfold classified. cbn [snd]. rewrite report_cache. congruence.
    + change (cache (handleAuthFailure w2)) with (cache w2). congruence.
    + congruence.
  - unfold classified. cbn [snd]. rewrite report_cache. exact Hw1.
Qed.

Lemma api_settles (server : Server) (config : Config) (w : World) :
  fst (api server config w) <> Exhausted.
Proof. apply (api_call_fuel 0 server config w). Qed.

(** ** Cached reads *)

(** The miss path of [apiWrapper.get]. *)
Lemma apiWrapper_get_miss (server : Server) (url : string) (config : Config) (w : World) :
  skipCache config = false ->
  truthy (fst (getCachedData (cacheKey url config) w)) = false ->
  apiWrapper_get server url config w
  = match api_get server url config (snd (getCachedData (cacheKey url config) w)) with
    | (Ok response, w1) =>
        (Ok (res_data response),
         if res_status response =? 200
         then setCachedData (cacheKey url config) (res_data response) w1
         else w1)
    | (Throw error, w1) => (Throw error, w1)
    | (Exhausted, w1) => (Exhausted, w1)
    end.
Proof.
  intros Hskip Hmiss. unfold apiWrapper_get. rewrite Hskip. cbn [negb].
  destruct (getCachedData (cacheKey url config) w) as [cached w0].
  cbn [fst snd] in *. rewrite Hmiss. unfold bind.
  destruct (api_get server url config w0) as [[response | error |] w1]; try reflexivity.
  rewrite andb_true_r. destruct (res_status response =? 200); reflexivity.
Qed.

(** The hit path: nothing but the answer. *)
Lemma apiWrapper_get_hit (server : Server) (url : string) (config : Config) (w : World)
    (entry : CacheEntry) :
  skipCache config = false ->
  cache w !! cacheKey url config = Some entry ->
  now w - timestamp entry < CACHE_DURATION ->
  truthy (data entry) = true ->
  apiWrapper_get server url config w = (Ok (data entry), w).
Proof.
  intros Hskip Hlook Hfresh Htruthy. unfold apiWrapper_get. rewrite Hskip. cbn [negb].
  unfold getCachedData. rewrite Hlook.
  apply Z.ltb_lt in Hfresh. rewrite Hfresh, Htruthy. reflexivity.
Qed.

(** C6, as the code has it: a cached read that goes to the network stores the
    answer exactly when its status is 200; for any other status and for a
    failed request nothing is stored, and the cache is what the look-up left
    (which drops an expired entry of the key). *)
Theorem get_stores_exactly_status_200 (server : Server) (url : string) (config : Config)
    (w : World) :
  skipCache config = false ->
  truthy (fst (getCachedData (cacheKey url config) w)) = false ->
  let key := cacheKey url config in
  let w0 := snd (getCachedData key w) in
  let after := cache (snd (apiWrapper_get server url config w)) in
  (forall response w1,
      api_get server url config w0 = (Ok response, w1) ->
      fst (apiWrapper_get server url config w) = Ok (res_data response)
      /\ (res_status response = 200 ->
          after = <[key := {| data := res_data response; timestamp := now w1 |}]> (cache w0))
      /\ (res_status response <> 200 -> after = cache w0))
  /\ (forall error w1,
      api_get server url config w0 = (Throw error, w1) ->
      apiWrapper_get server url config w = (Throw error, w1) /\ after = cache w0).
Proof.
  intros Hskip Hmiss key w0 after. subst after.
  rewrite (apiWrapper_get_miss server url config w Hskip Hmiss). fold key. fold w0.
  pose proof (api_call_cache 2 server (with_request GET url (cfg_data config) config) w0)
    as Hframe.
  change (api_call 2 server (with_request GET url (cfg_data config) config) w0)
    with (api_get server url config w0) in Hframe.
  split.
  - intros response w1 E. rewrite E in Hframe |- *. cbn [fst snd] in *.
    split; [reflexivity |]. split.
    + intros H200. rewrite H200. cbn [Z.eqb Pos.eqb].
      unfold setCachedData. cbn [cache set_cache]. rewrite Hframe. reflexivity.
    + intros Hne. apply Z.eqb_neq in Hne. rewrite Hne. exact Hframe.
  - intros error w1 E. rewrite E in Hframe |- *. cbn [fst snd] in *.
    split; [reflexivity | exact Hframe].
Qed.

Lemma get_stores_exactly_status_200_witness :
  let server := Scenario.always 200 Scenario.books in
  let key := cacheKey "/books" empty_config in
  skipCache empty_config = false
  /\ truthy (fst (getCachedData key Scenario.start)) = false
  /\ cache (snd (apiWrapper_get server "/books" empty_config Scenario.start))
     = <[key := {| data := Scenario.books; timestamp := 1010 |}]>
         (cache (snd (getCachedData key Scenario.start))).
Proof.
  intros server key.
  split; [reflexivity |]. split; [reflexivity |].
  destruct (get_stores_exactly_status_200 server "/books" empty_config Scenario.start
              eq_refl eq_refl) as [Hok _].
  edestruct (Hok _ _ eq_refl) as (_ & H200 & _).
  exact (H200 eq_refl).
Defined.

(** C6, as stated, fails: a read answered 201 succeeds and stores nothing;
    and a failed read is not without effect on the cache, its look-up drops
    the expired entry of the key. *)
Lemma get_stores_any_2xx_counterexample :
  let key := cacheKey "/books" empty_config in
  let created := apiWrapper_get (Scenario.always 201 Scenario.books) "/books"
                   empty_config Scenario.start in
  let stale := advance 300000 (setCachedData key Scenario.books Scenario.start) in
  let failed := apiWrapper_get (Scenario.always 500 JNull) "/books" empty_config stale in
  (fst created = Ok Scenario.books /\ cache (snd created) !! key = None)
  /\ (exists error, fst failed = Throw error)
  /\ cache stale !! key = Some {| data := Scenario.books; timestamp := 1000 |}
  /\ cache (snd failed) !! key = None.
Proof.
  intros key created stale failed.
  split; [split; reflexivity |].
  split; [eexists; reflexivity |].
  split; reflexivity.
Qed.

(** C1, as the code has it: when a cached read misses, is answered 200 with
    a truthy payload, and the entry it stored is still the one of its key
    less than the TTL after it was stored, the same read returns the stored
    payload and leaves the world as it is: nothing is sent. *)
Theorem repeated_read_served_from_cache (server : Server) (url : string)
    (config : Config) (w w1 w2 : World) (response : Response) :
  skipCache config = false ->
  truthy (fst (getCachedData (cacheKey url config) w)) = false ->
  api_get server url config (snd (getCachedData (cacheKey url config) w))
  = (Ok response, w1) ->
  res_status response = 200 ->
  truthy (res_data response) = true ->
  cache w2 !! cacheKey url config
  = cache (snd (apiWrapper_get server url config w)) !! cacheKey url config ->
  now w2 - now w1 < CACHE_DURATION ->
  apiWrapper_get server url config w
  = (Ok (res_data response), setCachedData (cacheKey url config) (res_data response) w1)
  /\ apiWrapper_get server url config w2 = (Ok (res_data response), w2)
  /\ count is_request (since w2 (snd (apiWrapper_get server url config w2))) = 0%nat.
Proof.
  intros Hskip Hmiss E H200 Htruthy Hkept Hfresh.
  assert (apiWrapper_get server url config w
          = (Ok (res_data response),
             setCachedData (cacheKey url config) (res_data response) w1)) as Hfirst.
  { rewrite (apiWrapper_get_miss server url config w Hskip Hmiss), E, H200.
    reflexivity. }
  assert (apiWrapper_get server url config w2 = (Ok (res_data response), w2)) as Hsecond.
  { rewrite Hfirst in Hkept. cbn [snd] in Hkept.
    unfold setCachedData in Hkept. cbn [cache set_cache] in Hkept.
    rewrite lookup_insert_eq in Hkept.
    apply (apiWrapper_get_hit server url config w2 _ Hskip Hkept); assumption. }
  split; [exact Hfirst |]. split; [exact Hsecond |].
  rewrite Hsecond. cbn [snd]. unfold since. rewrite drop_all. reflexivity.
Qed.

Lemma repeated_read_served_from_cache_witness :
  let server := Scenario.always 200 Scenario.books in
  let key := cacheKey "/books" empty_config in
  let first := apiWrapper_get server "/books" empty_config Scenario.start in
  let later := advance 299999 (snd first) in
  skipCache empty_config = false
  /\ truthy (fst (getCachedData key Scenario.start)) = false
  /\ cache later !! key = cache (snd first) !! key
  /\ now later - 1010 < CACHE_DURATION
  /\ apiWrapper_get server "/books" empty_config later = (Ok Scenario.books, later).
Proof.
  intros server key first later.
  split; [reflexivity |]. split; [reflexivity |]. split; [reflexivity |].
  split; [reflexivity |].
  eapply (repeated_read_served_from_cache server "/books" empty_config
            Scenario.start _ later _ eq_refl eq_refl eq_refl eq_refl eq_refl eq_refl).
  reflexivity.
Defined.

(** C1, as stated, fails: a first read that succeeds with status 203 stores
    nothing, and one that succeeds with the payload [0] stores an entry the
    look-up takes for a miss; either way the same read, made at once, goes to
    the network again. *)
Lemma repeated_read_counterexample :
  let again (server : Server) :=
    let first := apiWrapper_get server "/books/count" empty_config Scenario.start in
    let second := apiWrapper_get server "/books/count" empty_config (snd first) in
    (fst first, now (snd second) - now (snd first),
     count is_request (since (snd first) (snd second))) in
  again (Scenario.always 203 Scenario.books) = (Ok Scenario.books, 10, 1%nat)
  /\ again (Scenario.always 200 (JNum 0)) = (Ok (JNum 0), 10, 1%nat).
Proof. split; reflexivity. Qed.

(** ** Invalidation on writes *)

Lemma split_nonempty (sep : ascii) (s : string) : split sep s <> [].
Proof.
  destruct s as [| c rest]; cbn [split]; [discriminate |].
  destruct (Ascii.eqb c sep); [discriminate |].
  destruct (split sep rest); discriminate.
Qed.

(** [includes] is the substring test. *)
Lemma prefix_app (pat s : string) :
  String.prefix pat s = true <-> exists rest, s = pat +:+ rest.
Proof.
  revert s. induction pat as [| c pat IH]; intros s.
  - destruct s; cbn; split; eauto.
  - destruct s as [| d s]; cbn [String.prefix].
    + split; [discriminate | intros (rest & H); discriminate H].
    + destruct (ascii_dec c d) as [-> | Hne].
      * rewrite IH. split; intros (rest & H); exists rest.
        -- rewrite H. reflexivity.
        -- cbn [append] in H. injection H as H. exact H.
      * split; [discriminate |]. intros (rest & H). cbn [append] in H.
        injection H as Hc _. destruct (Hne (eq_sym Hc)).
Qed.

Lemma includes_spec (s pat : string) :
  includes s pat = true <-> exists before after, s = before +:+ pat +:+ after.
Proof.
  induction s as [| c s IH]; cbn [includes].
  - rewrite orb_false_r, prefix_app. split.
    + intros (rest & H). exists "", rest. exact H.
    + intros (before & after & H). destruct before as [| d before]; [eauto |].
      discriminate H.
  - rewrite orb_true_iff, prefix_app, IH. split.
    + intros [(rest & H) | (before & after & H)].
      * exists "", rest. exact H.
      * exists (String c before), after. rewrite H. reflexivity.
    + intros (before & after & H). destruct before as [| d before].
      * left. exists after. exact H.
      * right. exists before, after. cbn [append] in H. injection H as _ H. exact H.
Qed.

Lemma evict_lookup (pattern key : string) (w : World) :
  cache (evict pattern w) !! key
  = if includes key pattern then None else cache w !! key.
Proof.
  unfold evict. cbn [cache set_cache].
  destruct (includes key pattern) eqn:Hinc.
  - apply map_lookup_filter_None_2.
    destruct (cache w !! key) as [entry |]; [right | left; reflexivity].
    intros x _. cbn [fst]. rewrite Hinc. discriminate.
  - destruct (cache w !! key) as [entry |] eqn:Hlook.
    + apply map_lookup_filter_Some_2; [exact Hlook | exact Hinc].
    + apply map_lookup_filter_None_2. left. exact Hlook.
Qed.

Lemma retry_loop_frame {A B} (f : World -> B) (requestFunc : M A) :
  (forall w, f (snd (requestFunc w)) = f w) ->
  (forall ms w, f (setTimeout ms w) = f w) ->
  forall (rounds : nat) (n delay i : Z) (w : World),
    f (snd (retry_loop rounds requestFunc n delay i w)) = f w.
Proof.
  intros Hop Htimer. induction rounds as [| rounds IH]; intros n delay i w;
    [reflexivity |].
  cbn [retry_loop]. specialize (Hop w).
  destruct (requestFunc w) as [[response | error |] w']; cbn [snd] in *;
    [exact Hop | | exact Hop].
  destruct (i =? n - 1); [exact Hop |].
  rewrite IH, Htimer. exact Hop.
Qed.

Lemma apiWrapper_post_cache (server : Server) (url : string) (body : JsVal)
    (config : Config) (w : World) :
  cache (snd (apiWrapper_post server url body config w)) = cache w.
Proof.
  unfold apiWrapper_post, bind, retryRequest.
  pose proof (retry_loop_frame cache (api_post server url body config)
                (fun w0 => api_call_cache 2 server _ w0)
                (fun ms w0 => eq_refl)
                (Z.to_nat (default 3 (maxRetries config) - 0))
                (default 3 (maxRetries config)) (default 1000 None) 0 w) as Hframe.
  destruct (retry_loop _ _ _ _ _ w) as [[[r |] | e |] w']; exact Hframe.
Qed.

(** C4, as the code has it: a PUT that succeeds removes exactly the entries
    whose key contains the first [/]-separated segment of the url (stated for
    a non-empty segment), a DELETE that succeeds removes exactly those whose
    key contains the last segment, a write that fails removes nothing, and a
    POST never touches the cache. *)
Theorem writes_evict_keys_containing_segment (server : Server)
    (url_put url_delete url_post : string) (body : JsVal) (config : Config)
    (w : World) (segment : string) :
  first_segment (split "/" url_put) = Some segment ->
  segment <> "" ->
  (forall response w1,
      api_put server url_put body config w = (Ok response, w1) ->
      fst (apiWrapper_put server url_put body config w) = Ok (res_data response)
      /\ forall key,
           cache (snd (apiWrapper_put server url_put body config w)) !! key
           = if includes key segment then None else cache w !! key)
  /\ (forall response w1,
      api_delete server url_delete config w = (Ok response, w1) ->
      fst (apiWrapper_delete server url_delete config w) = Ok (res_data response)
      /\ exists resourceId,
           pop_segment (split "/" url_delete) = Some resourceId
           /\ forall key,
                cache (snd (apiWrapper_delete server url_delete config w)) !! key
                = if includes key resourceId then None else cache w !! key)
  /\ (forall error w1,
      api_put server url_put body config w = (Throw error, w1) ->
      cache (snd (apiWrapper_put server url_put body config w)) = cache w)
  /\ (forall error w1,
      api_delete server url_delete config w = (Throw error, w1) ->
      cache (snd (apiWrapper_delete server url_delete config w)) = cache w)
  /\ cache (snd (apiWrapper_post server url_post body config w)) = cache w.
Proof.
  intros Hseg _.
  pose proof (api_call_cache 2 server (with_request PUT url_put body config) w) as Hput.
  change (api_call 2 server (with_request PUT url_put body config) w)
    with (api_put server url_put body config w) in Hput.
  pose proof (api_call_cache 2 server
                (with_request DELETE url_delete (cfg_data config) config) w) as Hdel.
  change (api_call 2 server (with_request DELETE url_delete (cfg_data config) config) w)
    with (api_delete server url_delete config w) in Hdel.
  split; [| split; [| split; [| split]]].
  - intros response w1 E. unfold apiWrapper_put, bind, act, ret.
    rewrite E in Hput |- *. cbn [fst snd] in *. rewrite Hseg. cbn [hole].
    split; [reflexivity |].
    intros key. rewrite evict_lookup, Hput. reflexivity.
  - intros response w1 E. unfold apiWrapper_delete, bind, act, ret.
    rewrite E in Hdel |- *. cbn [fst snd] in *.
    split; [reflexivity |].
    destruct (pop_segment (split "/" url_delete)) as [resourceId |] eqn:Hpop.
    + exists resourceId. split; [reflexivity |].
      intros key. cbn [hole]. rewrite evict_lookup, Hdel. reflexivity.
    + exfalso. unfold pop_segment in Hpop. apply last_None in Hpop.
      exact (split_nonempty _ _ Hpop).
  - intros error w1 E. unfold apiWrapper_put, bind. rewrite E in Hput |- *. exact Hput.
  - intros error w1 E. unfold apiWrapper_delete, bind. rewrite E in Hdel |- *. exact Hdel.
  - apply apiWrapper_post_cache.
Qed.

Lemma writes_evict_keys_containing_segment_witness :
  let server := Scenario.always 200 Scenario.books in
  let w1 := snd (apiWrapper_get server "/books" empty_config Scenario.start) in
  let w2 := snd (apiWrapper_get server "/issues" empty_config w1) in
  let run := apiWrapper_put server "books/42" Scenario.books empty_config w2 in
  first_segment (split "/" "books/42") = Some "books"
  /\ "books" <> ""
  /\ cache (snd run) !! cacheKey "/books" empty_config = None
  /\ cache (snd run) !! cacheKey "/issues" empty_config
     = cache w2 !! cacheKey "/issues" empty_config.
Proof.
  intros server w1 w2 run.
  assert ("books" <> "") as Hne by discriminate.
  split; [reflexivity |]. split; [exact Hne |].
  destruct (writes_evict_keys_containing_segment server "books/42" "/books/42" "/books"
              Scenario.books empty_config w2 "books" eq_refl Hne) as [Hput _].
  edestruct (Hput _ _ eq_refl) as [_ Hkeys].
  split; [exact (Hkeys (cacheKey "/books" empty_config))
         | exact (Hkeys (cacheKey "/issues" empty_config))].
Defined.

(** C4, as stated, fails: with the list of books and issue 42 cached, a
    successful [DELETE /books/42] keeps the [/books] entry and removes the
    entry of the unrelated [/issues/42]. *)
Lemma writes_evict_prefix_counterexample :
  let server := Scenario.always 200 Scenario.books in
  let w1 := snd (apiWrapper_get server "/books" empty_config Scenario.start) in
  let w2 := snd (apiWrapper_get server "/issues/42" empty_config w1) in
  let run := apiWrapper_delete server "/books/42" empty_config w2 in
  fst run = Ok Scenario.books
  /\ cache w2 !! "GET_/books_{}" = Some {| data := Scenario.books; timestamp := 1010 |}
  /\ cache w2 !! "GET_/issues/42_{}" = Some {| data := Scenario.books; timestamp := 1020 |}
  /\ cache (snd run) !! "GET_/books_{}" = Some {| data := Scenario.books; timestamp := 1010 |}
  /\ cache (snd run) !! "GET_/issues/42_{}" = None.
Proof. repeat split; reflexivity. Qed.

(** ** What a run adds to the trace *)

Lemma adapter_trace (server : Server) (client : Client) (config : Config)
    (w w' : World) (r : Result Response) :
  adapter server client config w = (r, w') ->
  trace w' = trace w ++ [Sent client config]
  /\ localStorage w' = localStorage w
  /\ sent w' = S (sent w).
Proof. intros E. apply adapter_snd in E. subst w'. repeat split. Qed.

Lemma report_trace (status : option Z) (code : option string) (message : JsVal)
    (w : World) :
  trace (report status code message w)
  = trace w ++ [Toast (kind_toast (spec_kind status code) message)].
Proof.
  rewrite report_table. destruct (spec_kind status code); reflexivity.
Qed.

Lemma refresh_trace (server : Server) (originalRequest : Config) (w : World) :
  trace (snd (refresh server originalRequest w)) = trace w ++ refresh_events w.
Proof.
  rewrite refresh_unfold. unfold refresh_outcome, refresh_events.
  destruct (getItem "refreshToken" w) as [t |]; [| symmetry; apply app_nil_r].
  destruct (String.eqb t ""); [symmetry; apply app_nil_r |].
  destruct (adapter server GlobalAxios (refresh_request t) w) as [[response | e |] w1] eqn:E;
    apply adapter_snd in E; subst w1; [| reflexivity | reflexivity].
  destruct (res_data response); reflexivity.
Qed.

Lemma handleAuthFailure_trace (w : World) : trace (handleAuthFailure w) = trace w.
Proof. reflexivity. Qed.

Lemma classified_world (error : JsError) (w : World) :
  trace (snd (classified error w))
  = trace w ++ [Toast (kind_toast (spec_kind (err_status error) (err_code error))
                         (error_message error))].
Proof. unfold classified. cbn [snd]. apply report_trace. Qed.

(** [since w w' = evs], by chasing the trace of [w'] back to that of [w]
    through the equations at hand. *)
Ltac chase_trace :=
  apply since_app; rewrite ?classified_world; cbn [snd];
  rewrite ?handleAuthFailure_trace;
  repeat match goal with
         | H : trace ?x = _ |- context [trace ?x] => rewrite H
         end;
  rewrite <- ?app_assoc, ?app_nil_r; reflexivity.

(** The run of a request that carries the marker: one round trip, and one
    toast if it is rejected. *)
Lemma api_call_marked_run (server : Server) (request : Config) (w : World) :
  cfg_retry request = true ->
  api_call 1 server request w
  = match adapter server ApiInstance (request_interceptor request w) w with
    | (Throw error, w') => classified error w'
    | settled => settled
    end.
Proof.
  intros Hm. rewrite api_call_unfold.
  destruct (adapter server ApiInstance (request_interceptor request w) w)
    as [[response | error |] w1] eqn:E; try reflexivity.
  rewrite on_rejected_unfold.
  apply adapter_throw_config in E. unfold refreshable.
  rewrite E, request_interceptor_retry, Hm, andb_false_r. reflexivity.
Qed.

Lemma count_app (p : Event -> bool) (l1 l2 : list Event) :
  count p (l1 ++ l2) = (count p l1 + count p l2)%nat.
Proof. unfold count. rewrite List.filter_app. apply length_app. Qed.

Lemma toasts_app (l1 l2 : list Event) : toasts (l1 ++ l2) = toasts l1 ++ toasts l2.
Proof. unfold toasts. apply flat_map_app. Qed.

Lemma count_refresh_events (w : World) :
  count is_refresh (refresh_events w) = if present (getItem "refreshToken" w) then 1%nat else 0%nat.
Proof.
  unfold refresh_events, present.
  destruct (getItem "refreshToken" w) as [t |]; [| reflexivity].
  destruct (String.eqb t ""); reflexivity.
Qed.

Lemma refresh_events_plain (w : World) :
  count is_reissue (refresh_events w) = 0%nat
  /\ count is_request (refresh_events w) = 0%nat
  /\ toasts (refresh_events w) = [].
Proof.
  unfold refresh_events.
  destruct (getItem "refreshToken" w) as [t |]; [| repeat split].
  destruct (String.eqb t ""); repeat split.
Qed.

(** ** The whole run of a request through the instance *)

Lemma api_run (server : Server) (config : Config) (w : World) :
  api server config w
  = match adapter server ApiInstance (request_interceptor config w) w with
    | (Throw error, w1) =>
        if refreshable error then
          match refresh server (err_config (mark_retry error)) w1 with
          | (Ok (Some request), w2) =>
              match adapter server ApiInstance (request_interceptor request w2) w2 with
              | (Throw error2, w3) => classified error2 w3
              | settled => settled
              end
          | (Ok None, w2) => classified (mark_retry error) w2
          | (Throw refreshError, w2) => (Throw refreshError, handleAuthFailure w2)
          | (Exhausted, w2) => (Exhausted, w2)
          end
        else classified error w1
    | settled => settled
    end.
Proof.
  unfold api. rewrite api_call_unfold.
  destruct (adapter server ApiInstance (request_interceptor config w) w)
    as [[response | error |] w1] eqn:E; try reflexivity.
  rewrite on_rejected_unfold. destruct (refreshable error); [| reflexivity].
  destruct (adapter_throws_axios _ _ _ _ _ _ E) as (r & c & m & Herr).
  pose proof (mark_retry_marked _ _ _ _ _ Herr) as Hmark.
  destruct (refresh server (err_config (mark_retry error)) w1)
    as [[[request |] | e |] w2] eqn:R; try reflexivity.
  apply refresh_keeps_marker in R. rewrite Hmark in R.
  apply api_call_marked_run. exact R.
Qed.

Lemma refreshable_first (server : Server) (config : Config) (w w1 : World)
    (error : JsError) :
  adapter server ApiInstance (request_interceptor config w) w = (Throw error, w1) ->
  err_status error = Some 401 ->
  cfg_retry config = false ->
  refreshable error = true.
Proof.
  intros E Hs Hm. unfold refreshable. rewrite Hs.
  apply adapter_throw_config in E. rewrite E, request_interceptor_retry, Hm.
  reflexivity.
Qed.

Lemma handleAuthFailure_clears (w : World) :
  getItem "adminToken" (handleAuthFailure w) = None
  /\ getItem "adminUser" (handleAuthFailure w) = None
  /\ getItem "refreshToken" (handleAuthFailure w) = None
  /\ location_href (handleAuthFailure w) = "/login".
Proof.
  unfold handleAuthFailure, getItem, removeItem.
  cbn [localStorage set_localStorage set_location_href location_href].
  repeat split; by simplify_map_eq.
Qed.

(** ** Refresh failure *)

(** C5, as the code has it: when the first answer is 401, a refresh token is
    stored and the refresh call is rejected, the client clears the session
    ([adminToken], [adminUser], [refreshToken]), points the page at [/login]
    and rejects with the error of the refresh call; no toast is shown. *)
Theorem refresh_failure_ends_session (server : Server) (config : Config)
    (w w1 w2 : World) (error refreshError : JsError) (t : string) :
  adapter server ApiInstance (request_interceptor config w) w = (Throw error, w1) ->
  err_status error = Some 401 ->
  cfg_retry config = false ->
  getItem "refreshToken" w1 = Some t ->
  t <> "" ->
  adapter server GlobalAxios (refresh_request t) w1 = (Throw refreshError, w2) ->
  api server config w = (Throw refreshError, handleAuthFailure w2)
  /\ getItem "adminToken" (handleAuthFailure w2) = None
  /\ getItem "adminUser" (handleAuthFailure w2) = None
  /\ getItem "refreshToken" (handleAuthFailure w2) = None
  /\ location_href (handleAuthFailure w2) = "/login"
  /\ toasts (since w (handleAuthFailure w2)) = [].
Proof.
  intros E Hs Hm Htok Hne R.
  split; [| split; [| split; [| split; [| split]]]];
    try apply (handleAuthFailure_clears w2).
  - rewrite api_run, E, (refreshable_first _ _ _ _ _ E Hs Hm).
    rewrite refresh_unfold. unfold refresh_outcome. rewrite Htok.
    apply String.eqb_neq in Hne. rewrite Hne, R. reflexivity.
  - apply adapter_trace in E. destruct E as (Et & _ & _).
    apply adapter_trace in R. destruct R as (Rt & _ & _).
    rewrite (since_app w (handleAuthFailure w2)
               [Sent ApiInstance (request_interceptor config w);
                Sent GlobalAxios (refresh_request t)]); [reflexivity |].
    rewrite handleAuthFailure_trace, Rt, Et, <- app_assoc. reflexivity.
Qed.

Lemma refresh_failure_ends_session_witness :
  let server :=
    Scenario.expired (HttpReply 400 (JObj [("message", JStr "invalid refresh token")])) in
  let config := with_request GET "/books" JUndefined empty_config in
  let first := adapter server ApiInstance (request_interceptor config Scenario.renewable)
                 Scenario.renewable in
  let second := adapter server GlobalAxios (refresh_request "r1") (snd first) in
  (exists error, first = (Throw error, snd first) /\ err_status error = Some 401)
  /\ cfg_retry config = false
  /\ getItem "refreshToken" (snd first) = Some "r1"
  /\ "r1" <> ""
  /\ (exists refreshError,
        second = (Throw refreshError, snd second)
        /\ api server config Scenario.renewable
           = (Throw refreshError, handleAuthFailure (snd second))).
Proof.
  intros server config first second.
  assert ("r1" <> "") as Hne by discriminate.
  split; [eexists; split; reflexivity |].
  split; [reflexivity |]. split; [reflexivity |]. split; [exact Hne |].
  eexists. split; [reflexivity |].
  eapply (refresh_failure_ends_session server config Scenario.renewable
            (snd first) (snd second) _ _ "r1" eq_refl eq_refl eq_refl eq_refl Hne eq_refl).
Defined.

(** C5, as stated, fails on what is propagated: the caller of [GET /books]
    gets the 400 of [POST /auth/refresh], not the 401 of its own request. *)
Lemma refresh_failure_counterexample :
  let server :=
    Scenario.expired (HttpReply 400 (JObj [("message", JStr "invalid refresh token")])) in
  let config := with_request GET "/books" JUndefined empty_config in
  let original := fst (adapter server ApiInstance
                         (request_interceptor config Scenario.renewable)
                         Scenario.renewable) in
  let run := api server config Scenario.renewable in
  (exists error, original = Throw error
                 /\ err_status error = Some 401
                 /\ cfg_url (err_config error) = "/books")
  /\ (exists error, fst run = Throw error
                    /\ err_status error = Some 400
                    /\ cfg_url (err_config error) = "/auth/refresh")
  /\ fst run <> original.
Proof.
  intros server config original run.
  split; [eexists; repeat split |].
  split; [eexists; repeat split |].
  vm_compute. discriminate.
Qed.

(** ** Refresh and retry, once *)

Lemma mark_retry_config (server : Server) (client : Client) (config : Config)
    (w w' : World) (error : JsError) :
  adapter server client config w = (Throw error, w') ->
  err_config (mark_retry error) = with_retry config.
Proof.
  intros E. destruct (adapter_throws_axios _ _ _ _ _ _ E) as (r & c & m & ->).
  reflexivity.
Qed.

Lemma refresh_some_present (server : Server) (originalRequest request : Config)
    (w w' : World) :
  refresh server originalRequest w = (Ok (Some request), w') ->
  present (getItem "refreshToken" w) = true.
Proof.
  rewrite refresh_unfold. unfold refresh_outcome, present.
  destruct (getItem "refreshToken" w) as [t |]; [| discriminate].
  destruct (String.eqb t ""); [discriminate | reflexivity].
Qed.

Lemma same_request_trans (a b c : Config) :
  same_request a b -> same_request b c -> same_request a c.
Proof.
  unfold same_request. intros (A1 & A2 & A3 & A4) (B1 & B2 & B3 & B4).
  repeat split; congruence.
Qed.

Lemma request_interceptor_same (config : Config) (w : World) :
  same_request (request_interceptor config w) config.
Proof.
  unfold same_request, request_interceptor.
  destruct (getItem "adminToken" w) as [t |]; [destruct (present (Some t)) |];
    repeat split.
Qed.

Lemma refresh_same_request (server : Server) (originalRequest request : Config)
    (w w' : World) :
  refresh server originalRequest w = (Ok (Some request), w') ->
  same_request request originalRequest.
Proof.
  rewrite refresh_unfold. unfold refresh_outcome.
  destruct (getItem "refreshToken" w) as [t |]; [| discriminate].
  destruct (String.eqb t ""); [discriminate |].
  destruct (adapter server GlobalAxios (refresh_request t) w) as [[response | e |] w1];
    [| discriminate | discriminate].
  destruct (res_data response); intros E; inversion E; repeat split.
Qed.

Lemma refresh_events_global (w : World) (c : Config) :
  ~ In (Sent ApiInstance c) (refresh_events w).
Proof.
  unfold refresh_events.
  destruct (getItem "refreshToken" w) as [t |]; [| intros []].
  destruct (String.eqb t ""); [intros [] |].
  intros [H | []]. discriminate H.
Qed.

Lemma count_request_none (evs : list Event) (c : Config) :
  count is_request evs = 0%nat -> ~ In (Sent ApiInstance c) evs.
Proof.
  unfold count. induction evs as [| e evs IH]; intros Hcount Hin; [exact Hin |].
  cbn [List.filter] in Hcount. destruct Hin as [-> | Hin].
  - cbn [is_request] in Hcount. discriminate Hcount.
  - destruct (is_request e); [discriminate Hcount | exact (IH Hcount Hin)].
Qed.

(** The re-issued request is the one event of a tail that carries the
    marker. *)
Ltac one_reissue :=
  unfold count; cbn [List.filter is_reissue];
  match goal with
  | H : cfg_retry (request_interceptor _ _) = true |- _ => rewrite H
  end;
  reflexivity.

(** C2, as the code has it: after a first answer 401 to a request without
    the marker the client makes at most one refresh call (exactly one when a
    refresh token is stored) and re-issues the request at most once (exactly
    once, with the marker set, when the refresh succeeds).  What goes out
    again is the original request: every request of the instance in the run
    has the caller's method, url, body and query, and the one sent after a
    successful refresh is the request the refresh handed back, marked.  A 401
    to the re-issued request is rejected to the caller after the
    session-expired toast and the session tear-down, with no further refresh
    call. *)
Theorem refresh_and_retry_at_most_once (server : Server) (config : Config)
    (w w1 : World) (error : JsError) :
  adapter server ApiInstance (request_interceptor config w) w = (Throw error, w1) ->
  err_status error = Some 401 ->
  cfg_retry config = false ->
  let original := with_retry (request_interceptor config w) in
  let run := api server config w in
  let evs := since w (snd run) in
  (count is_refresh evs <= 1)%nat
  /\ (count is_reissue evs <= 1)%nat
  /\ (count is_refresh evs = 1%nat <-> present (getItem "refreshToken" w1) = true)
  /\ (count is_reissue evs = 1%nat
      <-> exists request w2, refresh server original w1 = (Ok (Some request), w2))
  /\ (forall c, In (Sent ApiInstance c) evs -> same_request c config)
  /\ (forall request w2,
         refresh server original w1 = (Ok (Some request), w2) ->
         let again := request_interceptor request w2 in
         same_request again config
         /\ cfg_retry again = true
         /\ exists tail,
              evs = Sent ApiInstance (request_interceptor config w)
                    :: refresh_events w1 ++ Sent ApiInstance again :: tail
              /\ count is_request tail = 0%nat
              /\ count is_refresh tail = 0%nat)
  /\ (forall request w2 error2 w3,
         refresh server original w1 = (Ok (Some request), w2) ->
         adapter server ApiInstance (request_interceptor request w2) w2
         = (Throw error2, w3) ->
         err_status error2 = Some 401 ->
         cfg_retry (request_interceptor request w2) = true
         /\ run = (Throw error2,
                   handleAuthFailure
                     (toast_error "Session expired. Please login again." w3))
         /\ evs = Sent ApiInstance (request_interceptor config w)
                  :: refresh_events w1
                  ++ [Sent ApiInstance (request_interceptor request w2);
                      Toast "Session expired. Please login again."]).
Proof.
  intros E Hs Hm original run evs.
  pose proof (refreshable_first _ _ _ _ _ E Hs Hm) as Hr.
  pose proof (mark_retry_config _ _ _ _ _ _ E) as Hc. fold original in Hc.
  pose proof (adapter_trace _ _ _ _ _ _ E) as (Et & _ & _).
  assert (is_reissue (Sent ApiInstance (request_interceptor config w)) = false) as Hfirst
    by (cbn [is_reissue]; rewrite request_interceptor_retry; exact Hm).
  pose proof (refresh_trace server original w1) as Rt.
  pose proof (refresh_settles server original w1) as Rs.
  pose proof (count_refresh_events w1) as Hcount.
  pose proof (refresh_events_plain w1) as (Hre & _ & _).
  assert (run = match refresh server original w1 with
                | (Ok (Some request), w2) =>
                    match adapter server ApiInstance (request_interceptor request w2) w2 with
                    | (Throw error2, w3) => classified error2 w3
                    | settled => settled
                    end
                | (Ok None, w2) => classified (mark_retry error) w2
                | (Throw refreshError, w2) => (Throw refreshError, handleAuthFailure w2)
                | (Exhausted, w2) => (Exhausted, w2)
                end) as Hrun
    by (subst run; rewrite api_run, E, Hr, Hc; reflexivity).
  assert (forall request w2, refresh server original w1 = (Ok (Some request), w2) ->
            cfg_retry (request_interceptor request w2) = true) as Hmarked.
  { intros request w2 R. rewrite request_interceptor_retry.
    apply refresh_keeps_marker in R. rewrite R. reflexivity. }
  assert (forall request w2, refresh server original w1 = (Ok (Some request), w2) ->
            same_request (request_interceptor request w2) config) as Hsame.
  { intros request w2 R.
    apply (same_request_trans _ request); [apply request_interceptor_same |].
    apply (same_request_trans _ original); [exact (refresh_same_request _ _ _ _ _ R) |].
    apply (same_request_trans _ (request_interceptor config w));
      [repeat split | apply request_interceptor_same]. }
  assert (exists tail,
             evs = Sent ApiInstance (request_interceptor config w)
                   :: refresh_events w1 ++ tail
             /\ count is_refresh tail = 0%nat
             /\ count is_reissue tail
                = match refresh server original w1 with
                  | (Ok (Some _), _) => 1%nat
                  | _ => 0%nat
                  end
             /\ match refresh server original w1 with
                | (Ok (Some request), w2) =>
                    exists rest,
                      tail = Sent ApiInstance (request_interceptor request w2) :: rest
                      /\ count is_request rest = 0%nat
                      /\ count is_refresh rest = 0%nat
                | _ => count is_request tail = 0%nat
                end) as (tail & Hevs & Htail1 & Htail2 & Htail3).
  { subst evs. rewrite Hrun.
    destruct (refresh server original w1) as [[[request |] | e |] w2] eqn:R;
      cbn [snd] in Rt.
    - specialize (Hmarked request w2 eq_refl).
      destruct (adapter server ApiInstance (request_interceptor request w2) w2)
        as [[response2 | error2 |] w3] eqn:E2;
        pose proof (adapter_trace _ _ _ _ _ _ E2) as (E2t & _ & _).
      + exists [Sent ApiInstance (request_interceptor request w2)].
        split; [chase_trace | split; [reflexivity | split; [one_reissue |]]].
        exists []. repeat split.
      + eexists (Sent ApiInstance (request_interceptor request w2) :: [Toast _]).
        split; [chase_trace | split; [reflexivity | split; [one_reissue |]]].
        eexists. repeat split.
      + exists [Sent ApiInstance (request_interceptor request w2)].
        split; [chase_trace | split; [reflexivity | split; [one_reissue |]]].
        exists []. repeat split.
    - eexists [Toast _]. split; [chase_trace | repeat split].
    - exists []. split; [chase_trace | repeat split].
    - exfalso. apply Rs. reflexivity. }
  assert (count is_refresh evs
          = if present (getItem "refreshToken" w1) then 1%nat else 0%nat) as Hrefreshes.
  { rewrite Hevs. change (?x :: ?l ++ ?t) with ([x] ++ l ++ t).
    rewrite !count_app, Hcount, Htail1. cbn. lia. }
  assert (count is_reissue evs
          = match refresh server original w1 with
            | (Ok (Some _), _) => 1%nat
            | _ => 0%nat
            end) as Hreissues.
  { rewrite Hevs. change (?x :: ?l ++ ?t) with ([x] ++ l ++ t).
    rewrite !count_app, Hre, Htail2. unfold count at 1. cbn [List.filter].
    rewrite Hfirst. reflexivity. }
  split; [rewrite Hrefreshes; destruct (present _); lia |].
  split.
  { rewrite Hreissues.
    destruct (refresh server original w1) as [[[request |] | e |] w2]; lia. }
  split; [rewrite Hrefreshes; destruct (present _); split; (lia || congruence) |].
  split.
  { rewrite Hreissues.
    destruct (refresh server original w1) as [[[request |] | e |] w2].
    - split; [eauto | reflexivity].
    - split; [lia | intros (? & ? & ?); congruence].
    - split; [lia | intros (? & ? & ?); congruence].
    - split; [lia | intros (? & ? & ?); congruence]. }
  split.
  { intros c Hin. rewrite Hevs in Hin.
    destruct Hin as [Hin | Hin];
      [inversion Hin; subst c; apply request_interceptor_same |].
    apply in_app_or in Hin. destruct Hin as [Hin | Hin];
      [exfalso; exact (refresh_events_global _ _ Hin) |].
    destruct (refresh server original w1) as [[[request |] | e |] w2].
    - destruct Htail3 as (rest & -> & Hrest & _).
      destruct Hin as [Hin | Hin];
        [inversion Hin; subst c; exact (Hsame request w2 eq_refl) |].
      exfalso. exact (count_request_none _ _ Hrest Hin).
    - exfalso. exact (count_request_none _ _ Htail3 Hin).
    - exfalso. exact (count_request_none _ _ Htail3 Hin).
    - exfalso. exact (count_request_none _ _ Htail3 Hin). }
  split.
  { intros request w2 R again.
    split; [exact (Hsame request w2 R) |]. split; [exact (Hmarked request w2 R) |].
    rewrite R in Htail3. destruct Htail3 as (rest & -> & Hrest1 & Hrest2).
    exists rest. split; [exact Hevs | split; assumption]. }
  intros request w2 error2 w3 R E2 Hs2.
  split; [exact (Hmarked request w2 R) |].
  pose proof (adapter_trace _ _ _ _ _ _ E2) as (E2t & _ & _).
  rewrite R in Rt. cbn [snd] in Rt.
  assert (classified error2 w3
          = (Throw error2,
             handleAuthFailure (toast_error "Session expired. Please login again." w3)))
    as Hclass by (unfold classified; rewrite Hs2; reflexivity).
  split.
  - rewrite Hrun, R, E2. exact Hclass.
  - subst evs. rewrite Hrun, R, E2, Hclass. apply since_app. cbn [snd].
    rewrite handleAuthFailure_trace. cbn [trace toast_error emit].
    rewrite E2t, Rt, Et, <- !app_assoc. reflexivity.
Qed.

Lemma refresh_and_retry_at_most_once_witness :
  let server := Scenario.expired (HttpReply 200 (JObj [("token", JStr "t2")])) in
  let config := with_request GET "/books" JUndefined empty_config in
  let first := adapter server ApiInstance (request_interceptor config Scenario.renewable)
                 Scenario.renewable in
  let evs := since Scenario.renewable (snd (api server config Scenario.renewable)) in
  (exists error, first = (Throw error, snd first) /\ err_status error = Some 401)
  /\ cfg_retry config = false
  /\ (count is_refresh evs <= 1)%nat
  /\ (count is_reissue evs <= 1)%nat
  /\ (forall c, In (Sent ApiInstance c) evs -> same_request c config)
  /\ (exists again tail,
        evs = Sent ApiInstance (request_interceptor config Scenario.renewable)
              :: refresh_events (snd first) ++ Sent ApiInstance again :: tail
        /\ cfg_method again = GET /\ cfg_url again = "/books"
        /\ cfg_retry again = true)
  /\ (exists error2, fst (api server config Scenario.renewable) = Throw error2
                     /\ err_status error2 = Some 401)
  /\ toasts evs = ["Session expired. Please login again."].
Proof.
  intros server config first evs.
  split; [eexists; split; reflexivity |]. split; [reflexivity |].
  edestruct (refresh_and_retry_at_most_once server config Scenario.renewable (snd first)
               _ eq_refl eq_refl eq_refl)
    as (Hrefresh & Hreissue & _ & _ & Hsame & Hagain & Hsecond).
  split; [exact Hrefresh |]. split; [exact Hreissue |].
  split; [exact Hsame |].
  split.
  { edestruct (Hagain _ _ eq_refl) as ((Hmethod & Hurl & _) & Hmark & tail & Htail & _).
    eexists. exists tail. split; [exact Htail |].
    split; [exact Hmethod |]. split; [exact Hurl | exact Hmark]. }
  edestruct (Hsecond _ _ _ _ eq_refl eq_refl eq_refl) as (_ & Hrun & Hevs).
  split.
  - eexists. rewrite Hrun. split; reflexivity.
  - fold evs in Hevs. rewrite Hevs. reflexivity.
Defined.

(** C2, as stated, fails: with no refresh token stored a first answer 401 is
    followed by no refresh call and no re-issue; the request is rejected at
    once. *)
Lemma refresh_and_retry_counterexample :
  let server := Scenario.expired (HttpReply 200 (JObj [("token", JStr "t2")])) in
  let config := with_request GET "/books" JUndefined empty_config in
  let first := adapter server ApiInstance (request_interceptor config Scenario.start)
                 Scenario.start in
  let run := api server config Scenario.start in
  let evs := since Scenario.start (snd run) in
  (exists error, fst first = Throw error /\ err_status error = Some 401)
  /\ cfg_retry config = false
  /\ count is_refresh evs = 0%nat
  /\ count is_reissue evs = 0%nat
  /\ evs = [Sent ApiInstance (request_interceptor config Scenario.start);
            Toast "Session expired. Please login again."].
Proof.
  intros server config first run evs.
  split; [eexists; split; reflexivity |].
  repeat split.
Qed.

(** ** Classification of failures *)

Lemma kind_toast_inj (k1 k2 : ErrorKind) (m1 m2 : JsVal) :
  kind_toast k1 m1 = kind_toast k2 m2 -> k1 = k2.
Proof.
  destruct k1, k2; cbn [kind_toast]; intros H; try reflexivity;
    exfalso; revert H; unfold String.app; cbn [append]; congruence.
Qed.

Lemma classified_throws (error e : JsError) (w w' : World) :
  classified error w = (Throw e, w') ->
  e = error
  /\ trace w' = trace w ++ [Toast (kind_toast (spec_kind (err_status e) (err_code e))
                                     (error_message e))].
Proof.
  unfold classified. intros H. inversion H; subst. split; [reflexivity |].
  apply report_trace.
Qed.

(** C8, as the code has it: the status switch follows the fixed table (400
    BadRequest, 401 Unauthorized, 403 Forbidden, 404 NotFound, 409 Conflict,
    422 Validation, 429 RateLimited, 500 ServerError, 502/503/504
    ServiceUnavailable, then ECONNABORTED Timeout, ERR_NETWORK NetworkError,
    anything else Unknown), each kind has a toast of its own, and a failed
    call of the instance shows exactly one toast, the one the table gives for
    the error it rejects with, unless the token refresh itself failed: then
    the refresh error is rejected and no toast is shown. *)
Theorem failed_call_shown_once (server : Server) (config : Config) (w w' : World)
    (e : JsError) :
  api server config w = (Throw e, w') ->
  (forall status code message w0,
      report status code message w0
      = kind_effect (spec_kind status code)
          (toast_error (kind_toast (spec_kind status code) message) w0))
  /\ (forall k1 k2 m1 m2, kind_toast k1 m1 = kind_toast k2 m2 -> k1 = k2)
  /\ toasts (since w w')
     = if refresh_fails server config w then []
       else [kind_toast (spec_kind (err_status e) (err_code e)) (error_message e)].
Proof.
  intros Hrun.
  split; [exact report_table |]. split; [exact kind_toast_inj |].
  rewrite api_run in Hrun. unfold refresh_fails.
  destruct (adapter server ApiInstance (request_interceptor config w) w)
    as [[response | error |] w1] eqn:E; [discriminate | | discriminate].
  pose proof (adapter_trace _ _ _ _ _ _ E) as (Et & _ & _).
  destruct (refreshable error); cbn [andb].
  - pose proof (refresh_trace server (err_config (mark_retry error)) w1) as Rt.
    pose proof (refresh_events_plain w1) as (_ & _ & Hplain).
    destruct (refresh server (err_config (mark_retry error)) w1)
      as [[[request |] | refreshError |] w2]; cbn [fst snd] in *.
    + destruct (adapter server ApiInstance (request_interceptor request w2) w2)
        as [[response2 | error2 |] w3] eqn:E2; [discriminate | | discriminate].
      pose proof (adapter_trace _ _ _ _ _ _ E2) as (E2t & _ & _).
      apply classified_throws in Hrun. destruct Hrun as (-> & Ht).
      rewrite (since_app w w' _
                 ltac:(rewrite Ht, E2t, Rt, Et, <- !app_assoc; reflexivity)).
      rewrite !toasts_app, Hplain. reflexivity.
    + apply classified_throws in Hrun. destruct Hrun as (Heq & Ht).
      rewrite (since_app w w' _
                 ltac:(rewrite Ht, Rt, Et, <- !app_assoc; reflexivity)).
      rewrite !toasts_app, Hplain. reflexivity.
    + inversion Hrun; subst.
      rewrite (since_app w (handleAuthFailure w2)
                 (Sent ApiInstance (request_interceptor config w) :: refresh_events w1)).
      * change (?x :: ?l) with ([x] ++ l). rewrite toasts_app, Hplain. reflexivity.
      * rewrite handleAuthFailure_trace, Rt, Et, <- !app_assoc. reflexivity.
    + discriminate.
  - apply classified_throws in Hrun. destruct Hrun as (-> & Ht).
    rewrite (since_app w w' _ ltac:(rewrite Ht, Et, <- !app_assoc; reflexivity)).
    reflexivity.
Qed.

Lemma failed_call_shown_once_witness :
  let server := Scenario.always 404 (JObj [("message", JStr "no such book")]) in
  let config := with_request GET "/books/7" JUndefined empty_config in
  exists e w',
    api server config Scenario.start = (Throw e, w')
    /\ spec_kind (err_status e) (err_code e) = NotFound
    /\ toasts (since Scenario.start w') = ["Resource not found."].
Proof.
  intros server config. eexists _, _.
  split; [reflexivity |]. split; [reflexivity |].
  edestruct (failed_call_shown_once server config Scenario.start _ _ eq_refl)
    as (_ & _ & Hshown).
  rewrite Hshown. reflexivity.
Defined.

(** C8, as stated, fails: when the refresh call finds no connection the
    request fails and no toast at all is shown; and one [apiWrapper.post]
    that fails is classified and shown once per attempt, three times. *)
Lemma failed_call_shown_once_counterexample :
  let offline := Scenario.expired (NoReply (Some "ERR_NETWORK") "Network Error") in
  let config := with_request GET "/books" JUndefined empty_config in
  let run := api offline config Scenario.renewable in
  let post := apiWrapper_post (Scenario.always 500 JNull) "/books" Scenario.books
                empty_config Scenario.start in
  (exists e, fst run = Throw e /\ err_code e = Some "ERR_NETWORK")
  /\ toasts (since Scenario.renewable (snd run)) = []
  /\ (exists e, fst post = Throw e)
  /\ toasts (since Scenario.start (snd post))
     = ["Server error. Please try again later.";
        "Server error. Please try again later.";
        "Server error. Please try again later."].
Proof.
  intros offline config run post.
  split; [eexists; split; reflexivity |].
  split; [reflexivity |].
  split; [eexists; reflexivity | reflexivity].
Qed.

(** ** Who writes the persisted session *)

Lemma status_is_401 (status : option Z) :
  match status with Some 401 => true | _ => false end = true -> status = Some 401.
Proof.
  intros H.
  repeat match type of H with
         | context [match ?x with _ => _ end] => is_var x; destruct x
         end; try discriminate H; reflexivity.
Qed.

Lemma spec_kind_unauthorized (status : option Z) (code : option string) :
  spec_kind status code = Unauthorized -> status = Some 401.
Proof.
  unfold spec_kind. intros H.
  destruct (code_is code "ECONNABORTED"), (code_is code "ERR_NETWORK");
    repeat match type of H with
           | context [match ?x with _ => _ end] => is_var x; destruct x
           end; try discriminate H; reflexivity.
Qed.

Lemma report_localStorage (status : option Z) (code : option string) (message : JsVal)
    (w : World) :
  status <> Some 401 ->
  localStorage (report status code message w) = localStorage w.
Proof.
  intros Hne. rewrite report_table.
  pose proof (spec_kind_unauthorized status code) as Hk.
  destruct (spec_kind status code); try reflexivity.
  exfalso. apply Hne, Hk. reflexivity.
Qed.

Lemma adapter_status (server : Server) (client : Client) (config : Config)
    (w w' : World) (error : JsError) :
  adapter server client config w = (Throw error, w') ->
  err_status error = wire_status (wire (server (sent w) client config)).
Proof.
  unfold adapter.
  destruct (wire (server (sent w) client config)) as [status body | code message];
    [destruct ((200 <=? status) && (status <? 300)) |];
    intros E; inversion E; reflexivity.
Qed.

Section NoUnauthorized.

Variable server : Server.
Hypothesis never_401 :
  forall n client request, wire_status (wire (server n client request)) <> Some 401.

Lemma api_localStorage (config : Config) (w : World) :
  localStorage (snd (api server config w)) = localStorage w.
Proof.
  rewrite api_run.
  destruct (adapter server ApiInstance (request_interceptor config w) w)
    as [[response | error |] w1] eqn:E;
    pose proof (adapter_trace _ _ _ _ _ _ E) as (_ & Hls & _);
    [exact Hls | | exact Hls].
  assert (err_status error <> Some 401) as Hne
    by (rewrite (adapter_status _ _ _ _ _ _ E); apply never_401).
  assert (refreshable error = false) as Hr.
  { unfold refreshable.
    destruct (match err_status error with Some 401 => true | _ => false end) eqn:H401;
      [| reflexivity].
    exfalso. apply Hne, status_is_401, H401. }
  rewrite Hr. unfold classified. cbn [snd].
  rewrite report_localStorage; assumption.
Qed.

Lemma apiWrapper_get_localStorage (url : string) (config : Config) (w : World) :
  localStorage (snd (apiWrapper_get server url config w)) = localStorage w.
Proof.
  unfold apiWrapper_get, getCachedData.
  assert (forall w0, localStorage w0 = localStorage w ->
                     localStorage
                       (snd ((let! response := api_get server url config in
                              (if (res_status response =? 200) && negb (skipCache config)
                               then act (setCachedData (cacheKey url config) (res_data response))
                               else ret tt) ;;
                              ret (res_data response)) w0)) = localStorage w) as Hnet.
  { intros w0 H0. unfold bind.
    pose proof (api_localStorage (with_request GET url (cfg_data config) config) w0) as Hapi.
    fold (api_get server url config w0) in Hapi.
    destruct (api_get server url config w0) as [[response | error |] w1];
      cbn [snd] in *; [| congruence | congruence].
    destruct ((res_status response =? 200) && negb (skipCache config));
      cbn [act ret snd]; [unfold setCachedData; cbn [localStorage set_cache] |];
      congruence. }
  destruct (negb (skipCache config)); [| apply Hnet; reflexivity].
  destruct (cache w !! cacheKey url config) as [cached |].
  - destruct (now w - timestamp cached <? CACHE_DURATION).
    + destruct (truthy (data cached)); [reflexivity | apply Hnet; reflexivity].
    + cbn [truthy]. apply Hnet. reflexivity.
  - cbn [truthy]. apply Hnet. reflexivity.
Qed.

Lemma apiWrapper_post_localStorage (url : string) (body : JsVal) (config : Config)
    (w : World) :
  localStorage (snd (apiWrapper_post server url body config w)) = localStorage w.
Proof.
  unfold apiWrapper_post, bind, retryRequest.
  pose proof (retry_loop_frame localStorage (api_post server url body config)
                (fun w0 => api_localStorage _ w0)
                (fun ms w0 => eq_refl)
                (Z.to_nat (default 3 (maxRetries config) - 0))
                (default 3 (maxRetries config)) (default 1000 None) 0 w) as Hframe.
  destruct (retry_loop _ _ _ _ _ w) as [[[r |] | e |] w']; exact Hframe.
Qed.

Lemma apiWrapper_put_localStorage (url : string) (body : JsVal) (config : Config)
    (w : World) :
  localStorage (snd (apiWrapper_put server url body config w)) = localStorage w.
Proof.
  unfold apiWrapper_put, bind.
  pose proof (api_localStorage (with_request PUT url body config) w) as Hapi.
  fold (api_put server url body config w) in Hapi.
  destruct (api_put server url body config w) as [[response | error |] w1];
    exact Hapi.
Qed.

Lemma apiWrapper_delete_localStorage (url : string) (config : Config) (w : World) :
  localStorage (snd (apiWrapper_delete server url config w)) = localStorage w.
Proof.
  unfold apiWrapper_delete, bind.
  pose proof (api_localStorage (with_request DELETE url (cfg_data config) config) w) as Hapi.
  fold (api_delete server url config w) in Hapi.
  destruct (api_delete server url config w) as [[response | error |] w1];
    exact Hapi.
Qed.

End NoUnauthorized.

Lemma refresh_writes_token (server : Server) (originalRequest request : Config)
    (w w' : World) :
  refresh server originalRequest w = (Ok (Some request), w') ->
  exists newToken,
    getItem "adminToken" w' = Some newToken
    /\ cfg_authorization request = Some ("Bearer " +:+ newToken).
Proof.
  rewrite refresh_unfold. unfold refresh_outcome.
  destruct (getItem "refreshToken" w) as [t |]; [| discriminate].
  destruct (String.eqb t ""); [discriminate |].
  destruct (adapter server GlobalAxios (refresh_request t) w) as [[response | e |] w1];
    [| discriminate | discriminate].
  destruct (res_data response); intros E; inversion E; subst;
    (eexists; split; [apply lookup_insert_eq | reflexivity]).
Qed.

Lemma handleAuthFailure_storage (w : World) :
  localStorage (handleAuthFailure w)
  = delete "refreshToken" (delete "adminUser" (delete "adminToken" (localStorage w))).
Proof. reflexivity. Qed.

Lemma refresh_storage (server : Server) (originalRequest : Config) (w : World) :
  match refresh server originalRequest w with
  | (Ok (Some request), w') =>
      exists stored,
        localStorage w' = <["adminToken" := stored]> (localStorage w)
        /\ cfg_authorization request = Some ("Bearer " +:+ stored)
  | (_, w') => localStorage w' = localStorage w
  end.
Proof.
  rewrite refresh_unfold. unfold refresh_outcome.
  destruct (getItem "refreshToken" w) as [t |]; [| reflexivity].
  destruct (String.eqb t ""); [reflexivity |].
  destruct (adapter server GlobalAxios (refresh_request t) w) as [[response | e |] w1] eqn:E;
    apply adapter_snd in E; subst w1; [| reflexivity | reflexivity].
  destruct (res_data response); try reflexivity; eexists; split; reflexivity.
Qed.

Lemma mark_retry_status (error : JsError) :
  err_status (mark_retry error) = err_status error.
Proof. destruct error as [c [r |] code m | m]; reflexivity. Qed.

Lemma classified_storage (error : JsError) (w : World) :
  (err_status error = Some 401 ->
   localStorage (snd (classified error w)) = localStorage (handleAuthFailure w))
  /\ (err_status error <> Some 401 ->
      localStorage (snd (classified error w)) = localStorage w).
Proof.
  split; intros Hs.
  - unfold classified. rewrite Hs. reflexivity.
  - unfold classified. cbn [snd]. apply report_localStorage. exact Hs.
Qed.

(** C9, as the code has it: [login] and [logout] write the token and user
    slots, and they are not the only ones.  The response interceptor of the
    client writes them on a 401: through [api], a first answer 401 to an
    unmarked request either stores the token the refresh end point handed out
    (and keeps it unless the re-issued request is answered 401 too) or ends in
    [handleAuthFailure], which removes both slots.  The rejection handler of
    [authApiClient] removes both slots on a 401, the one of the axios
    examples removes the token slot, and the examples' [authAPI.login] and
    [authAPI.logout] store and remove both.  While no answer is 401, a request
    through the instance or through [apiWrapper] leaves the persisted session
    as it was. *)
Theorem session_slots_written_by (server : Server) (url : string) (body : JsVal)
    (config : Config) (newToken userData : JsVal) (w : World) :
  ((forall n client request, wire_status (wire (server n client request)) <> Some 401) ->
   localStorage (snd (api server config w)) = localStorage w
   /\ localStorage (snd (apiWrapper_get server url config w)) = localStorage w
   /\ localStorage (snd (apiWrapper_post server url body config w)) = localStorage w
   /\ localStorage (snd (apiWrapper_put server url body config w)) = localStorage w
   /\ localStorage (snd (apiWrapper_delete server url config w)) = localStorage w)
  /\ (getItem "adminToken" (snd (login newToken userData w)) = Some (js_string newToken)
      /\ getItem "adminUser" (snd (login newToken userData w))
         = Some (hole (stringify userData)))
  /\ (getItem "adminToken" (snd (logout w)) = None
      /\ getItem "adminUser" (snd (logout w)) = None)
  /\ (getItem "adminToken" (handleAuthFailure w) = None
      /\ getItem "adminUser" (handleAuthFailure w) = None)
  /\ (forall request w',
         refresh server config w = (Ok (Some request), w') ->
         exists stored, getItem "adminToken" w' = Some stored
                        /\ cfg_authorization request = Some ("Bearer " +:+ stored))
  /\ (forall error w1,
         adapter server ApiInstance (request_interceptor config w) w = (Throw error, w1) ->
         err_status error = Some 401 ->
         cfg_retry config = false ->
         let original := with_retry (request_interceptor config w) in
         let final := snd (api server config w) in
         (forall request w2,
             refresh server original w1 = (Ok (Some request), w2) ->
             (exists stored,
                 localStorage w2 = <["adminToken" := stored]> (localStorage w)
                 /\ cfg_authorization request = Some ("Bearer " +:+ stored))
             /\ (forall error2 w3,
                    adapter server ApiInstance (request_interceptor request w2) w2
                    = (Throw error2, w3) ->
                    err_status error2 = Some 401 ->
                    localStorage final = localStorage (handleAuthFailure w2))
             /\ (forall outcome w3,
                    adapter server ApiInstance (request_interceptor request w2) w2
                    = (outcome, w3) ->
                    (forall error2, outcome = Throw error2 -> err_status error2 <> Some 401) ->
                    localStorage final = localStorage w2))
         /\ ((forall request w2, refresh server original w1 <> (Ok (Some request), w2)) ->
             localStorage final = localStorage (handleAuthFailure w)
             /\ getItem "adminToken" final = None
             /\ getItem "adminUser" final = None))
  /\ (forall error,
         (err_status error = Some 401 ->
          getItem "adminToken" (snd (authApiClient_on_rejected error w)) = None
          /\ getItem "adminUser" (snd (authApiClient_on_rejected error w)) = None)
         /\ (err_status error = Some 401 ->
             getItem "adminToken" (snd (examples_on_rejected error w)) = None
             /\ getItem "adminUser" (snd (examples_on_rejected error w))
                = getItem "adminUser" w)
         /\ (err_status error <> Some 401 ->
             localStorage (snd (authApiClient_on_rejected error w)) = localStorage w
             /\ localStorage (snd (examples_on_rejected error w)) = localStorage w))
  /\ (forall post credentials response w1,
         post w = (Ok response, w1) ->
         truthy (opt_prop (res_data response) "token") = true ->
         let signedIn := snd (examples_login post credentials w) in
         getItem "adminToken" signedIn
         = Some (js_string (opt_prop (res_data response) "token"))
         /\ (truthy (opt_prop (res_data response) "user") = true ->
             getItem "adminUser" signedIn
             = Some (hole (stringify (opt_prop (res_data response) "user"))))
         /\ (truthy (opt_prop (res_data response) "user") = false ->
             credentials <> JUndefined -> credentials <> JNull ->
             getItem "adminUser" signedIn
             = Some (hole (stringify
                             (JObj [("username", opt_prop credentials "username")])))))
  /\ (forall post,
         fst (post w) <> Exhausted ->
         getItem "adminToken" (snd (examples_logout post w)) = None
         /\ getItem "adminUser" (snd (examples_logout post w)) = None).
Proof.
  split; [| split; [| split; [| split; [| split; [| split; [| split; [| split]]]]]]].
  - intros Hnever.
    split; [apply api_localStorage; exact Hnever |].
    split; [apply apiWrapper_get_localStorage; exact Hnever |].
    split; [apply apiWrapper_post_localStorage; exact Hnever |].
    split; [apply apiWrapper_put_localStorage; exact Hnever |].
    apply apiWrapper_delete_localStorage; exact Hnever.
  - unfold login, getItem, setItem. cbn [snd localStorage set_localStorage].
    split; by simplify_map_eq.
  - unfold logout, getItem, removeItem. cbn [snd localStorage set_localStorage].
    split; by simplify_map_eq.
  - split; apply (handleAuthFailure_clears w).
  - intros request w'. apply refresh_writes_token.
  - intros error w1 E Hs Hm original final.
    pose proof (refreshable_first _ _ _ _ _ E Hs Hm) as Hr.
    pose proof (mark_retry_config _ _ _ _ _ _ E) as Hc. fold original in Hc.
    pose proof (adapter_trace _ _ _ _ _ _ E) as (_ & Els & _).
    pose proof (refresh_storage server original w1) as Rls.
    pose proof (refresh_settles server original w1) as Rs.
    assert (api server config w
            = match refresh server original w1 with
              | (Ok (Some request), w2) =>
                  match adapter server ApiInstance (request_interceptor request w2) w2 with
                  | (Throw error2, w3) => classified error2 w3
                  | settled => settled
                  end
              | (Ok None, w2) => classified (mark_retry error) w2
              | (Throw refreshError, w2) => (Throw refreshError, handleAuthFailure w2)
              | (Exhausted, w2) => (Exhausted, w2)
              end) as Hrun
      by (rewrite api_run, E, Hr, Hc; reflexivity).
    split.
    + intros request w2 R. rewrite R in Rls, Hrun.
      split; [destruct Rls as (stored & H1 & H2); exists stored; rewrite H1, Els; auto |].
      split.
      * intros error2 w3 E2 Hs2. subst final. rewrite Hrun, E2.
        rewrite (proj1 (classified_storage error2 w3) Hs2).
        apply adapter_trace in E2. destruct E2 as (_ & E2ls & _).
        rewrite !handleAuthFailure_storage, E2ls. reflexivity.
      * intros outcome w3 E2 Hnot. subst final. rewrite Hrun, E2.
        pose proof (adapter_trace _ _ _ _ _ _ E2) as (_ & E2ls & _).
        destruct outcome as [response2 | error2 |]; cbn [snd]; try exact E2ls.
        rewrite (proj2 (classified_storage error2 w3) (Hnot error2 eq_refl)).
        exact E2ls.
    + intros Hnone.
      assert (localStorage final = localStorage (handleAuthFailure w)) as Hfinal.
      { subst final. rewrite Hrun.
        destruct (refresh server original w1) as [[[request |] | e |] w2] eqn:R.
        - exfalso. exact (Hnone request w2 eq_refl).
        - rewrite (proj1 (classified_storage (mark_retry error) w2));
            [| rewrite mark_retry_status; exact Hs].
          rewrite !handleAuthFailure_storage, Rls, Els. reflexivity.
        - cbn [snd]. rewrite !handleAuthFailure_storage, Rls, Els. reflexivity.
        - exfalso. apply Rs. reflexivity. }
      split; [exact Hfinal |].
      unfold getItem. rewrite Hfinal. split; apply (handleAuthFailure_clears w).
  - intros error. split; [| split].
    + intros Hs. unfold authApiClient_on_rejected. rewrite Hs.
      unfold getItem, removeItem.
      cbn [snd localStorage set_localStorage set_location_href].
      split; by simplify_map_eq.
    + intros Hs. unfold examples_on_rejected, bind, act, throw. rewrite Hs.
      unfold getItem, removeItem.
      cbn [snd localStorage set_localStorage set_location_href].
      split; by simplify_map_eq.
    + intros Hs. unfold authApiClient_on_rejected, examples_on_rejected, bind, act, throw, ret.
      destruct (err_status error) as [status |]; [| split; reflexivity].
      assert (status <> 401) as Hne by congruence.
      repeat match goal with
             | |- context [match ?x with _ => _ end] => is_var x; destruct x
             end; try (split; reflexivity); congruence.
  - intros post credentials response w1 Hpost Htoken signedIn. subst signedIn.
    unfold examples_login, try_catch, bind. rewrite Hpost.
    destruct (res_data response) as [| | b | n | t | items | props] eqn:Hdata;
      try discriminate Htoken.
    cbn [get_prop ret]. rewrite Htoken. cbn [act opt_prop] in *.
    destruct (truthy (assoc "user" props)) eqn:Huser.
    + cbn [ret act snd]. unfold getItem, setItem. cbn [localStorage set_localStorage].
      split; [| split; [intros _ | discriminate]]; by simplify_map_eq.
    + split; [| split; [discriminate |]].
      * destruct credentials; cbn [get_prop throw ret act snd];
          unfold getItem, setItem; cbn [localStorage set_localStorage];
          by simplify_map_eq.
      * intros _ Hu Hn.
        destruct credentials; try congruence; cbn [get_prop throw ret act snd];
          unfold getItem, setItem; cbn [localStorage set_localStorage];
          by simplify_map_eq.
  - intros post Hsettles. unfold examples_logout, try_catch, bind, act.
    destruct (post w) as [[response | error |] w1]; cbn [fst] in Hsettles;
      [| | congruence];
      unfold getItem, removeItem; cbn [snd localStorage set_localStorage];
      split; by simplify_map_eq.
Qed.

Lemma session_slots_written_by_witness :
  let quiet := Scenario.always 200 Scenario.books in
  let config := with_request GET "/books" JUndefined empty_config in
  let first := adapter Scenario.renewing ApiInstance
                 (request_interceptor config Scenario.renewable) Scenario.renewable in
  let post : M Response := adapter quiet GlobalAxios (refresh_request "r1") in
  (forall n client request, wire_status (wire (quiet n client request)) <> Some 401)
  /\ localStorage (snd (apiWrapper_put quiet "/books/1" Scenario.books empty_config
                          Scenario.renewable))
     = localStorage Scenario.renewable
  /\ getItem "adminToken" (snd (login (JStr "t1") (JObj [("username", JStr "admin")])
                                  Scenario.start)) = Some "t1"
  /\ (exists error, first = (Throw error, snd first) /\ err_status error = Some 401)
  /\ cfg_retry config = false
  /\ getItem "adminToken" (snd (api Scenario.renewing config Scenario.renewable))
     = Some "t2"
  /\ fst (post Scenario.start) <> Exhausted
  /\ getItem "adminToken" (snd (examples_logout post Scenario.start)) = None.
Proof.
  intros quiet config first post.
  assert (forall n client request, wire_status (wire (quiet n client request)) <> Some 401)
    as Hnever by (intros n client request; discriminate).
  split; [exact Hnever |].
  destruct (session_slots_written_by quiet "/books/1" Scenario.books empty_config
              (JStr "t1") (JObj [("username", JStr "admin")]) Scenario.renewable)
    as (Hframe & _).
  destruct (Hframe Hnever) as (_ & _ & _ & Hput & _).
  split; [exact Hput |].
  destruct (session_slots_written_by quiet "/books/1" Scenario.books empty_config
              (JStr "t1") (JObj [("username", JStr "admin")]) Scenario.start)
    as (_ & (Hlogin & _) & _ & _ & _ & _ & _ & _ & Hlogout).
  split; [exact Hlogin |].
  split; [eexists; split; reflexivity |]. split; [reflexivity |].
  destruct (session_slots_written_by Scenario.renewing "/books" JUndefined config
              JNull JNull Scenario.renewable)
    as (_ & _ & _ & _ & _ & Hwrites & _).
  edestruct (Hwrites _ (snd first) eq_refl eq_refl eq_refl) as (Hrefreshed & _).
  edestruct (Hrefreshed _ _ eq_refl) as (_ & _ & Hkept).
  split.
  { unfold getItem. erewrite (Hkept _ _ eq_refl); [reflexivity | discriminate]. }
  assert (fst (post Scenario.start) <> Exhausted) as Hsettles by discriminate.
  split; [exact Hsettles |].
  exact (proj1 (Hlogout post Hsettles)).
Defined.

(** C9, as stated, fails: a plain [GET /books] rewrites the token slot when
    the refresh succeeds, and empties the token and user slots when the
    answer is 401 and no refresh token is stored; neither is [login] or
    [logout]. *)
Lemma session_slots_counterexample :
  let config := with_request GET "/books" JUndefined empty_config in
  let renewed := snd (api Scenario.renewing config Scenario.renewable) in
  let dropped := snd (api (Scenario.expired (HttpReply 200 JNull)) config Scenario.start) in
  (getItem "adminToken" Scenario.renewable = Some "t1"
   /\ getItem "adminToken" renewed = Some "t2")
  /\ (getItem "adminToken" Scenario.start = Some "t1"
      /\ getItem "adminUser" Scenario.start = Some "{}"
      /\ getItem "adminToken" dropped = None
      /\ getItem "adminUser" dropped = None).
Proof. repeat split. Qed.

(** * Further properties of the client *)

(** ** What the handlers leave alone *)

Lemma adapter_frame (server : Server) (client : Client) (config : Config)
    (w w' : World) (r : Result Response) :
  adapter server client config w = (r, w') ->
  cache w' = cache w
  /\ localStorage w' = localStorage w
  /\ location_href w' = location_href w.
Proof. intros E. apply adapter_snd in E. subst w'. repeat split. Qed.

Lemma refresh_frame (server : Server) (originalRequest : Config) (w : World) :
  location_href (snd (refresh server originalRequest w)) = location_href w
  /\ forall key, key <> "adminToken" ->
                 getItem key (snd (refresh server originalRequest w)) = getItem key w.
Proof.
  rewrite refresh_unfold. unfold refresh_outcome.
  destruct (getItem "refreshToken" w) as [t |]; [| split; reflexivity].
  destruct (String.eqb t ""); [split; reflexivity |].
  destruct (adapter server GlobalAxios (refresh_request t) w) as [[response | e |] w1] eqn:E;
    apply adapter_snd in E; subst w1; [| split; reflexivity | split; reflexivity].
  destruct (res_data response); (split; [reflexivity |]); intros key Hkey;
    try reflexivity;
    unfold getItem, setItem; cbn [snd localStorage set_localStorage advance count_sent emit];
    apply lookup_insert_ne; congruence.
Qed.

Lemma classified_status (error : JsError) (w : World) :
  err_status error = Some 401 ->
  classified error w
  = (Throw error, handleAuthFailure (toast_error "Session expired. Please login again." w)).
Proof. intros Hs. unfold classified. rewrite Hs. reflexivity. Qed.

(** ** Bounded traffic *)

(** X1: whatever the request and whatever the service answers, one call of
    the instance puts one or two requests of its own on the wire, at most one
    refresh call, and shows at most one toast: the interceptor never loops. *)
Theorem api_traffic_bounded (server : Server) (config : Config) (w : World) :
  let evs := since w (snd (api server config w)) in
  (1 <= count is_request evs <= 2)%nat
  /\ (count is_refresh evs <= 1)%nat
  /\ (length (toasts evs) <= 1)%nat
  /\ head evs = Some (Sent ApiInstance (request_interceptor config w)).
Proof.
  intros evs. subst evs. rewrite api_run.
  destruct (adapter server ApiInstance (request_interceptor config w) w)
    as [[response | error |] w1] eqn:E;
    pose proof (adapter_trace _ _ _ _ _ _ E) as (Et & _ & _); cbn [snd].
  - rewrite (since_app w w1 _ Et). repeat split; cbn; lia.
  - destruct (refreshable error).
    + pose proof (refresh_trace server (err_config (mark_retry error)) w1) as Rt.
      pose proof (count_refresh_events w1) as Hcount.
      pose proof (refresh_events_plain w1) as (_ & Hreq & Hplain).
      assert (count is_refresh (refresh_events w1) <= 1)%nat as Hle
        by (rewrite Hcount; destruct (present _); lia).
      assert (forall tail,
                 (count is_request tail <= 1)%nat ->
                 count is_refresh tail = 0%nat ->
                 (length (toasts tail) <= 1)%nat ->
                 let evs := Sent ApiInstance (request_interceptor config w)
                            :: refresh_events w1 ++ tail in
                 (1 <= count is_request evs <= 2)%nat
                 /\ (count is_refresh evs <= 1)%nat
                 /\ (length (toasts evs) <= 1)%nat
                 /\ head evs = Some (Sent ApiInstance (request_interceptor config w)))
        as Hshape.
      { intros tail H1 H2 H3 evs. subst evs.
        change (?x :: ?l ++ ?t) with ([x] ++ l ++ t).
        rewrite !count_app, !toasts_app, !length_app, Hreq, Hplain, H2.
        cbn. repeat split; lia. }
      destruct (refresh server (err_config (mark_retry error)) w1)
        as [[[request |] | refreshError |] w2]; cbn [snd] in Rt.
      * destruct (adapter server ApiInstance (request_interceptor request w2) w2)
          as [[response2 | error2 |] w3] eqn:E2;
          pose proof (adapter_trace _ _ _ _ _ _ E2) as (E2t & _ & _); cbn [snd].
        -- rewrite (since_app w w3 (Sent ApiInstance (request_interceptor config w)
                                     :: refresh_events w1
                                     ++ [Sent ApiInstance (request_interceptor request w2)])).
           ++ apply Hshape; cbn; lia.
           ++ cbn [snd]. rewrite E2t, Rt, Et, <- !app_assoc. reflexivity.
        -- erewrite (since_app w _ (Sent ApiInstance (request_interceptor config w)
                                    :: refresh_events w1
                                    ++ [Sent ApiInstance (request_interceptor request w2);
                                        Toast _])).
           ++ apply Hshape; cbn; lia.
           ++ rewrite classified_world, E2t, Rt, Et, <- !app_assoc. reflexivity.
        -- rewrite (since_app w w3 (Sent ApiInstance (request_interceptor config w)
                                     :: refresh_events w1
                                     ++ [Sent ApiInstance (request_interceptor request w2)])).
           ++ apply Hshape; cbn; lia.
           ++ cbn [snd]. rewrite E2t, Rt, Et, <- !app_assoc. reflexivity.
      * erewrite (since_app w _ (Sent ApiInstance (request_interceptor config w)
                                  :: refresh_events w1 ++ [Toast _])).
        -- apply Hshape; cbn; lia.
        -- rewrite classified_world, Rt, Et, <- !app_assoc. reflexivity.
      * rewrite (since_app w _ (Sent ApiInstance (request_interceptor config w)
                                 :: refresh_events w1 ++ [])).
        -- apply Hshape; cbn; lia.
        -- cbn [snd]. rewrite handleAuthFailure_trace, Rt, Et, <- !app_assoc, app_nil_r.
           reflexivity.
      * rewrite (since_app w _ (Sent ApiInstance (request_interceptor config w)
                                 :: refresh_events w1 ++ [])).
        -- apply Hshape; cbn; lia.
        -- cbn [snd]. rewrite Rt, Et, <- !app_assoc, app_nil_r. reflexivity.
    + erewrite (since_app w _ [Sent ApiInstance (request_interceptor config w); Toast _]).
      * repeat split; cbn; lia.
      * rewrite classified_world, Et, <- !app_assoc. reflexivity.
  - rewrite (since_app w w1 _ Et). repeat split; cbn; lia.
Qed.

(** ** Success and rejection *)

(** X2: a call that succeeds is silent, also when it succeeded only after a
    refresh: the response has a 2xx status, no toast is shown, the page stays
    where it is, and of the stored session only the token may have changed. *)
Theorem api_success_is_silent (server : Server) (config : Config) (w w' : World)
    (response : Response) :
  api server config w = (Ok response, w') ->
  200 <= res_status response < 300
  /\ toasts (since w w') = []
  /\ location_href w' = location_href w
  /\ cache w' = cache w
  /\ forall key, key <> "adminToken" -> getItem key w' = getItem key w.
Proof.
  intros Hrun. rewrite api_run in Hrun.
  assert (forall c w0 r w1, adapter server ApiInstance c w0 = (Ok r, w1) ->
                            200 <= res_status r < 300) as Hok.
  { intros c w0 r w1. unfold adapter.
    destruct (wire (server (sent w0) ApiInstance c)) as [status body | code message];
      [| discriminate].
    destruct ((200 <=? status) && (status <? 300)) eqn:Hrange; [| discriminate].
    intros H. inversion H; subst. cbn [res_status]. lia. }
  destruct (adapter server ApiInstance (request_interceptor config w) w)
    as [[response1 | error |] w1] eqn:E; [| | discriminate];
    pose proof (adapter_trace _ _ _ _ _ _ E) as (Et & _ & _);
    pose proof (adapter_frame _ _ _ _ _ _ E) as (Ec & Els & Eh).
  - inversion Hrun; subst.
    split; [exact (Hok _ _ _ _ E) |].
    split; [rewrite (since_app w w' _ Et); reflexivity |].
    split; [exact Eh |]. split; [exact Ec |].
    intros key _. unfold getItem. rewrite Els. reflexivity.
  - destruct (refreshable error); [| discriminate].
    pose proof (refresh_trace server (err_config (mark_retry error)) w1) as Rt.
    pose proof (refresh_frame server (err_config (mark_retry error)) w1) as (Rh & Rls).
    pose proof (refresh_cache server (err_config (mark_retry error)) w1) as Rc.
    pose proof (refresh_events_plain w1) as (_ & _ & Hplain).
    destruct (refresh server (err_config (mark_retry error)) w1)
      as [[[request |] | refreshError |] w2]; cbn [snd] in *; try discriminate.
    destruct (adapter server ApiInstance (request_interceptor request w2) w2)
      as [[response2 | error2 |] w3] eqn:E2; try discriminate.
    pose proof (adapter_trace _ _ _ _ _ _ E2) as (E2t & _ & _).
    pose proof (adapter_frame _ _ _ _ _ _ E2) as (E2c & E2ls & E2h).
    inversion Hrun; subst.
    split; [exact (Hok _ _ _ _ E2) |].
    split.
    { rewrite (since_app w w' (Sent ApiInstance (request_interceptor config w)
                                :: refresh_events w1
                                ++ [Sent ApiInstance (request_interceptor request w2)])).
      - change (?x :: ?l ++ ?t) with ([x] ++ l ++ t).
        rewrite !toasts_app, Hplain. reflexivity.
      - rewrite E2t, Rt, Et, <- !app_assoc. reflexivity. }
    split; [congruence |]. split; [congruence |].
    intros key Hkey. unfold getItem in *. rewrite E2ls, (Rls key Hkey), Els.
    reflexivity.
Qed.

(** X3: whenever a call of the instance is rejected with an error whose HTTP
    status is 401, the stored session is gone (token, user and refresh token
    removed) and the page points at the login route. *)
Theorem api_rejected_401_ends_session (server : Server) (config : Config)
    (w w' : World) (e : JsError) :
  api server config w = (Throw e, w') ->
  err_status e = Some 401 ->
  getItem "adminToken" w' = None
  /\ getItem "adminUser" w' = None
  /\ getItem "refreshToken" w' = None
  /\ location_href w' = "/login".
Proof.
  intros Hrun Hs. rewrite api_run in Hrun.
  assert (forall error w0, classified error w0 = (Throw e, w') ->
                           exists w1, w' = handleAuthFailure w1) as Hclass.
  { intros error w0 H.
    assert (error = e) as -> by (unfold classified in H; congruence).
    rewrite (classified_status e w0 Hs) in H. inversion H. eauto. }
  assert (exists w1, w' = handleAuthFailure w1) as (w1 & ->);
    [| apply handleAuthFailure_clears].
  destruct (adapter server ApiInstance (request_interceptor config w) w)
    as [[response1 | error |] w1]; try discriminate.
  destruct (refreshable error); [| exact (Hclass _ _ Hrun)].
  destruct (refresh server (err_config (mark_retry error)) w1)
    as [[[request |] | refreshError |] w2]; try discriminate.
  - destruct (adapter server ApiInstance (request_interceptor request w2) w2)
      as [[response2 | error2 |] w3]; try discriminate.
    exact (Hclass _ _ Hrun).
  - exact (Hclass _ _ Hrun).
  - inversion Hrun. eauto.
Qed.

(** X4: a request that already carries the retry marker is never refreshed:
    one request goes out, no refresh call is made whatever the answer, and a
    rejection is classified at once. *)
Theorem marked_request_never_refreshes (server : Server) (config : Config)
    (w : World) :
  cfg_retry config = true ->
  let evs := since w (snd (api server config w)) in
  count is_request evs = 1%nat
  /\ count is_refresh evs = 0%nat
  /\ api server config w
     = match adapter server ApiInstance (request_interceptor config w) w with
       | (Throw error, w1) => classified error w1
       | settled => settled
       end.
Proof.
  intros Hm evs.
  assert (api server config w
          = match adapter server ApiInstance (request_interceptor config w) w with
            | (Throw error, w1) => classified error w1
            | settled => settled
            end) as Hrun.
  { unfold api. rewrite (proj1 (api_call_marked 1 server config w Hm)).
    apply api_call_marked_run. exact Hm. }
  split; [| split; [| exact Hrun]]; subst evs; rewrite Hrun;
    destruct (adapter server ApiInstance (request_interceptor config w) w)
      as [[response | error |] w1] eqn:E;
    pose proof (adapter_trace _ _ _ _ _ _ E) as (Et & _ & _); cbn [snd];
    try (rewrite (since_app w w1 _ Et); reflexivity);
    (erewrite (since_app w _ [Sent ApiInstance (request_interceptor config w); Toast _]);
     [reflexivity | rewrite classified_world, Et, <- !app_assoc; reflexivity]).
Qed.

Lemma marked_request_never_refreshes_witness :
  let config := with_retry (with_request GET "/books" JUndefined empty_config) in
  let server := Scenario.expired (HttpReply 200 (JObj [("token", JStr "t2")])) in
  let run := api server config Scenario.renewable in
  cfg_retry config = true
  /\ count is_refresh (since Scenario.renewable (snd run)) = 0%nat
  /\ (exists e, fst run = Throw e /\ err_status e = Some 401).
Proof.
  intros config server run.
  split; [reflexivity |].
  destruct (marked_request_never_refreshes server config Scenario.renewable eq_refl)
    as (_ & Hnone & Hrun).
  split; [exact Hnone |].
  subst run. rewrite Hrun. eexists. split; reflexivity.
Defined.

Lemma delete_thrice_again (m : gmap string string) (a b c : string) :
  delete c (delete b (delete a (delete c (delete b (delete a m)))))
  = delete c (delete b (delete a m)).
Proof.
  apply map_eq. intros key. rewrite !lookup_delete. repeat case_decide; reflexivity.
Qed.

Lemma world_eq (w1 w2 : World) :
  cache w1 = cache w2 -> localStorage w1 = localStorage w2 ->
  location_href w1 = location_href w2 -> now w1 = now w2 -> sent w1 = sent w2 ->
  trace w1 = trace w2 -> w1 = w2.
Proof.
  destruct w1, w2. cbn. intros -> -> -> -> -> ->. reflexivity.
Qed.

Lemma removeItem_other (key other : string) (w : World) :
  other <> key -> getItem other (removeItem key w) = getItem other w.
Proof.
  intros Hne. unfold getItem, removeItem. cbn [localStorage set_localStorage].
  apply lookup_delete_ne. congruence.
Qed.

(** X5: [handleAuthFailure] is idempotent, removes nothing but the three
    session keys and leaves the cache alone. *)
Theorem handleAuthFailure_idempotent_frame (w : World) :
  handleAuthFailure (handleAuthFailure w) = handleAuthFailure w
  /\ cache (handleAuthFailure w) = cache w
  /\ trace (handleAuthFailure w) = trace w
  /\ forall key, key <> "adminToken" -> key <> "adminUser" -> key <> "refreshToken" ->
                 getItem key (handleAuthFailure w) = getItem key w.
Proof.
  split; [| split; [reflexivity | split; [reflexivity |]]].
  - apply world_eq; try reflexivity.
    rewrite !handleAuthFailure_storage. apply delete_thrice_again.
  - intros key H1 H2 H3.
    change (getItem key (handleAuthFailure w))
      with (getItem key (removeItem "refreshToken"
                           (removeItem "adminUser" (removeItem "adminToken" w)))).
    rewrite !removeItem_other by assumption. reflexivity.
Qed.

(** ** The refreshed retry *)

Lemma request_interceptor_fields (config : Config) (w : World) :
  cfg_method (request_interceptor config w) = cfg_method config
  /\ cfg_url (request_interceptor config w) = cfg_url config
  /\ cfg_data (request_interceptor config w) = cfg_data config
  /\ cfg_params (request_interceptor config w) = cfg_params config.
Proof.
  unfold request_interceptor.
  destruct (getItem "adminToken" w) as [t |]; [destruct (present (Some t)) |];
    repeat split.
Qed.

Lemma request_interceptor_bearer (config : Config) (w : World) (t : string) :
  getItem "adminToken" w = Some t ->
  t <> "" ->
  cfg_authorization (request_interceptor config w) = Some ("Bearer " +:+ t).
Proof.
  intros Ht Hne. unfold request_interceptor. rewrite Ht. unfold present.
  apply String.eqb_neq in Hne. rewrite Hne. reflexivity.
Qed.

(** The request that goes out again once the refresh end point has answered
    [body]: the original one, marked, with the new token. *)
Lemma request_interceptor_refreshed (config : Config) (w : World) (newToken : string) :
  cfg_authorization
    (request_interceptor (with_authorization ("Bearer " +:+ newToken) config)
       (setItem "adminToken" newToken w))
  = Some ("Bearer " +:+ newToken).
Proof.
  unfold request_interceptor, getItem, setItem.
  cbn [localStorage set_localStorage]. rewrite lookup_insert_eq. unfold present.
  destruct (String.eqb newToken ""); reflexivity.
Qed.

Lemma refresh_success_run (server : Server) (config : Config) (w w1 w2 : World)
    (error : JsError) (t : string) (response : Response) :
  adapter server ApiInstance (request_interceptor config w) w = (Throw error, w1) ->
  err_status error = Some 401 ->
  cfg_retry config = false ->
  getItem "refreshToken" w1 = Some t ->
  t <> "" ->
  adapter server GlobalAxios (refresh_request t) w1 = (Ok response, w2) ->
  api server config w
  = match res_data response with
    | JUndefined =>
        (Throw (TypeError "Cannot read properties of undefined (reading 'token')"),
         handleAuthFailure w2)
    | JNull =>
        (Throw (TypeError "Cannot read properties of null (reading 'token')"),
         handleAuthFailure w2)
    | body =>
        let newToken := js_string (opt_prop body "token") in
        let w3 := setItem "adminToken" newToken w2 in
        let request := with_authorization ("Bearer " +:+ newToken)
                         (with_retry (request_interceptor config w)) in
        match adapter server ApiInstance (request_interceptor request w3) w3 with
        | (Throw error2, w4) => classified error2 w4
        | settled => settled
        end
    end.
Proof.
  intros E Hs Hm Htok Hne R.
  rewrite api_run, E, (refreshable_first _ _ _ _ _ E Hs Hm).
  rewrite (mark_retry_config _ _ _ _ _ _ E).
  rewrite refresh_unfold. unfold refresh_outcome. rewrite Htok.
  apply String.eqb_neq in Hne. rewrite Hne, R.
  destruct (res_data response); reflexivity.
Qed.

(** X6: when the first answer is 401 and the refresh end point answers 2xx
    with a body, the token read from that body is stored, and the request
    that goes out again is the original one (same method, url, body and
    query) with the retry marker and [Authorization: Bearer <new token>]; if
    it is answered 2xx the caller gets that response and the new token stays
    stored. *)
Theorem refreshed_retry_carries_new_token (server : Server) (config : Config)
    (w w1 w2 : World) (error : JsError) (t : string) (response : Response) :
  adapter server ApiInstance (request_interceptor config w) w = (Throw error, w1) ->
  err_status error = Some 401 ->
  cfg_retry config = false ->
  getItem "refreshToken" w1 = Some t ->
  t <> "" ->
  adapter server GlobalAxios (refresh_request t) w1 = (Ok response, w2) ->
  res_data response <> JUndefined ->
  res_data response <> JNull ->
  let newToken := js_string (opt_prop (res_data response) "token") in
  let w3 := setItem "adminToken" newToken w2 in
  let again :=
    request_interceptor
      (with_authorization ("Bearer " +:+ newToken)
         (with_retry (request_interceptor config w))) w3 in
  getItem "adminToken" w3 = Some newToken
  /\ cfg_authorization again = Some ("Bearer " +:+ newToken)
  /\ cfg_retry again = true
  /\ (cfg_method again = cfg_method config /\ cfg_url again = cfg_url config
      /\ cfg_data again = cfg_data config /\ cfg_params again = cfg_params config)
  /\ api server config w
     = match adapter server ApiInstance again w3 with
       | (Throw error2, w4) => classified error2 w4
       | settled => settled
       end
  /\ (forall answer w4,
         adapter server ApiInstance again w3 = (Ok answer, w4) ->
         api server config w = (Ok answer, w4)
         /\ getItem "adminToken" w4 = Some newToken).
Proof.
  intros E Hs Hm Htok Hne R Hu Hn newToken w3 again.
  assert (getItem "adminToken" w3 = Some newToken) as Hstored
    by (unfold w3, getItem, setItem; cbn [localStorage set_localStorage];
        apply lookup_insert_eq).
  assert (api server config w
          = match adapter server ApiInstance again w3 with
            | (Throw error2, w4) => classified error2 w4
            | settled => settled
            end) as Hrun.
  { rewrite (refresh_success_run _ _ _ _ _ _ _ _ E Hs Hm Htok Hne R).
    subst again w3 newToken.
    destruct (res_data response) eqn:Hb; try congruence; reflexivity. }
  split; [exact Hstored |].
  split; [apply request_interceptor_refreshed |].
  split; [unfold again; rewrite request_interceptor_retry; reflexivity |].
  split.
  { pose proof (request_interceptor_fields
                  (with_authorization ("Bearer " +:+ newToken)
                     (with_retry (request_interceptor config w))) w3)
      as (H1 & H2 & H3 & H4).
    pose proof (request_interceptor_fields config w) as (G1 & G2 & G3 & G4).
    unfold again. rewrite H1, H2, H3, H4. cbn [cfg_method cfg_url cfg_data cfg_params
      with_authorization with_retry]. auto. }
  split; [exact Hrun |].
  intros answer w4 E2. rewrite Hrun, E2. split; [reflexivity |].
  apply adapter_frame in E2. destruct E2 as (_ & Els & _).
  unfold getItem in *. rewrite Els. exact Hstored.
Qed.

Lemma refreshed_retry_carries_new_token_witness :
  let config := with_request GET "/books" JUndefined empty_config in
  let first := adapter Scenario.renewing ApiInstance
                 (request_interceptor config Scenario.renewable) Scenario.renewable in
  let second := adapter Scenario.renewing GlobalAxios (refresh_request "r1") (snd first) in
  (exists error, first = (Throw error, snd first) /\ err_status error = Some 401)
  /\ cfg_retry config = false
  /\ getItem "refreshToken" (snd first) = Some "r1"
  /\ "r1" <> ""
  /\ (exists response, second = (Ok response, snd second)
                       /\ res_data response <> JUndefined
                       /\ res_data response <> JNull)
  /\ (exists answer,
        fst (api Scenario.renewing config Scenario.renewable) = Ok answer
        /\ cfg_authorization (res_config answer) = Some "Bearer t2")
  /\ getItem "adminToken" (snd (api Scenario.renewing config Scenario.renewable))
     = Some "t2".
Proof.
  intros config first second.
  assert ("r1" <> "") as Hne by discriminate.
  split; [eexists; split; reflexivity |]. split; [reflexivity |].
  split; [reflexivity |]. split; [exact Hne |].
  split; [eexists; split; [reflexivity | split; discriminate] |].
  edestruct (refreshed_retry_carries_new_token Scenario.renewing config
               Scenario.renewable (snd first) (snd second) _ "r1" _
               eq_refl eq_refl eq_refl eq_refl Hne eq_refl)
    as (_ & _ & _ & _ & _ & Hok); [discriminate | discriminate |].
  edestruct (Hok _ _ eq_refl) as (Hrun & Hstored).
  split; [eexists; rewrite Hrun; split; reflexivity |].
  rewrite Hrun. exact Hstored.
Defined.

(** X7: when the refresh end point answers 2xx with the JSON value [null]
    as its body, reading the token throws a [TypeError]: the request is not
    sent again, the session is cleared, the page points at the login route
    and the caller is rejected with the [TypeError].  (An answer with no body
    at all reaches the handler as the empty string, not as [null]: it has no
    [token] property and is the case of X8.) *)
Theorem refresh_null_body_ends_session (server : Server) (config : Config)
    (w w1 w2 : World) (error : JsError) (t : string) (response : Response) :
  adapter server ApiInstance (request_interceptor config w) w = (Throw error, w1) ->
  err_status error = Some 401 ->
  cfg_retry config = false ->
  getItem "refreshToken" w1 = Some t ->
  t <> "" ->
  adapter server GlobalAxios (refresh_request t) w1 = (Ok response, w2) ->
  res_data response = JNull ->
  api server config w
  = (Throw (TypeError "Cannot read properties of null (reading 'token')"),
     handleAuthFailure w2)
  /\ since w (snd (api server config w))
     = [Sent ApiInstance (request_interceptor config w);
        Sent GlobalAxios (refresh_request t)]
  /\ getItem "adminToken" (snd (api server config w)) = None
  /\ getItem "adminUser" (snd (api server config w)) = None
  /\ getItem "refreshToken" (snd (api server config w)) = None
  /\ location_href (snd (api server config w)) = "/login".
Proof.
  intros E Hs Hm Htok Hne R Hbody.
  pose proof (refresh_success_run _ _ _ _ _ _ _ _ E Hs Hm Htok Hne R) as Hrun.
  rewrite Hbody in Hrun.
  split; [exact Hrun |]. rewrite Hrun. cbn [snd].
  split; [| apply (handleAuthFailure_clears w2)].
  pose proof (adapter_trace _ _ _ _ _ _ E) as (Et & _ & _).
  pose proof (adapter_trace _ _ _ _ _ _ R) as (Rt & _ & _).
  apply since_app.
  rewrite handleAuthFailure_trace, Rt, Et, <- app_assoc. reflexivity.
Qed.

Lemma refresh_null_body_ends_session_witness :
  let server := Scenario.expired (HttpReply 200 JNull) in
  let config := with_request GET "/books" JUndefined empty_config in
  let first := adapter server ApiInstance (request_interceptor config Scenario.renewable)
                 Scenario.renewable in
  let second := adapter server GlobalAxios (refresh_request "r1") (snd first) in
  (exists error, first = (Throw error, snd first) /\ err_status error = Some 401)
  /\ cfg_retry config = false
  /\ getItem "refreshToken" (snd first) = Some "r1"
  /\ "r1" <> ""
  /\ (exists response, second = (Ok response, snd second)
                       /\ res_data response = JNull)
  /\ fst (api server config Scenario.renewable)
     = Throw (TypeError "Cannot read properties of null (reading 'token')")
  /\ getItem "adminToken" (snd (api server config Scenario.renewable)) = None.
Proof.
  intros server config first second.
  assert ("r1" <> "") as Hne by discriminate.
  split; [eexists; split; reflexivity |]. split; [reflexivity |].
  split; [reflexivity |]. split; [exact Hne |].
  split; [eexists; split; reflexivity |].
  edestruct (refresh_null_body_ends_session server config Scenario.renewable
               (snd first) (snd second) _ "r1" _
               eq_refl eq_refl eq_refl eq_refl Hne eq_refl eq_refl)
    as (Hrun & _ & Hgone & _).
  split; [rewrite Hrun; reflexivity | exact Hgone].
Defined.

(** X8: when the body the refresh end point answers has no [token] property,
    the text [undefined] is stored as the token and the request goes out
    again with [Authorization: Bearer undefined]. *)
Theorem refresh_without_token_stores_undefined (server : Server) (config : Config)
    (w w1 w2 : World) (error : JsError) (t : string) (response : Response) :
  adapter server ApiInstance (request_interceptor config w) w = (Throw error, w1) ->
  err_status error = Some 401 ->
  cfg_retry config = false ->
  getItem "refreshToken" w1 = Some t ->
  t <> "" ->
  adapter server GlobalAxios (refresh_request t) w1 = (Ok response, w2) ->
  res_data response <> JUndefined ->
  res_data response <> JNull ->
  opt_prop (res_data response) "token" = JUndefined ->
  exists again w3,
    getItem "adminToken" w3 = Some "undefined"
    /\ cfg_authorization again = Some "Bearer undefined"
    /\ cfg_retry again = true
    /\ api server config w
       = match adapter server ApiInstance again w3 with
         | (Throw error2, w4) => classified error2 w4
         | settled => settled
         end.
Proof.
  intros E Hs Hm Htok Hne R Hu Hn Hmissing.
  pose proof (refresh_success_run _ _ _ _ _ _ _ _ E Hs Hm Htok Hne R) as Hrun.
  exists (request_interceptor
            (with_authorization "Bearer undefined"
               (with_retry (request_interceptor config w)))
            (setItem "adminToken" "undefined" w2)),
         (setItem "adminToken" "undefined" w2).
  split; [unfold getItem, setItem; cbn [localStorage set_localStorage];
          apply lookup_insert_eq |].
  split; [exact (request_interceptor_refreshed _ w2 "undefined") |].
  split; [rewrite request_interceptor_retry; reflexivity |].
  rewrite Hrun. revert Hu Hn Hmissing.
  destruct (res_data response); intros Hu Hn Hmissing; try congruence;
    cbv zeta; rewrite Hmissing; reflexivity.
Qed.

Lemma refresh_without_token_stores_undefined_witness :
  let server := Scenario.expired (HttpReply 200 (JObj [("accessToken", JStr "t2")])) in
  let config := with_request GET "/books" JUndefined empty_config in
  let first := adapter server ApiInstance (request_interceptor config Scenario.renewable)
                 Scenario.renewable in
  let second := adapter server GlobalAxios (refresh_request "r1") (snd first) in
  (exists error, first = (Throw error, snd first) /\ err_status error = Some 401)
  /\ cfg_retry config = false
  /\ getItem "refreshToken" (snd first) = Some "r1"
  /\ "r1" <> ""
  /\ (exists response, second = (Ok response, snd second)
                       /\ res_data response <> JUndefined
                       /\ res_data response <> JNull
                       /\ opt_prop (res_data response) "token" = JUndefined)
  /\ exists again w3,
       getItem "adminToken" w3 = Some "undefined"
       /\ cfg_authorization again = Some "Bearer undefined"
       /\ cfg_retry again = true
       /\ api server config Scenario.renewable
          = match adapter server ApiInstance again w3 with
            | (Throw error2, w4) => classified error2 w4
            | settled => settled
            end.
Proof.
  intros server config first second.
  assert ("r1" <> "") as Hne by discriminate.
  split; [eexists; split; reflexivity |]. split; [reflexivity |].
  split; [reflexivity |]. split; [exact Hne |].
  split; [eexists; split; [reflexivity | split; [discriminate | split; [discriminate | reflexivity]]] |].
  eapply (refresh_without_token_stores_undefined server config Scenario.renewable
            (snd first) (snd second) _ "r1" _
            eq_refl eq_refl eq_refl eq_refl Hne eq_refl);
    [discriminate | discriminate | reflexivity].
Defined.

Lemma api_success_is_silent_witness :
  let config := with_request GET "/books" JUndefined empty_config in
  exists response w',
    api Scenario.renewing config Scenario.renewable = (Ok response, w')
    /\ toasts (since Scenario.renewable w') = []
    /\ location_href w' = location_href Scenario.renewable
    /\ getItem "adminUser" w' = getItem "adminUser" Scenario.renewable.
Proof.
  intros config.
  assert (exists response w',
             api Scenario.renewing config Scenario.renewable = (Ok response, w'))
    as (response & w' & Hrun).
  { let run := eval vm_compute in (api Scenario.renewing config Scenario.renewable) in
    match run with (Ok ?r, ?w0) => exists r, w0 end.
    vm_compute. reflexivity. }
  exists response, w'. split; [exact Hrun |].
  destruct (api_success_is_silent Scenario.renewing config Scenario.renewable _ _ Hrun)
    as (_ & Hquiet & Hhref & _ & Hkeys).
  split; [exact Hquiet |]. split; [exact Hhref |].
  apply (Hkeys "adminUser"). discriminate.
Defined.

Lemma api_rejected_401_ends_session_witness :
  let server := Scenario.expired (HttpReply 200 JNull) in
  let config := with_request GET "/books" JUndefined empty_config in
  exists e w',
    api server config Scenario.start = (Throw e, w')
    /\ err_status e = Some 401
    /\ getItem "adminToken" w' = None
    /\ location_href w' = "/login".
Proof.
  intros server config.
  assert (exists e w', api server config Scenario.start = (Throw e, w')
                       /\ err_status e = Some 401) as (e & w' & Hrun & Hs).
  { let run := eval vm_compute in (api server config Scenario.start) in
    match run with (Throw ?e0, ?w0) => exists e0, w0 end.
    split; vm_compute; reflexivity. }
  exists e, w'. split; [exact Hrun |]. split; [exact Hs |].
  destruct (api_rejected_401_ends_session server config Scenario.start _ _ Hrun Hs)
    as (Htoken & _ & _ & Hhref).
  split; [exact Htoken | exact Hhref].
Defined.

(** ** More on the retry helper *)

Lemma retry_loop_outcome {A} (requestFunc : M A) (n delay : Z) :
  (forall w, fst (requestFunc w) <> Exhausted) ->
  forall (rounds : nat) (i : Z) (w : World),
    (0 < rounds)%nat ->
    Z.of_nat rounds = n - i ->
    (exists r w0, fst (requestFunc w0) = Ok r
                  /\ fst (retry_loop rounds requestFunc n delay i w) = Ok (Some r))
    \/ (exists e w0, fst (requestFunc w0) = Throw e
                     /\ fst (retry_loop rounds requestFunc n delay i w) = Throw e).
Proof.
  intros Hsettles. induction rounds as [| rounds IH]; intros i w Hpos Hleft; [lia |].
  cbn [retry_loop]. specialize (Hsettles w) as Hw.
  destruct (requestFunc w) as [[r | e |] w'] eqn:E; cbn [fst] in *.
  - left. exists r, w. rewrite E. split; reflexivity.
  - destruct (i =? n - 1) eqn:Hlast.
    + right. exists e, w. rewrite E. split; reflexivity.
    + apply Z.eqb_neq in Hlast. apply IH; lia.
  - congruence.
Qed.

(** X9: with [maxRetries] left out, or a whole number of at least 1, and an
    operation that settles, the retry helper never returns [undefined]: it
    fulfils with the value of an attempt that succeeded or rejects with the
    error of an attempt that failed.  ([maxRetries] ranges over the integers
    here, as everywhere in this model; with a fraction such as 1.5 the test
    [i === maxRetries - 1] never holds and the source does return
    [undefined].) *)
Theorem retry_outcome_is_an_attempt {A} (requestFunc : M A) (maxRetries delay : option Z)
    (w : World) :
  1 <= default 3 maxRetries ->
  (forall w0, fst (requestFunc w0) <> Exhausted) ->
  (exists r w0, fst (requestFunc w0) = Ok r
                /\ fst (retryRequest requestFunc maxRetries delay w) = Ok (Some r))
  \/ (exists e w0, fst (requestFunc w0) = Throw e
                   /\ fst (retryRequest requestFunc maxRetries delay w) = Throw e).
Proof.
  intros Hn Hsettles. unfold retryRequest.
  apply retry_loop_outcome; [exact Hsettles | lia | lia].
Qed.

Lemma retry_outcome_is_an_attempt_witness :
  let requestFunc :=
    api_post (Scenario.always 201 Scenario.books) "/books" Scenario.books empty_config in
  1 <= default 3 None
  /\ (forall w0, fst (requestFunc w0) <> Exhausted)
  /\ ((exists r w0, fst (requestFunc w0) = Ok r
                    /\ fst (retryRequest requestFunc None None Scenario.start) = Ok (Some r))
      \/ (exists e w0, fst (requestFunc w0) = Throw e
                       /\ fst (retryRequest requestFunc None None Scenario.start) = Throw e)).
Proof.
  intros requestFunc.
  assert (1 <= default 3 None) as Hn by (cbn; lia).
  assert (forall w0, fst (requestFunc w0) <> Exhausted) as Hsettles
    by (intros w0; apply api_settles).
  split; [exact Hn |]. split; [exact Hsettles |].
  exact (retry_outcome_is_an_attempt requestFunc None None Scenario.start Hn Hsettles).
Defined.

Lemma retry_loop_schedule {A} (requestFunc : M A) (n delay : Z) :
  (forall w, exists e w', requestFunc w = (Throw e, w')
                          /\ timers (trace w') = timers (trace w)) ->
  forall (rounds : nat) (i : Z) (w : World),
    (0 < rounds)%nat ->
    Z.of_nat rounds = n - i ->
    (exists e, fst (retry_loop rounds requestFunc n delay i w) = Throw e)
    /\ timers (trace (snd (retry_loop rounds requestFunc n delay i w)))
       = timers (trace w)
         ++ map (fun k => delay * 2 ^ (i + Z.of_nat k)) (seq 0 (rounds - 1)).
Proof.
  intros Hfail. induction rounds as [| rounds IH]; intros i w Hpos Hleft; [lia |].
  cbn [retry_loop]. destruct (Hfail w) as (e & w' & E & Hquiet). rewrite E.
  destruct (i =? n - 1) eqn:Hlast.
  - apply Z.eqb_eq in Hlast. assert (rounds = 0%nat) as -> by lia.
    cbn [fst snd]. split; [eauto |]. rewrite Hquiet. cbn. symmetry. apply app_nil_r.
  - apply Z.eqb_neq in Hlast.
    destruct (IH (i + 1) (setTimeout (delay * 2 ^ i) w') ltac:(lia) ltac:(lia))
      as (Hthrow & Htimers).
    split; [exact Hthrow |]. rewrite Htimers.
    assert (timers (trace (setTimeout (delay * 2 ^ i) w'))
            = timers (trace w) ++ [delay * 2 ^ i]) as ->.
    { unfold setTimeout. cbn [trace advance emit]. unfold timers.
      rewrite flat_map_app. cbn [flat_map app]. fold (timers (trace w')).
      rewrite Hquiet. reflexivity. }
    rewrite <- app_assoc. f_equal.
    replace (S rounds - 1)%nat with (S (rounds - 1)) by lia.
    replace (rounds - 0)%nat with rounds by lia.
    cbn [seq map app]. rewrite Z.add_0_r. f_equal.
    rewrite <- seq_shift, map_map. apply map_ext. intros k. f_equal. f_equal. lia.
Qed.

Lemma backoff_total (delay : Z) (m : nat) :
  fold_right Z.add 0 (map (fun k => delay * 2 ^ (0 + Z.of_nat k)) (seq 0 m))
  = delay * (2 ^ Z.of_nat m - 1).
Proof.
  induction m as [| m IH]; [cbn [seq map fold_right]; change (2 ^ Z.of_nat 0) with 1; lia |].
  rewrite seq_S, map_app, fold_right_app. cbn [map fold_right Nat.add].
  assert (forall l a, fold_right Z.add a l = fold_right Z.add 0 l + a) as Hshift.
  { induction l as [| x l IHl]; intros a; cbn [fold_right]; [lia |].
    rewrite IHl. lia. }
  rewrite Hshift, IH. rewrite Nat2Z.inj_succ, Z.pow_succ_r by lia.
  replace (0 + Z.of_nat m) with (Z.of_nat m) by lia. ring.
Qed.

(** X10: the back-off schedule for any [maxRetries = n >= 1]: an operation
    that fails every time (and sets no timer of its own) is given up after
    [n - 1] waits of [delay * 2^k] ms, [k = 0 .. n-2], that is after
    [delay * (2^(n-1) - 1)] ms of waiting in all, and its error is raised. *)
Theorem retry_backoff_schedule {A} (requestFunc : M A) (n delay : Z) (w : World) :
  1 <= n ->
  (forall w0, exists e w1, requestFunc w0 = (Throw e, w1)
                           /\ timers (trace w1) = timers (trace w0)) ->
  let run := retryRequest requestFunc (Some n) (Some delay) w in
  let waits := map (fun k => delay * 2 ^ Z.of_nat k) (seq 0 (Z.to_nat n - 1)) in
  (exists e, fst run = Throw e)
  /\ timers (trace (snd run)) = timers (trace w) ++ waits
  /\ fold_right Z.add 0 waits = delay * (2 ^ (n - 1) - 1).
Proof.
  intros Hn Hfail run waits.
  destruct (retry_loop_schedule requestFunc n delay Hfail (Z.to_nat (n - 0)) 0 w
              ltac:(lia) ltac:(lia)) as (Hthrow & Htimers).
  assert (waits = map (fun k => delay * 2 ^ (0 + Z.of_nat k)) (seq 0 (Z.to_nat n - 1)))
    as Hwaits by reflexivity.
  split; [exact Hthrow |]. split.
  - subst run. unfold retryRequest. cbn [default from_option id].
    rewrite Htimers, Hwaits. replace (Z.to_nat (n - 0) - 1)%nat with (Z.to_nat n - 1)%nat by lia.
    reflexivity.
  - rewrite Hwaits, backoff_total. f_equal. f_equal. f_equal. lia.
Qed.

Lemma timers_app (l1 l2 : list Event) : timers (l1 ++ l2) = timers l1 ++ timers l2.
Proof. unfold timers. apply flat_map_app. Qed.

Lemma refresh_events_no_timer (w : World) : timers (refresh_events w) = [].
Proof.
  unfold refresh_events.
  destruct (getItem "refreshToken" w) as [t |]; [| reflexivity].
  destruct (String.eqb t ""); reflexivity.
Qed.

(** The instance sets no timer. *)
Lemma api_sets_no_timer (server : Server) (config : Config) (w : World) :
  timers (trace (snd (api server config w))) = timers (trace w).
Proof.
  rewrite api_run.
  destruct (adapter server ApiInstance (request_interceptor config w) w)
    as [[response | error |] w1] eqn:E;
    pose proof (adapter_trace _ _ _ _ _ _ E) as (Et & _ & _); cbn [snd];
    try (rewrite Et, timers_app; cbn; apply app_nil_r).
  assert (timers (trace w1) = timers (trace w)) as H1
    by (rewrite Et, timers_app; cbn; apply app_nil_r).
  destruct (refreshable error).
  - pose proof (refresh_trace server (err_config (mark_retry error)) w1) as Rt.
    assert (timers (trace (snd (refresh server (err_config (mark_retry error)) w1)))
            = timers (trace w)) as H2
      by (rewrite Rt, timers_app, refresh_events_no_timer, app_nil_r; exact H1).
    destruct (refresh server (err_config (mark_retry error)) w1)
      as [[[request |] | refreshError |] w2]; cbn [snd] in *.
    + destruct (adapter server ApiInstance (request_interceptor request w2) w2)
        as [[response2 | error2 |] w3] eqn:E2;
        pose proof (adapter_trace _ _ _ _ _ _ E2) as (E2t & _ & _);
        rewrite ?classified_world; cbn [snd];
        rewrite E2t, !timers_app; cbn; rewrite ?app_nil_r; exact H2.
    + rewrite classified_world, timers_app. cbn. rewrite app_nil_r. exact H2.
    + rewrite handleAuthFailure_trace. exact H2.
    + exact H2.
  - rewrite classified_world, timers_app. cbn. rewrite app_nil_r. exact H1.
Qed.

Lemma retry_backoff_schedule_witness :
  let requestFunc :=
    api_post (Scenario.always 503 JNull) "/books" Scenario.books empty_config in
  let run := retryRequest requestFunc (Some 5) (Some 250) Scenario.start in
  1 <= 5
  /\ (forall w0, exists e w1, requestFunc w0 = (Throw e, w1)
                              /\ timers (trace w1) = timers (trace w0))
  /\ timers (trace (snd run)) = [250; 500; 1000; 2000]
  /\ 250 + 500 + 1000 + 2000 = 250 * (2 ^ (5 - 1) - 1).
Proof.
  intros requestFunc run.
  assert (1 <= 5) as Hn by lia.
  assert (forall w0, exists e w1, requestFunc w0 = (Throw e, w1)
                                  /\ timers (trace w1) = timers (trace w0)) as Hfail.
  { intros w0. eexists _, _. split; [reflexivity |].
    exact (api_sets_no_timer (Scenario.always 503 JNull)
             (with_request POST "/books" Scenario.books empty_config) w0). }
  split; [exact Hn |]. split; [exact Hfail |].
  destruct (retry_backoff_schedule requestFunc 5 250 Scenario.start Hn Hfail)
    as (_ & Htimers & Htotal).
  split; [exact Htimers | exact Htotal].
Defined.

Lemma refreshable_other_status (error : JsError) :
  err_status error <> Some 401 -> refreshable error = false.
Proof.
  intros Hne. unfold refreshable.
  destruct (match err_status error with Some 401 => true | _ => false end) eqn:H401;
    [| reflexivity].
  exfalso. apply Hne, status_is_401, H401.
Qed.

(** X11: [apiWrapper.post] with [maxRetries] left out, whose first attempt is
    rejected (by anything but a 401) and whose second attempt is answered
    2xx: the failure is classified and shown, 1000 ms are awaited, the same
    POST with the same body is sent a second time, and the caller gets the
    data of the second answer. *)
Theorem post_retried_after_one_failure (server : Server) (url : string) (body : JsVal)
    (config : Config) (w w1 w2 : World) (e1 : JsError) (answer : Response) :
  let request := with_request POST url body config in
  maxRetries config = None ->
  adapter server ApiInstance (request_interceptor request w) w = (Throw e1, w1) ->
  err_status e1 <> Some 401 ->
  let shown := report (err_status e1) (err_code e1) (error_message e1) w1 in
  let later := setTimeout 1000 shown in
  adapter server ApiInstance (request_interceptor request later) later = (Ok answer, w2) ->
  apiWrapper_post server url body config w = (Ok (res_data answer), w2)
  /\ since w w2
     = [Sent ApiInstance (request_interceptor request w);
        Toast (kind_toast (spec_kind (err_status e1) (err_code e1)) (error_message e1));
        Timer 1000;
        Sent ApiInstance (request_interceptor request later)]
  /\ cfg_data (request_interceptor request w) = body
  /\ cfg_data (request_interceptor request later) = body.
Proof.
  intros request Hmax E1 Hs shown later E2.
  split; [| split; [| split]].
  - unfold apiWrapper_post, bind, retryRequest. rewrite Hmax.
    cbn [default from_option id]. change (Z.to_nat (3 - 0)) with 3%nat.
    assert (api_post server url body config w = (Throw e1, shown)) as Hfirst.
    { unfold api_post. fold request.
      rewrite api_run, E1, (refreshable_other_status e1 Hs). reflexivity. }
    assert (api_post server url body config later = (Ok answer, w2)) as Hsecond.
    { unfold api_post. fold request. rewrite api_run, E2. reflexivity. }
    rewrite (retry_loop_failure _ _ _ _ _ _ _ _ Hfirst).
    change (0 =? 3 - 1) with false. cbv iota.
    cbn [retry_loop]. change (1000 * 2 ^ 0) with 1000. fold later.
    rewrite Hsecond. reflexivity.
  - pose proof (adapter_trace _ _ _ _ _ _ E1) as (Et1 & _ & _).
    pose proof (adapter_trace _ _ _ _ _ _ E2) as (Et2 & _ & _).
    apply since_app. rewrite Et2. unfold later, setTimeout. cbn [trace advance emit].
    unfold shown. rewrite report_trace, Et1, <- !app_assoc. reflexivity.
  - apply (request_interceptor_fields request w).
  - apply (request_interceptor_fields request later).
Qed.

Lemma post_retried_after_one_failure_witness :
  let server : Server :=
    fun n _ _ => match n with
                 | O => mkReply (NoReply (Some "ECONNABORTED") "timeout of 15000ms exceeded") 15000
                 | S _ => mkReply (HttpReply 201 Scenario.books) 10
                 end in
  let request := with_request POST "/books" Scenario.books empty_config in
  exists e1 w1 answer w2,
    maxRetries empty_config = None
    /\ adapter server ApiInstance (request_interceptor request Scenario.start)
         Scenario.start = (Throw e1, w1)
    /\ err_status e1 <> Some 401
    /\ adapter server ApiInstance
         (request_interceptor request
            (setTimeout 1000 (report (err_status e1) (err_code e1) (error_message e1) w1)))
         (setTimeout 1000 (report (err_status e1) (err_code e1) (error_message e1) w1))
       = (Ok answer, w2)
    /\ apiWrapper_post server "/books" Scenario.books empty_config Scenario.start
       = (Ok Scenario.books, w2)
    /\ timers (since Scenario.start w2) = [1000]
    /\ count is_request (since Scenario.start w2) = 2%nat.
Proof.
  intros server request.
  let r := eval vm_compute in
       (adapter server ApiInstance (request_interceptor request Scenario.start)
          Scenario.start) in
  match r with (Throw ?e, ?w0) => pose (e1 := e); pose (w1 := w0) end.
  assert (adapter server ApiInstance (request_interceptor request Scenario.start)
            Scenario.start = (Throw e1, w1)) as E1 by (vm_compute; reflexivity).
  assert (err_status e1 <> Some 401) as Hs by discriminate.
  pose (later := setTimeout 1000
                   (report (err_status e1) (err_code e1) (error_message e1) w1)).
  let r := eval vm_compute in
       (adapter server ApiInstance (request_interceptor request later) later) in
  match r with (Ok ?a, ?w0) => pose (answer := a); pose (w2 := w0) end.
  assert (adapter server ApiInstance (request_interceptor request later) later
          = (Ok answer, w2)) as E2 by (vm_compute; reflexivity).
  exists e1, w1, answer, w2.
  split; [reflexivity |]. split; [exact E1 |]. split; [exact Hs |].
  split; [exact E2 |].
  destruct (post_retried_after_one_failure server "/books" Scenario.books empty_config
              Scenario.start w1 w2 e1 answer eq_refl E1 Hs E2) as (Hrun & Hevs & _).
  split; [exact Hrun |]. rewrite Hevs. split; reflexivity.
Defined.

(** ** More on the response cache *)

Lemma set_cache_same (w : World) : set_cache (cache w) w = w.
Proof. destruct w. reflexivity. Qed.

(** X12: store, wait, read.  Whatever was cached under the key before, a
    value stored with [setCachedData] is what [getCachedData] returns for as
    long as less than the TTL has passed, and from then on the read returns
    [null] and drops the entry; entries under other keys are not touched by
    either. *)
Theorem cache_store_then_read (key : string) (value : JsVal) (dt : Z) (w : World) :
  let stored := advance dt (setCachedData key value w) in
  (dt < CACHE_DURATION -> getCachedData key stored = (value, stored))
  /\ (CACHE_DURATION <= dt ->
      fst (getCachedData key stored) = JNull
      /\ cache (snd (getCachedData key stored)) !! key = None)
  /\ (forall other, other <> key ->
        cache stored !! other = cache w !! other
        /\ cache (snd (getCachedData key stored)) !! other = cache w !! other).
Proof.
  intros stored.
  assert (cache stored !! key = Some {| data := value; timestamp := now w |}) as Hlook
    by (unfold stored, setCachedData; cbn [cache advance set_cache];
        apply lookup_insert_eq).
  assert (now stored - now w = dt) as Hage
    by (unfold stored, setCachedData; cbn [now advance set_cache]; lia).
  split; [| split].
  - intros Hfresh. unfold getCachedData. rewrite Hlook. cbn [timestamp data].
    rewrite Hage. apply Z.ltb_lt in Hfresh. rewrite Hfresh. reflexivity.
  - intros Hstale. unfold getCachedData. rewrite Hlook. cbn [timestamp data].
    rewrite Hage. apply Z.ltb_ge in Hstale. rewrite Hstale. cbn [fst snd cache set_cache].
    split; [reflexivity | apply lookup_delete_eq].
  - intros other Hother.
    assert (cache stored !! other = cache w !! other) as Hframe
      by (unfold stored, setCachedData; cbn [cache advance set_cache];
          apply lookup_insert_ne; congruence).
    split; [exact Hframe |].
    unfold getCachedData. rewrite Hlook. cbn [timestamp].
    destruct (now stored - now w <? CACHE_DURATION); cbn [snd cache set_cache];
      [exact Hframe |].
    rewrite lookup_delete_ne by congruence. exact Hframe.
Qed.

Lemma getCachedData_frame (key other : string) (w : World) :
  other <> key ->
  cache (snd (getCachedData key w)) !! other = cache w !! other.
Proof.
  intros Hother. unfold getCachedData.
  destruct (cache w !! key) as [cached |];
    [destruct (now w - timestamp cached <? CACHE_DURATION) |];
    cbn [snd cache set_cache]; try reflexivity;
    apply lookup_delete_ne; congruence.
Qed.

(** X13: a read of a key that has no entry returns [null] and changes
    nothing at all; and no read, hit or miss, touches the entry of another
    key. *)
Theorem cache_read_missing_key (key : string) (w : World) :
  (cache w !! key = None -> getCachedData key w = (JNull, w))
  /\ (forall other, other <> key ->
        cache (snd (getCachedData key w)) !! other = cache w !! other).
Proof.
  split.
  - intros Hnone. unfold getCachedData. rewrite Hnone.
    rewrite (delete_id _ _ Hnone), set_cache_same. reflexivity.
  - intros other Hother. apply getCachedData_frame. exact Hother.
Qed.

Lemma includes_empty (s : string) : includes s "" = true.
Proof. destruct s; reflexivity. Qed.

Lemma evict_everything (w : World) : cache (evict "" w) = ∅.
Proof.
  apply map_eq. intros key. rewrite evict_lookup, includes_empty, lookup_empty.
  reflexivity.
Qed.

(** X14: a successful [apiWrapper.put] to a url that begins with [/] (as
    every url of this client does) empties the whole cache: the first segment
    of such a url is the empty string, which every key contains. *)
Theorem put_absolute_url_clears_cache (server : Server) (path : string) (body : JsVal)
    (config : Config) (w w1 : World) (response : Response) :
  api_put server (String "/" path) body config w = (Ok response, w1) ->
  apiWrapper_put server (String "/" path) body config w
  = (Ok (res_data response), evict "" w1)
  /\ cache (snd (apiWrapper_put server (String "/" path) body config w)) = ∅.
Proof.
  intros E.
  assert (apiWrapper_put server (String "/" path) body config w
          = (Ok (res_data response), evict "" w1)) as Hrun.
  { unfold apiWrapper_put, bind, act, ret. rewrite E. reflexivity. }
  split; [exact Hrun |]. rewrite Hrun. apply evict_everything.
Qed.

Lemma put_absolute_url_clears_cache_witness :
  let server := Scenario.always 200 Scenario.books in
  let w1 := snd (apiWrapper_get server "/books" empty_config Scenario.start) in
  let w2 := snd (apiWrapper_get server "/issues" empty_config w1) in
  exists response w3,
    api_put server "/users/7" Scenario.books empty_config w2 = (Ok response, w3)
    /\ size (cache w2) = 2%nat
    /\ cache (snd (apiWrapper_put server "/users/7" Scenario.books empty_config w2)) = ∅.
Proof.
  intros server w1 w2.
  let r := eval vm_compute in (api_put server "/users/7" Scenario.books empty_config w2) in
  match r with (Ok ?a, ?w0) => pose (response := a); pose (w3 := w0) end.
  assert (api_put server "/users/7" Scenario.books empty_config w2 = (Ok response, w3))
    as E by (vm_compute; reflexivity).
  exists response, w3. split; [exact E |]. split; [reflexivity |].
  exact (proj2 (put_absolute_url_clears_cache server "users/7" Scenario.books
                  empty_config w2 w3 response E)).
Defined.

(** X15: with [skipCache] set, [apiWrapper.get] is the plain request: the
    cache is neither read nor written (an entry of the key, fresh or expired,
    stays as it is) and the outcome is that of [api.get]. *)
Theorem get_skipCache_bypasses_cache (server : Server) (url : string) (config : Config)
    (w : World) :
  skipCache config = true ->
  cache (snd (apiWrapper_get server url config w)) = cache w
  /\ (forall response w', api_get server url config w = (Ok response, w') ->
        apiWrapper_get server url config w = (Ok (res_data response), w'))
  /\ (forall error w', api_get server url config w = (Throw error, w') ->
        apiWrapper_get server url config w = (Throw error, w')).
Proof.
  intros Hskip.
  pose proof (api_call_cache 2 server (with_request GET url (cfg_data config) config) w)
    as Hframe.
  change (api_call 2 server (with_request GET url (cfg_data config) config) w)
    with (api_get server url config w) in Hframe.
  unfold apiWrapper_get. rewrite Hskip. cbn [negb]. unfold bind.
  destruct (api_get server url config w) as [[response | error |] w1];
    rewrite ?andb_false_r; cbn [ret snd] in *;
    (split; [exact Hframe |]); split; intros ? ? H; inversion H; reflexivity.
Qed.

Lemma get_skipCache_bypasses_cache_witness :
  let server := Scenario.always 200 (JStr "fresh") in
  let config := {| cfg_method := GET; cfg_url := ""; cfg_data := JUndefined;
                   cfg_params := JUndefined; cfg_authorization := None;
                   cfg_requestedAt := None; cfg_retry := false;
                   skipCache := true; maxRetries := None |} in
  let cached := setCachedData "GET_/books_{}" Scenario.books Scenario.start in
  skipCache config = true
  /\ fst (apiWrapper_get server "/books" config cached) = Ok (JStr "fresh")
  /\ cache (snd (apiWrapper_get server "/books" config cached)) = cache cached.
Proof.
  intros server config cached.
  split; [reflexivity |]. split; [reflexivity |].
  exact (proj1 (get_skipCache_bypasses_cache server "/books" config cached eq_refl)).
Defined.

(** X16: a read through [apiWrapper.get] touches no entry but the one of its
    own key: every entry cached under another key is still there, with the
    same payload and time stamp, however the request ends. *)
Theorem get_touches_only_its_key (server : Server) (url : string) (config : Config)
    (w : World) (other : string) :
  other <> cacheKey url config ->
  cache (snd (apiWrapper_get server url config w)) !! other = cache w !! other.
Proof.
  intros Hother.
  assert (forall w0, cache w0 !! other = cache w !! other ->
            cache (snd ((let! response := api_get server url config in
                         (if (res_status response =? 200) && negb (skipCache config)
                          then act (setCachedData (cacheKey url config) (res_data response))
                          else ret tt) ;;
                         ret (res_data response)) w0)) !! other = cache w !! other)
    as Hfetch.
  { intros w0 H0. unfold bind.
    pose proof (api_call_cache 2 server (with_request GET url (cfg_data config) config) w0)
      as Hframe.
    change (api_call 2 server (with_request GET url (cfg_data config) config) w0)
      with (api_get server url config w0) in Hframe.
    destruct (api_get server url config w0) as [[response | error |] w1];
      cbn [snd] in *; [| congruence | congruence].
    destruct ((res_status response =? 200) && negb (skipCache config));
      cbn [act ret snd]; [| congruence].
    unfold setCachedData. cbn [cache set_cache].
    rewrite lookup_insert_ne by congruence. congruence. }
  unfold apiWrapper_get.
  destruct (negb (skipCache config)); [| apply Hfetch; reflexivity].
  pose proof (getCachedData_frame (cacheKey url config) other w Hother) as Hread.
  destruct (getCachedData (cacheKey url config) w) as [cached w1]. cbn [snd] in Hread.
  destruct (truthy cached); [exact Hread | apply Hfetch; exact Hread].
Qed.

(** ** More on the session store *)

(** X17: a write through [apiWrapper] never adds or alters a cache entry:
    after a PUT or a DELETE, succeeded or failed, whatever is cached was
    cached before, with the same payload and time stamp. *)
Theorem writes_only_remove_entries (server : Server) (url : string) (body : JsVal)
    (config : Config) (w : World) :
  cache (snd (apiWrapper_put server url body config w)) ⊆ cache w
  /\ cache (snd (apiWrapper_delete server url config w)) ⊆ cache w.
Proof.
  pose proof (api_call_cache 2 server (with_request PUT url body config) w) as Hput.
  change (api_call 2 server (with_request PUT url body config) w)
    with (api_put server url body config w) in Hput.
  pose proof (api_call_cache 2 server
                (with_request DELETE url (cfg_data config) config) w) as Hdel.
  change (api_call 2 server (with_request DELETE url (cfg_data config) config) w)
    with (api_delete server url config w) in Hdel.
  split.
  - unfold apiWrapper_put, bind, act, ret.
    destruct (api_put server url body config w) as [[response | error |] w1];
      cbn [snd] in *; try (rewrite Hput; reflexivity).
    unfold evict. cbn [cache set_cache]. rewrite Hput. apply map_filter_subseteq.
  - unfold apiWrapper_delete, bind, act, ret.
    destruct (api_delete server url config w) as [[response | error |] w1];
      cbn [snd] in *; try (rewrite Hdel; reflexivity).
    unfold evict. cbn [cache set_cache]. rewrite Hdel. apply map_filter_subseteq.
Qed.

(** X18: [logout] removes the token and the user from storage and nothing
    else: after it both slots are empty, every other key, the refresh token
    among them, keeps its value, the page stays where it is; and it undoes
    what [login] wrote. *)
Theorem logout_removes_only_session_slots (newToken userData : JsVal) (w : World) :
  getItem "adminToken" (snd (logout w)) = None
  /\ getItem "adminUser" (snd (logout w)) = None
  /\ localStorage (snd (logout w)) = delete "adminUser" (delete "adminToken" (localStorage w))
  /\ (forall key, key <> "adminToken" -> key <> "adminUser" ->
                  getItem key (snd (logout w)) = getItem key w)
  /\ getItem "refreshToken" (snd (logout w)) = getItem "refreshToken" w
  /\ location_href (snd (logout w)) = location_href w
  /\ isAuthenticated (fst (logout w)) = false
  /\ localStorage (snd (logout (snd (login newToken userData w))))
     = localStorage (snd (logout w)).
Proof.
  assert (forall key, key <> "adminToken" -> key <> "adminUser" ->
                      getItem key (snd (logout w)) = getItem key w) as Hframe.
  { intros key H1 H2. unfold logout, getItem, removeItem.
    cbn [snd localStorage set_localStorage].
    rewrite !lookup_delete_ne by congruence. reflexivity. }
  split; [unfold logout, getItem, removeItem; cbn [snd localStorage set_localStorage];
          by simplify_map_eq |].
  split; [unfold logout, getItem, removeItem; cbn [snd localStorage set_localStorage];
          by simplify_map_eq |].
  split; [reflexivity |].
  split; [exact Hframe |].
  split; [apply Hframe; discriminate |].
  split; [reflexivity |]. split; [reflexivity |].
  unfold logout, login, removeItem, setItem. cbn [snd localStorage set_localStorage].
  apply map_eq. intros key. rewrite !lookup_delete.
  repeat case_decide; try reflexivity.
  rewrite !lookup_insert_ne by congruence. reflexivity.
Qed.

(** X19: after [login] with a non-empty string token every request of the
    instance leaves with [Authorization: Bearer <that token>]; after [logout]
    the interceptor attaches nothing, the request keeps the header the caller
    gave it, if any. *)
Theorem login_token_rides_on_requests (t : string) (userData : JsVal) (config : Config)
    (w : World) :
  t <> "" ->
  cfg_authorization (request_interceptor config (snd (login (JStr t) userData w)))
  = Some ("Bearer " +:+ t)
  /\ cfg_authorization (request_interceptor config (snd (logout w)))
     = cfg_authorization config.
Proof.
  intros Hne. split.
  - apply request_interceptor_bearer; [| exact Hne].
    unfold login, getItem, setItem. cbn [snd localStorage set_localStorage js_string].
    rewrite lookup_insert_ne by discriminate. apply lookup_insert_eq.
  - unfold request_interceptor, logout, getItem, removeItem.
    cbn [snd localStorage set_localStorage].
    rewrite lookup_delete_ne by discriminate. rewrite lookup_delete_eq. reflexivity.
Qed.

Lemma login_token_rides_on_requests_witness :
  let config := with_request GET "/books" JUndefined empty_config in
  "t9" <> ""
  /\ cfg_authorization
       (request_interceptor config
          (snd (login (JStr "t9") (JObj [("username", JStr "admin")]) Scenario.start)))
     = Some "Bearer t9".
Proof.
  intros config.
  assert ("t9" <> "") as Hne by discriminate.
  split; [exact Hne |].
  exact (proj1 (login_token_rides_on_requests "t9" (JObj [("username", JStr "admin")])
                  config Scenario.start Hne)).
Defined.

(** ** Session restore *)

(** X20: with no saved session (the token or the user missing from storage,
    or empty) [checkAuthStatus] sends nothing and changes nothing but the
    loading state. *)
Theorem restore_without_saved_session (parse : string -> option JsVal)
    (verify : string -> Fetched) (p : Provider) (w : World) :
  present (getItem "adminToken" w) && present (getItem "adminUser" w) = false ->
  checkAuthStatus parse verify p w = (setIsLoading false p, w).
Proof.
  intros Hnone. unfold checkAuthStatus.
  destruct (getItem "adminToken" w) as [t |]; [| reflexivity].
  destruct (getItem "adminUser" w) as [u |]; [| reflexivity].
  rewrite Hnone. reflexivity.
Qed.

Lemma restore_without_saved_session_witness :
  let w := removeItem "adminUser" Scenario.start in
  present (getItem "adminToken" w) && present (getItem "adminUser" w) = false
  /\ checkAuthStatus (fun _ => None) (fun _ => FetchFailed "unreachable")
       initial_provider w
     = (setIsLoading false initial_provider, w).
Proof.
  intros w.
  assert (present (getItem "adminToken" w) && present (getItem "adminUser" w) = false)
    as Hnone by reflexivity.
  split; [exact Hnone |].
  exact (restore_without_saved_session (fun _ => None) (fun _ => FetchFailed "unreachable")
           initial_provider w Hnone).
Defined.

(** X21: with a saved token [t] and user [u], [checkAuthStatus] sends one
    verification request carrying [t] and ends the loading state.  The
    session is restored exactly when the answer is JSON with a truthy
    [success] (its HTTP status is not looked at) and [u] parses: then storage
    is untouched and the state holds [t] and the parsed user.  In every other
    case (no answer, an answer that is not JSON, [success] falsy, [u]
    unparsable) the provider is signed out and both slots are removed. *)
Theorem restore_verifies_saved_session (parse : string -> option JsVal)
    (verify : string -> Fetched) (p : Provider) (w : World) (t u : string) :
  getItem "adminToken" w = Some t ->
  getItem "adminUser" w = Some u ->
  t <> "" ->
  u <> "" ->
  let restored := checkAuthStatus parse verify p w in
  let p' := fst restored in
  let w' := snd restored in
  verifications p' = verifications p ++ [t]
  /\ isLoading p' = false
  /\ (isAuthenticated (auth p') = true
      <-> exists status body userData,
            verify t = FetchedJson status body
            /\ truthy (opt_prop body "success") = true
            /\ parse u = Some userData)
  /\ (isAuthenticated (auth p') = true ->
      w' = w /\ token (auth p') = JStr t /\ parse u = Some (user (auth p')))
  /\ (isAuthenticated (auth p') = false ->
      getItem "adminToken" w' = None /\ getItem "adminUser" w' = None
      /\ token (auth p') = JNull /\ user (auth p') = JNull).
Proof.
  intros Ht Hu Hnt Hnu restored p' w'. subst p' w' restored.
  assert (forall q, getItem "adminToken" (snd (logout_provider q w)) = None
                    /\ getItem "adminUser" (snd (logout_provider q w)) = None) as Hout.
  { intros q. unfold logout_provider, logout, getItem, removeItem.
    cbn [snd localStorage set_localStorage].
    split; [rewrite lookup_delete_ne by discriminate |]; apply lookup_delete_eq. }
  unfold checkAuthStatus. rewrite Ht, Hu. unfold present.
  apply String.eqb_neq in Hnt, Hnu. rewrite Hnt, Hnu. cbn [negb andb].
  destruct (verify t) as [status body | status | message] eqn:Hv.
  - destruct (truthy (opt_prop body "success")) eqn:Hsuccess.
    + destruct (parse u) as [userData |] eqn:Hparse.
      * destruct body; try discriminate Hsuccess; cbn [fst snd];
          (split; [reflexivity |]); (split; [reflexivity |]);
          (split; [split; [intros _; eauto 6 | reflexivity] |]);
          (split; [intros _; repeat split | discriminate]).
      * destruct body; try discriminate Hsuccess; cbn [fst snd];
          (split; [reflexivity |]); (split; [reflexivity |]);
          (split; [split; [discriminate | intros (? & ? & ? & Hj & _ & Hp); congruence] |]);
          (split; [discriminate | intros _; repeat split; apply (Hout (setToken (JStr t) (verification_sent t p)))]).
    + destruct body; cbn [fst snd];
        (split; [reflexivity |]); (split; [reflexivity |]);
        (split; [split; [discriminate | intros (? & ? & ? & Hj & Hs & _); inversion Hj; subst; congruence] |]);
        (split; [discriminate | intros _; repeat split; apply (Hout (verification_sent t p))]).
  - cbn [fst snd]. split; [reflexivity |]. split; [reflexivity |].
    split; [split; [discriminate | intros (? & ? & ? & Hj & _); discriminate Hj] |].
    split; [discriminate | intros _; repeat split; apply (Hout (verification_sent t p))].
  - cbn [fst snd]. split; [reflexivity |]. split; [reflexivity |].
    split; [split; [discriminate | intros (? & ? & ? & Hj & _); discriminate Hj] |].
    split; [discriminate | intros _; repeat split; apply (Hout (verification_sent t p))].
Qed.

Lemma restore_verifies_saved_session_witness :
  let parse := fun s : string => if String.eqb s "{}" then Some (JObj []) else None in
  let verify := fun _ : string => FetchedJson 200 (JObj [("success", JBool true)]) in
  let restored := checkAuthStatus parse verify initial_provider Scenario.start in
  getItem "adminToken" Scenario.start = Some "t1"
  /\ getItem "adminUser" Scenario.start = Some "{}"
  /\ "t1" <> "" /\ "{}" <> ""
  /\ verifications (fst restored) = ["t1"]
  /\ isAuthenticated (auth (fst restored)) = true
  /\ snd restored = Scenario.start.
Proof.
  intros parse verify restored.
  assert ("t1" <> "") as H1 by discriminate.
  assert ("{}" <> "") as H2 by discriminate.
  split; [reflexivity |]. split; [reflexivity |]. split; [exact H1 |].
  split; [exact H2 |].
  destruct (restore_verifies_saved_session parse verify initial_provider Scenario.start
              "t1" "{}" eq_refl eq_refl H1 H2) as (Hsent & _ & Hiff & Hkept & _).
  split; [exact Hsent |].
  assert (isAuthenticated (auth (fst restored)) = true) as Hin.
  { apply Hiff. exists 200, (JObj [("success", JBool true)]), (JObj []).
    repeat split. }
  split; [exact Hin | apply (Hkept Hin)].
Defined.

(** ** Upload progress *)

(** The progress callback computes its percentage in double precision.  The
    lemmas below follow [SpecFloat]'s product and quotient on numbers in
    normal form: the product of two byte counts is exact while it stays
    below 2^53, and the quotient is within half a unit in the last place of
    the exact one.  For totals below 2^46 that is enough for [Math.round] to
    land on the integer exact arithmetic gives. *)

Section DoubleFacts.
Import SpecFloat.

(** *** Digits of a mantissa *)

Lemma digits2_pos_bounds (p : positive) :
  2 ^ (Zpos (digits2_pos p) - 1) <= Zpos p < 2 ^ Zpos (digits2_pos p).
Proof.
  induction p as [p IH | p IH |]; cbn [digits2_pos].
  - rewrite Pos2Z.inj_succ. change (Zpos p~1) with (2 * Zpos p + 1).
    replace (Z.succ (Zpos (digits2_pos p)) - 1) with (Z.succ (Zpos (digits2_pos p) - 1)) by lia.
    rewrite !Z.pow_succ_r by lia. lia.
  - rewrite Pos2Z.inj_succ. change (Zpos p~0) with (2 * Zpos p).
    replace (Z.succ (Zpos (digits2_pos p)) - 1) with (Z.succ (Zpos (digits2_pos p) - 1)) by lia.
    rewrite !Z.pow_succ_r by lia. lia.
  - cbn. lia.
Qed.

Lemma digits2_pos_unique (p : positive) (d : Z) :
  2 ^ (d - 1) <= Zpos p < 2 ^ d -> Zpos (digits2_pos p) = d.
Proof.
  intros [Hlo Hhi]. pose proof (digits2_pos_bounds p) as [Glo Ghi].
  assert (0 < d) as Hd.
  { destruct (Z_lt_le_dec 0 d) as [H | H]; [exact H |].
    exfalso. assert (2 ^ d <= 2 ^ 0) by (apply Z.pow_le_mono_r; lia).
    change (2 ^ 0) with 1 in *. lia. }
  assert (d - 1 < Zpos (digits2_pos p)) as H1.
  { apply (Z.pow_lt_mono_r_iff 2); lia. }
  assert (Zpos (digits2_pos p) - 1 < d) as H2.
  { apply (Z.pow_lt_mono_r_iff 2); lia. }
  lia.
Qed.

Lemma digits2_pos_log2 (p : positive) : Zpos (digits2_pos p) = Z.log2 (Zpos p) + 1.
Proof.
  apply digits2_pos_unique.
  pose proof (Z.log2_spec (Zpos p) (Pos2Z.is_pos p)) as H.
  replace (Z.log2 (Zpos p) + 1 - 1) with (Z.log2 (Zpos p)) by lia.
  replace (Z.log2 (Zpos p) + 1) with (Z.succ (Z.log2 (Zpos p))) by lia.
  exact H.
Qed.

(** *** Shifting a mantissa *)

Lemma iter_pos_eq {A : Type} (f : A -> A) (n : positive) (x : A) :
  iter_pos f n x = Pos.iter f x n.
Proof.
  revert x. induction n as [n IH | n IH |]; intros x; cbn [iter_pos Pos.iter].
  - rewrite !IH, <- !Pos.iter_swap. reflexivity.
  - rewrite !IH. reflexivity.
  - reflexivity.
Qed.

Lemma iter_xO_pow (a k : positive) : Zpos (Pos.iter xO a k) = Zpos a * 2 ^ Zpos k.
Proof.
  induction k as [| k IH] using Pos.peano_ind.
  - cbn [Pos.iter]. lia.
  - rewrite Pos.iter_succ, Pos2Z.inj_succ, Z.pow_succ_r by lia.
    change (Zpos (Pos.iter xO a k)~0) with (2 * Zpos (Pos.iter xO a k)). lia.
Qed.

Lemma shr_exact (a k : positive) :
  iter_pos shr_1 k {| shr_m := Zpos (Pos.iter xO a k); shr_r := false; shr_s := false |}
  = {| shr_m := Zpos a; shr_r := false; shr_s := false |}.
Proof.
  rewrite iter_pos_eq. induction k as [| k IH] using Pos.peano_ind.
  - reflexivity.
  - rewrite !Pos.iter_succ, <- Pos.iter_swap. exact IH.
Qed.

(** *** Rounding a mantissa that fits *)

Lemma scaled_bounds (p l k : Z) :
  0 <= l -> 0 <= k ->
  2 ^ l <= p < 2 ^ (l + 1) ->
  2 ^ (l + k) <= p * 2 ^ k < 2 ^ (l + 1 + k).
Proof.
  intros Hl Hk Hp. rewrite !(Z.pow_add_r 2 _ k) by lia.
  assert (0 < 2 ^ k) by (apply Z.pow_pos_nonneg; lia). nia.
Qed.

Lemma fexp_small (d e : Z) :
  -1021 <= d + e -> fexp 53 1024 (d + e) - e = d - 53.
Proof. intros H. unfold fexp, emin. lia. Qed.

Lemma binary_round_aux_exact (s : bool) (a mx : positive) (k ex : Z) :
  Zpos (digits2_pos a) = 53 ->
  0 <= k ->
  Zpos mx = Zpos a * 2 ^ k ->
  -1074 <= ex + k <= 971 ->
  binary_round_aux 53 1024 s (Zpos mx) ex loc_Exact = S754_finite s a (ex + k).
Proof.
  intros Ha Hk Hmx Hex.
  pose proof (digits2_pos_bounds a) as Hbounds. rewrite Ha in Hbounds.
  assert (Zpos (digits2_pos mx) = 53 + k) as Hd.
  { apply digits2_pos_unique. rewrite Hmx.
    replace (53 + k - 1) with (52 + k) by lia.
    change (53 - 1) with 52 in Hbounds.
    apply (scaled_bounds (Zpos a) 52 k); [lia | lia | exact Hbounds]. }
  unfold binary_round_aux, shr_fexp. cbn [Zdigits2 shr_record_of_loc].
  rewrite Hd, fexp_small by lia.
  replace (53 + k - 53) with k by lia.
  assert (shr {| shr_m := Zpos mx; shr_r := false; shr_s := false |} ex k
          = ({| shr_m := Zpos a; shr_r := false; shr_s := false |}, ex + k)) as ->.
  { destruct k as [| k | k]; [| | lia].
    - replace a with mx by (apply Pos2Z.inj; rewrite Hmx; cbn; lia).
      cbn [shr]. f_equal. lia.
    - cbn [shr]. f_equal.
      replace mx with (Pos.iter xO a k)
        by (apply Pos2Z.inj; rewrite Hmx; apply iter_xO_pow).
      apply shr_exact. }
  cbn [shr_m loc_of_shr_record round_nearest_even Zdigits2 shr_record_of_loc].
  rewrite Ha, fexp_small by lia. change (53 - 53) with 0. cbn [shr shr_m].
  replace (ex + k <=? 1024 - 53) with true by (symmetry; apply Z.leb_le; lia).
  reflexivity.
Qed.

Lemma number_finite (z : Z) :
  0 < z < 2 ^ 53 ->
  exists m,
    number z = S754_finite false m (Z.log2 z - 52)
    /\ Zpos (digits2_pos m) = 53
    /\ Zpos m = z * 2 ^ (52 - Z.log2 z)
    /\ 0 <= Z.log2 z <= 52.
Proof.
  intros [Hpos Hlt]. destruct z as [| p | p]; try lia.
  assert (0 <= Z.log2 (Zpos p) <= 52) as Hlog.
  { split; [apply Z.log2_nonneg |].
    assert (Z.log2 (Zpos p) < 53); [| lia]. apply Z.log2_lt_pow2; lia. }
  pose proof (digits2_pos_log2 p) as Hd.
  pose proof (digits2_pos_bounds p) as Hb. rewrite Hd in Hb.
  replace (Z.log2 (Zpos p) + 1 - 1) with (Z.log2 (Zpos p)) in Hb by lia.
  unfold number, binary_normalize, binary_round, shl_align.
  rewrite Hd, <- Z.add_assoc.
  replace (fexp 53 1024 (Z.log2 (Zpos p) + (1 + 0)))
    with (Z.log2 (Zpos p) - 52) by (unfold fexp, emin; lia).
  destruct (Z.log2 (Zpos p) - 52 - 0) as [| k | k] eqn:Hshift; [| lia |].
  - exists p. assert (Z.log2 (Zpos p) = 52) as H52 by lia.
    rewrite H52. change (52 - 52) with 0.
    split; [| split; [lia | split; [cbn; lia | lia]]].
    apply (binary_round_aux_exact false p p 0 0); [lia | lia | cbn; lia | lia].
  - exists (Pos.iter xO p k).
    assert (Zpos (Pos.iter xO p k) = Zpos p * 2 ^ (52 - Z.log2 (Zpos p))) as Hm
      by (rewrite iter_xO_pow; f_equal; f_equal; lia).
    assert (Zpos (digits2_pos (Pos.iter xO p k)) = 53) as Hdm.
    { apply digits2_pos_unique. rewrite Hm. change (53 - 1) with 52.
      pose proof (scaled_bounds (Zpos p) (Z.log2 (Zpos p)) (52 - Z.log2 (Zpos p))) as Hs.
      replace (Z.log2 (Zpos p) + (52 - Z.log2 (Zpos p))) with 52 in Hs by lia.
      replace (Z.log2 (Zpos p) + 1 + (52 - Z.log2 (Zpos p))) with 53 in Hs by lia.
      apply Hs; [lia | lia | exact Hb]. }
    split; [| split; [exact Hdm | split; [exact Hm | lia]]].
    replace (Z.log2 (Zpos p) - 52) with (Z.log2 (Zpos p) - 52 + 0) at 2 by lia.
    apply (binary_round_aux_exact false _ _ 0); [exact Hdm | lia | cbn; lia | lia].
Qed.

Lemma SFmul_number (a b : Z) :
  0 < a -> 0 < b -> a * b < 2 ^ 53 ->
  SFmul 53 1024 (number a) (number b) = number (a * b).
Proof.
  intros Ha Hb Hab.
  assert (a < 2 ^ 53) by nia. assert (b < 2 ^ 53) by nia.
  destruct (number_finite a) as (ma & -> & Hda & Hma & Hla); [lia |].
  destruct (number_finite b) as (mb & -> & Hdb & Hmb & Hlb); [lia |].
  destruct (number_finite (a * b)) as (mc & -> & Hdc & Hmc & Hlc); [nia |].
  cbn [SFmul xorb].
  pose proof (Z.log2_mul_below a b Ha Hb) as Hbelow.
  replace (Z.log2 (a * b) - 52)
    with (Z.log2 a - 52 + (Z.log2 b - 52)
          + (Z.log2 (a * b) - Z.log2 a - Z.log2 b + 52)) by lia.
  apply binary_round_aux_exact; [exact Hdc | lia | | lia].
  rewrite Pos2Z.inj_mul, Hma, Hmb, Hmc.
  replace (a * 2 ^ (52 - Z.log2 a) * (b * 2 ^ (52 - Z.log2 b)))
    with (a * b * (2 ^ (52 - Z.log2 a) * 2 ^ (52 - Z.log2 b))) by ring.
  rewrite <- !Z.mul_assoc, <- !Z.pow_add_r by lia.
  do 3 f_equal. lia.
Qed.

(** *** Rounding a quotient *)

Lemma shr_record_of_loc_back (m : Z) (l : location) :
  shr_m (shr_record_of_loc m l) = m
  /\ loc_of_shr_record (shr_record_of_loc m l) = l.
Proof. destruct l as [| []]; split; reflexivity. Qed.

Lemma round_nearest_even_near (q : Z) (l : location) (r B : Z) :
  0 < B -> loc_ok l r B ->
  (round_nearest_even q l = q \/ round_nearest_even q l = q + 1)
  /\ - B <= 2 * round_nearest_even q l * B - 2 * (B * q + r) <= B.
Proof.
  intros HB Hl. destruct l as [| []]; cbn [round_nearest_even loc_ok] in *;
    try destruct (Z.even q); split; auto; lia.
Qed.

(** The second half of [binary_round_aux]: an integer of 53 digits, or
    [2 ^ 53], is put back in normal form. *)
Lemma renormalize (s : bool) (rnd ex : Z) :
  2 ^ 52 <= rnd <= 2 ^ 53 -> -1074 <= ex <= 900 ->
  exists m j,
    (let '(mrs, e) := shr_fexp 53 1024 rnd ex loc_Exact in
     match shr_m mrs with
     | 0 => S754_zero s
     | Zpos m0 => if e <=? 1024 - 53 then S754_finite s m0 e else S754_infinity s
     | Zneg _ => S754_nan
     end) = S754_finite s m (ex + j)
    /\ 0 <= j <= 1
    /\ Zpos (digits2_pos m) = 53
    /\ Zpos m * 2 ^ j = rnd.
Proof.
  intros Hrnd Hex. destruct rnd as [| p | p]; try lia.
  destruct (Z.eq_dec (Zpos p) (2 ^ 53)) as [Htop | Htop].
  - exists (Z.to_pos (2 ^ 52)), 1.
    assert (p = Z.to_pos (2 ^ 53)) as -> by (apply Pos2Z.inj; rewrite Htop; reflexivity).
    unfold shr_fexp.
    replace (fexp 53 1024 (Zdigits2 (Zpos (Z.to_pos (2 ^ 53))) + ex) - ex) with 1
      by (symmetry; apply (fexp_small 54); lia).
    cbn [shr_record_of_loc shr fst snd].
    replace (ex + 1 <=? 1024 - 53) with true by (symmetry; apply Z.leb_le; lia).
    split; [reflexivity |]. split; [lia |]. split; reflexivity.
  - exists p, 0.
    assert (Zpos (digits2_pos p) = 53) as Hd
      by (apply digits2_pos_unique; change (53 - 1) with 52; lia).
    unfold shr_fexp. cbn [Zdigits2]. rewrite Hd, fexp_small by lia.
    change (53 - 53) with 0. cbn [shr_record_of_loc shr fst snd shr_m].
    replace (ex <=? 1024 - 53) with true by (symmetry; apply Z.leb_le; lia).
    rewrite Z.add_0_r. split; [reflexivity |]. split; [lia |]. split; [reflexivity | lia].
Qed.

Lemma round_then_renormalize (s : bool) (h ex : Z) (l : location) (r B : Z) :
  2 ^ 52 <= h < 2 ^ 53 -> -1074 <= ex <= 900 -> 0 < B -> loc_ok l r B ->
  exists m j,
    (let '(mrs, e) := shr_fexp 53 1024 (round_nearest_even h l) ex loc_Exact in
     match shr_m mrs with
     | 0 => S754_zero s
     | Zpos m0 => if e <=? 1024 - 53 then S754_finite s m0 e else S754_infinity s
     | Zneg _ => S754_nan
     end) = S754_finite s m (ex + j)
    /\ 0 <= j <= 1
    /\ Zpos (digits2_pos m) = 53
    /\ - B <= 2 * (Zpos m * 2 ^ j) * B - 2 * (B * h + r) <= B.
Proof.
  intros Hh Hex HB Hl.
  destruct (round_nearest_even_near h l r B HB Hl) as (Hrnd & Hnear).
  destruct (renormalize s (round_nearest_even h l) ex) as (m & j & Heq & Hj & Hd & Hm);
    [lia | lia |].
  exists m, j. rewrite Hm. auto.
Qed.

Lemma round_53 (s : bool) (q : positive) (ex : Z) (l : location) (r B : Z) :
  Zpos (digits2_pos q) = 53 -> -1074 <= ex <= 900 -> 0 < B -> loc_ok l r B ->
  exists m j,
    binary_round_aux 53 1024 s (Zpos q) ex l = S754_finite s m (ex + j)
    /\ 0 <= j <= 2
    /\ Zpos (digits2_pos m) = 53
    /\ - (B * 2 ^ j) <= 2 * (Zpos m * 2 ^ j) * B - 2 * (B * Zpos q + r) <= B * 2 ^ j.
Proof.
  intros Hd Hex HB Hl.
  pose proof (digits2_pos_bounds q) as Hq. rewrite Hd in Hq. change (53 - 1) with 52 in Hq.
  unfold binary_round_aux.
  assert (shr_fexp 53 1024 (Zpos q) ex l = (shr_record_of_loc (Zpos q) l, ex)) as ->
    by (unfold shr_fexp; cbn [Zdigits2]; rewrite Hd, fexp_small by lia; reflexivity).
  destruct (shr_record_of_loc_back (Zpos q) l) as (-> & ->).
  destruct (round_then_renormalize s (Zpos q) ex l r B Hq Hex HB Hl)
    as (m & j & Heq & Hj & Hdm & Hnear).
  exists m, j. split; [exact Heq |]. split; [lia |]. split; [exact Hdm |].
  assert (1 <= 2 ^ j) by (apply (Z.pow_le_mono_r 2 0 j); lia). nia.
Qed.

Lemma shr_1_loc (h : positive) (l : location) (r B : Z) :
  0 < B -> loc_ok l r B ->
  (shr_m (shr_1 (shr_record_of_loc (Zpos h~0) l)) = Zpos h
   /\ loc_ok (loc_of_shr_record (shr_1 (shr_record_of_loc (Zpos h~0) l))) r (2 * B))
  /\ (shr_m (shr_1 (shr_record_of_loc (Zpos h~1) l)) = Zpos h
      /\ loc_ok (loc_of_shr_record (shr_1 (shr_record_of_loc (Zpos h~1) l))) (B + r) (2 * B)).
Proof.
  intros HB Hl. destruct l as [| []]; cbn in *; repeat split; lia.
Qed.

Lemma round_54 (s : bool) (q : positive) (ex : Z) (l : location) (r B : Z) :
  Zpos (digits2_pos q) = 54 -> -1074 <= ex <= 800 -> 0 < B -> loc_ok l r B ->
  exists m j,
    binary_round_aux 53 1024 s (Zpos q) ex l = S754_finite s m (ex + j)
    /\ 0 <= j <= 2
    /\ Zpos (digits2_pos m) = 53
    /\ - (B * 2 ^ j) <= 2 * (Zpos m * 2 ^ j) * B - 2 * (B * Zpos q + r) <= B * 2 ^ j.
Proof.
  intros Hd Hex HB Hl.
  pose proof (digits2_pos_bounds q) as Hq. rewrite Hd in Hq. change (54 - 1) with 53 in Hq.
  unfold binary_round_aux.
  assert (shr_fexp 53 1024 (Zpos q) ex l = (shr_1 (shr_record_of_loc (Zpos q) l), ex + 1)) as ->
    by (unfold shr_fexp; cbn [Zdigits2]; rewrite Hd, fexp_small by lia; reflexivity).
  destruct (shr_1_loc (Pos.div2 q) l r B HB Hl) as ((Hm0 & Hl0) & (Hm1 & Hl1)).
  assert (exists h r', shr_m (shr_1 (shr_record_of_loc (Zpos q) l)) = h
                       /\ loc_ok (loc_of_shr_record (shr_1 (shr_record_of_loc (Zpos q) l)))
                            r' (2 * B)
                       /\ 2 * B * h + r' = B * Zpos q + r
                       /\ 2 ^ 52 <= h < 2 ^ 53) as (h & r' & Hh & Hl' & Hval & Hrange).
  { destruct q as [h | h |]; cbn [Pos.div2] in *.
    - exists (Zpos h), (B + r). repeat split; try assumption; lia.
    - exists (Zpos h), r. repeat split; try assumption; lia.
    - cbn in Hq. lia. }
  rewrite Hh.
  destruct (round_then_renormalize s h (ex + 1)
              (loc_of_shr_record (shr_1 (shr_record_of_loc (Zpos q) l))) r' (2 * B))
    as (m & j & Heq & Hj & Hdm & Hnear); [lia | lia | lia | exact Hl' |].
  exists m, (1 + j). rewrite Z.add_assoc. split; [exact Heq |].
  split; [lia |]. split; [exact Hdm |].
  rewrite Z.pow_add_r by lia. change (2 ^ 1) with 2.
  assert (1 <= 2 ^ j) by (apply (Z.pow_le_mono_r 2 0 j); lia). nia.
Qed.

(** *** Division *)

Lemma new_location_ok (B r : Z) : 0 <= r < B -> loc_ok (new_location B r) r B.
Proof.
  intros Hr. unfold new_location, new_location_even, new_location_odd.
  pose proof (Zmod_even B) as Hparity.
  pose proof (Z.div_mod B 2 ltac:(lia)) as Hhalf.
  destruct (Z.even B).
  - destruct (r =? 0) eqn:H0; [apply Z.eqb_eq in H0; exact H0 |].
    apply Z.eqb_neq in H0. cbn [loc_ok].
    destruct (Z.compare_spec (2 * r) B); lia.
  - destruct (r =? 0) eqn:H0; [apply Z.eqb_eq in H0; exact H0 |].
    apply Z.eqb_neq in H0.
    destruct (Z.compare_spec (2 * r + 1) B); cbn [loc_ok]; lia.
Qed.

Lemma div_eucl_div_mod (a b : Z) : Z.div_eucl a b = (a / b, a mod b).
Proof. unfold Z.div, Z.modulo. destruct (Z.div_eucl a b). reflexivity. Qed.

Lemma SFdiv_core_binary_53 (m1 m2 : positive) (e1 e2 : Z) :
  Zpos (digits2_pos m1) = 53 -> Zpos (digits2_pos m2) = 53 ->
  -500 <= e1 - e2 <= 500 ->
  SFdiv_core_binary 53 1024 (Zpos m1) e1 (Zpos m2) e2
  = (Zpos m1 * 2 ^ 53 / Zpos m2, e1 - e2 - 53,
     new_location (Zpos m2) ((Zpos m1 * 2 ^ 53) mod Zpos m2)).
Proof.
  intros Hd1 Hd2 He. unfold SFdiv_core_binary. cbn [Zdigits2]. rewrite Hd1, Hd2.
  replace (Z.min (fexp 53 1024 (53 + e1 - (53 + e2))) (e1 - e2)) with (e1 - e2 - 53)
    by (unfold fexp, emin; lia).
  replace (e1 - e2 - (e1 - e2 - 53)) with 53 by lia.
  cbv beta iota zeta.
  rewrite Z.shiftl_mul_pow2 by lia. rewrite div_eucl_div_mod. reflexivity.
Qed.

(** The quotient of two numbers in normal form: a number in normal form
    within half a unit in the last place of the exact quotient. *)
Lemma SFdiv_finite (m1 m2 : positive) (e1 e2 : Z) :
  Zpos (digits2_pos m1) = 53 -> Zpos (digits2_pos m2) = 53 ->
  -500 <= e1 - e2 <= 500 ->
  exists m j,
    SFdiv 53 1024 (S754_finite false m1 e1) (S754_finite false m2 e2)
    = S754_finite false m (e1 - e2 - 53 + j)
    /\ 0 <= j <= 2
    /\ Zpos (digits2_pos m) = 53
    /\ - (Zpos m2 * 2 ^ j)
       <= 2 * (Zpos m * 2 ^ j) * Zpos m2 - 2 * (Zpos m1 * 2 ^ 53)
       <= Zpos m2 * 2 ^ j.
Proof.
  intros Hd1 Hd2 He.
  pose proof (digits2_pos_bounds m1) as H1. rewrite Hd1 in H1. change (53 - 1) with 52 in H1.
  pose proof (digits2_pos_bounds m2) as H2. rewrite Hd2 in H2. change (53 - 1) with 52 in H2.
  cbn [SFdiv xorb]. rewrite SFdiv_core_binary_53 by assumption.
  set (A := Zpos m1 * 2 ^ 53). set (B := Zpos m2).
  assert (0 < B) as HB by (subst B; lia).
  pose proof (Z.div_mod A B ltac:(lia)) as Hdm.
  pose proof (Z.mod_pos_bound A B HB) as Hmod.
  assert (2 ^ 52 <= A / B < 2 ^ 54) as Hq.
  { split.
    - apply Z.div_le_lower_bound; [exact HB |]. subst A B.
      change (2 ^ 53) with (2 * 2 ^ 52) at 1. nia.
    - apply Z.div_lt_upper_bound; [exact HB |]. subst A B.
      change (2 ^ 54) with (2 ^ 53 * 2). nia. }
  pose proof (new_location_ok B (A mod B) Hmod) as Hloc.
  destruct (A / B) as [| q | q] eqn:Hquot; try lia.
  assert (B * Zpos q + A mod B = A) as Hval by lia.
  destruct (Z_lt_le_dec (Zpos q) (2 ^ 53)) as [Hsmall | Hlarge].
  - assert (Zpos (digits2_pos q) = 53) as Hdq
      by (apply digits2_pos_unique; change (53 - 1) with 52; lia).
    destruct (round_53 false q (e1 - e2 - 53) (new_location B (A mod B)) (A mod B) B
                Hdq ltac:(lia) HB Hloc) as (m & j & Heq & Hj & Hdm' & Hnear).
    exists m, j. rewrite Hval in Hnear. auto.
  - assert (Zpos (digits2_pos q) = 54) as Hdq
      by (apply digits2_pos_unique; change (54 - 1) with 53; lia).
    destruct (round_54 false q (e1 - e2 - 53) (new_location B (A mod B)) (A mod B) B
                Hdq ltac:(lia) HB Hloc) as (m & j & Heq & Hj & Hdm' & Hnear).
    exists m, j. rewrite Hval in Hnear. auto.
Qed.

(** *** The percentage *)

Lemma round_bracket (m n t k Pw Ph : Z) :
  0 < t -> t < Pw -> Pw = 2 * Ph ->
  2 * t * k <= 2 * n + t < 2 * t * (k + 1) ->
  - t <= 2 * m * t - 2 * n * Pw <= t ->
  (2 * m + Pw) / (2 * Pw) = k.
Proof.
  intros Ht HPw Heven Hk Hnear.
  assert (Pw * (2 * t * k - t) <= Pw * (2 * n)) as Hlow
    by (apply Z.mul_le_mono_nonneg_l; lia).
  assert (Pw * (2 * n) <= Pw * (2 * t * k + t - 1)) as Hhigh
    by (apply Z.mul_le_mono_nonneg_l; lia).
  assert ((2 * k - 1) * Pw <= 2 * m) as H1.
  { assert (t * ((2 * k - 1) * Pw) <= t * (2 * m + 1)) as H by lia.
    apply Z.mul_le_mono_pos_l in H; [| exact Ht]. subst Pw. lia. }
  assert (2 * m < (2 * k + 1) * Pw) as H2.
  { apply (Z.mul_lt_mono_pos_l t); [exact Ht | lia]. }
  symmetry. apply Z.div_unique with (r := 2 * m + Pw - 2 * Pw * k); lia.
Qed.

Lemma number_100 : number 100 = S754_finite false 7036874417766400 (-46).
Proof. reflexivity. Qed.

Lemma percentCompleted_exact (loaded total : Z) :
  0 < total < 2 ^ 46 ->
  0 <= loaded <= total ->
  percentCompleted loaded total = Some (nearest_percent loaded total).
Proof.
  intros Ht Hl. unfold percentCompleted, nearest_percent.
  destruct (number_finite total) as (m2 & Hnt & Hd2 & Hm2 & Hlt); [lia |].
  destruct (Z.eq_dec loaded 0) as [-> | Hpos].
  - rewrite Hnt, number_100. cbn [number binary_normalize SFmul SFdiv xorb Math_round].
    f_equal. symmetry. apply Z.div_small. lia.
  - set (n := loaded * 100).
    assert (0 < n < 2 ^ 53) as Hn
      by (subst n; change (2 ^ 53) with (2 ^ 46 * 128); lia).
    rewrite SFmul_number by lia. fold n.
    destruct (number_finite n Hn) as (m1 & Hnn & Hd1 & Hm1 & Hln).
    rewrite Hnn, Hnt.
    destruct (SFdiv_finite m1 m2 (Z.log2 n - 52) (Z.log2 total - 52) Hd1 Hd2 ltac:(lia))
      as (m & j & -> & Hj & Hdm & Hnear).
    pose proof (digits2_pos_bounds m) as Hm. rewrite Hdm in Hm. change (53 - 1) with 52 in Hm.
    rewrite Hm1, Hm2 in Hnear.
    set (a := 52 - Z.log2 n) in *. set (b := 52 - Z.log2 total) in *.
    set (E := a + 53 - b - j).
    replace (Z.log2 n - 52 - (Z.log2 total - 52) - 53 + j) with (- E) by (subst E a b; lia).
    (* everything in units of [2 ^ (b + j)] *)
    assert (0 < 2 ^ (b + j)) as Hg by (apply Z.pow_pos_nonneg; lia).
    assert (total * 2 ^ b * 2 ^ j = total * 2 ^ (b + j)) as R1
      by (rewrite Z.pow_add_r by lia; ring).
    assert (2 * (Zpos m * 2 ^ j) * (total * 2 ^ b) = 2 * Zpos m * total * 2 ^ (b + j)) as R2
      by (rewrite Z.pow_add_r by lia; ring).
    assert (n * 2 ^ a * 2 ^ 53 = n * 2 ^ (a + 53)) as R3
      by (rewrite Z.pow_add_r by lia; ring).
    rewrite R1, R2, R3 in Hnear.
    assert (0 < total * 2 ^ (b + j)) as Hunits by (apply Z.mul_pos_pos; lia).
    assert (46 <= E) as HE.
    { destruct (Z_lt_le_dec E 46) as [Hsmall | Hok]; [exfalso | exact Hok].
      assert (2 ^ (a + 53) <= 2 ^ 45 * 2 ^ (b + j)) as Hpow.
      { rewrite <- Z.pow_add_r by lia. apply Z.pow_le_mono_r; subst E; lia. }
      assert (0 <= 2 ^ (a + 53)) as Hnonneg by (apply Z.pow_nonneg; lia).
      assert ((2 ^ 53 - 1) * (total * 2 ^ (b + j))
              <= (2 * Zpos m - 1) * (total * 2 ^ (b + j))) as S1
        by (apply Z.mul_le_mono_nonneg_r; lia).
      assert (n * 2 ^ (a + 53) <= 100 * total * 2 ^ (a + 53)) as S3
        by (apply Z.mul_le_mono_nonneg_r; [exact Hnonneg | subst n; lia]).
      assert (total * 2 ^ (a + 53) <= total * (2 ^ 45 * 2 ^ (b + j))) as S4
        by (apply Z.mul_le_mono_nonneg_l; lia).
      change (2 ^ 53 - 1) with 9007199254740991 in S1.
      change (2 ^ 45) with 35184372088832 in S4.
      lia. }
    assert (2 ^ (a + 53) = 2 ^ E * 2 ^ (b + j)) as Hsplit
      by (rewrite <- Z.pow_add_r by lia; f_equal; subst E; lia).
    rewrite Hsplit in Hnear.
    assert (- total <= 2 * Zpos m * total - 2 * n * 2 ^ E <= total) as Hunit.
    { split; apply (Z.mul_le_mono_pos_r _ _ (2 ^ (b + j)) Hg); lia. }
    cbn [Math_round].
    replace (0 <=? - E) with false by (symmetry; apply Z.leb_gt; lia).
    replace (- - E) with E by lia. replace (1 - - E) with (Z.succ E) by lia.
    rewrite Z.pow_succ_r by lia. f_equal.
    assert (2 ^ 46 <= 2 ^ E) as Hbig by (apply Z.pow_le_mono_r; lia).
    apply (round_bracket (Zpos m) n total _ (2 ^ E) (2 ^ (E - 1))).
    + lia.
    + lia.
    + rewrite <- Z.pow_succ_r by lia. f_equal. lia.
    + subst n.
      pose proof (Z.mul_div_le (2 * (loaded * 100) + total) (2 * total) ltac:(lia)).
      pose proof (Z.mul_succ_div_gt (2 * (loaded * 100) + total) (2 * total) ltac:(lia)).
      lia.
    + exact Hunit.
Qed.

(** The bound is needed: from 2^46 bytes on the rounded quotient can sit on
    a half the exact one stays below. *)
Example percent_beyond_the_bound :
  percentCompleted 72092419502833 74707170469257 = Some 97
  /\ nearest_percent 72092419502833 74707170469257 = 96.
Proof. split; vm_compute; reflexivity. Qed.

(** With a total of 0 the quotient is an infinity or [NaN]. *)
Example percent_without_total :
  percentCompleted 5 0 = None /\ percentCompleted 0 0 = None.
Proof. split; reflexivity. Qed.

End DoubleFacts.

(** X22: for a total below 2^46 bytes (64 TiB) the percentage reported while
    uploading, computed in double precision as the source does, is the
    integer nearest to the exact percentage: it stays between 0 and 100,
    never goes down as more bytes are sent, is 0 before the first byte and
    100 once everything is sent (and already from 99.5 % on). *)
Theorem upload_percent_bounds (loaded loaded' total : Z) :
  0 < total < 2 ^ 46 ->
  0 <= loaded <= loaded' ->
  loaded' <= total ->
  exists p p',
    percentCompleted loaded total = Some p
    /\ percentCompleted loaded' total = Some p'
    /\ p = nearest_percent loaded total
    /\ 0 <= p <= p'
    /\ p' <= 100
    /\ percentCompleted 0 total = Some 0
    /\ percentCompleted total total = Some 100
    /\ (p = 100 <-> 199 * total <= 200 * loaded).
Proof.
  intros Htotal Hloaded Hmax.
  exists (nearest_percent loaded total), (nearest_percent loaded' total).
  rewrite !percentCompleted_exact by lia. unfold nearest_percent.
  assert (0 < 2 * total) as Hpos by lia.
  split; [reflexivity |]. split; [reflexivity |]. split; [reflexivity |].
  split; [split; [apply Z.div_pos; lia | apply Z.div_le_mono; lia] |].
  split.
  { assert ((2 * (loaded' * 100) + total) / (2 * total) < 101); [| lia].
    apply Z.div_lt_upper_bound; lia. }
  split; [f_equal; apply Z.div_small; lia |].
  split; [f_equal; symmetry; apply Z.div_unique with (r := total); lia |].
  split.
  - intros H100.
    assert (100 * (2 * total) <= 2 * (loaded * 100) + total); [| lia].
    rewrite <- H100 at 1. rewrite Z.mul_comm. apply Z.mul_div_le. exact Hpos.
  - intros Hnear. symmetry.
    apply Z.div_unique with (r := 2 * (loaded * 100) + total - 100 * (2 * total)); lia.
Qed.

Lemma upload_percent_bounds_witness :
  0 < 3 < 2 ^ 46 /\ 0 <= 1 <= 2 /\ 2 <= 3
  /\ percentCompleted 1 3 = Some 33 /\ percentCompleted 2 3 = Some 67
  /\ exists p p', percentCompleted 1 3 = Some p /\ percentCompleted 2 3 = Some p'
                  /\ 0 <= p <= p' /\ p' <= 100.
Proof.
  assert (0 < 3 < 2 ^ 46) as H1 by (split; reflexivity).
  assert (0 <= 1 <= 2) as H2 by lia.
  assert (2 <= 3) as H3 by lia.
  split; [exact H1 |]. split; [exact H2 |]. split; [exact H3 |].
  split; [reflexivity |]. split; [reflexivity |].
  destruct (upload_percent_bounds 1 2 3 H1 H2 H3)
    as (p & p' & Hp & Hp' & _ & Hle & Hmax & _).
  exists p, p'. auto.
Defined.

(** ** The further properties at concrete inputs *)

Lemma handleAuthFailure_idempotent_frame_witness :
  handleAuthFailure (handleAuthFailure Scenario.renewable)
  = handleAuthFailure Scenario.renewable
  /\ getItem "theme" (handleAuthFailure (setItem "theme" "dark" Scenario.renewable))
     = Some "dark".
Proof.
  split.
  - apply (handleAuthFailure_idempotent_frame Scenario.renewable).
  - destruct (handleAuthFailure_idempotent_frame (setItem "theme" "dark" Scenario.renewable))
      as (_ & _ & _ & Hframe).
    rewrite (Hframe "theme"); [reflexivity | discriminate | discriminate | discriminate].
Defined.

Lemma cache_store_then_read_witness :
  let stored := advance 299999 (setCachedData "GET_/books_{}" Scenario.books Scenario.start) in
  299999 < CACHE_DURATION
  /\ getCachedData "GET_/books_{}" stored = (Scenario.books, stored).
Proof.
  intros stored.
  assert (299999 < CACHE_DURATION) as Hfresh by reflexivity.
  split; [exact Hfresh |].
  exact (proj1 (cache_store_then_read "GET_/books_{}" Scenario.books 299999 Scenario.start)
           Hfresh).
Defined.

Lemma cache_read_missing_key_witness :
  cache Scenario.start !! "GET_/books_{}" = None
  /\ getCachedData "GET_/books_{}" Scenario.start = (JNull, Scenario.start).
Proof.
  assert (cache Scenario.start !! "GET_/books_{}" = None) as Hnone by reflexivity.
  split; [exact Hnone |].
  exact (proj1 (cache_read_missing_key "GET_/books_{}" Scenario.start) Hnone).
Defined.

Lemma get_touches_only_its_key_witness :
  let server := Scenario.always 500 JNull in
  let cached := setCachedData "GET_/issues_{}" Scenario.books Scenario.start in
  "GET_/issues_{}" <> cacheKey "/books" empty_config
  /\ cache (snd (apiWrapper_get server "/books" empty_config cached)) !! "GET_/issues_{}"
     = Some {| data := Scenario.books; timestamp := 1000 |}.
Proof.
  intros server cached.
  assert ("GET_/issues_{}" <> cacheKey "/books" empty_config) as Hother by discriminate.
  split; [exact Hother |].
  rewrite (get_touches_only_its_key server "/books" empty_config cached
             "GET_/issues_{}" Hother).
  reflexivity.
Defined.

Lemma logout_removes_only_session_slots_witness :
  getItem "adminToken" Scenario.renewable = Some "t1"
  /\ getItem "refreshToken" (snd (logout Scenario.renewable)) = Some "r1"
  /\ getItem "adminToken" (snd (logout Scenario.renewable)) = None
  /\ getItem "adminUser" (snd (logout Scenario.renewable)) = None.
Proof.
  destruct (logout_removes_only_session_slots JNull JNull Scenario.renewable)
    as (Htoken & Huser & _ & _ & Hrefresh & _).
  split; [reflexivity |].
  split; [rewrite Hrefresh; reflexivity |].
  split; [exact Htoken | exact Huser].
Defined.

(** ** Save, reload, restore *)

Lemma dec_nonempty (z : Z) : dec z <> "".
Proof.
  unfold dec, NilZero.string_of_int.
  destruct (Z.to_int z) as [d | d]; [| discriminate].
  unfold NilZero.string_of_uint. destruct d; discriminate.
Qed.

Lemma stringify_nonempty (v : JsVal) : hole (stringify v) <> "".
Proof.
  destruct v as [| | b | n | s | items | props]; cbn [stringify hole];
    try discriminate.
  - destruct b; discriminate.
  - apply dec_nonempty.
Qed.

(** X23: a session saved by [login] survives a reload.  After
    [login(t, userData)] with a non-empty string token, [checkAuthStatus]
    (given a [JSON.parse] that reads back what [JSON.stringify] wrote, and a
    verification answered with a truthy [success]) restores exactly the state
    [login] had set, sends the saved token once and leaves storage as it
    is. *)
Theorem login_then_restore (parse : string -> option JsVal) (verify : string -> Fetched)
    (t : string) (userData body : JsVal) (status : Z) (p : Provider) (w : World) :
  t <> "" ->
  parse (hole (stringify userData)) = Some userData ->
  verify t = FetchedJson status body ->
  truthy (opt_prop body "success") = true ->
  let saved := login (JStr t) userData w in
  checkAuthStatus parse verify p (snd saved)
  = ({| auth := fst saved; isLoading := false;
        verifications := verifications p ++ [t] |},
     snd saved).
Proof.
  intros Hnt Hparse Hverify Hsuccess saved.
  assert (getItem "adminToken" (snd saved) = Some t) as Ht.
  { unfold saved, login, getItem, setItem. cbn [snd localStorage set_localStorage js_string].
    rewrite lookup_insert_ne by discriminate. apply lookup_insert_eq. }
  assert (getItem "adminUser" (snd saved) = Some (hole (stringify userData))) as Hu.
  { unfold saved, login, getItem, setItem. cbn [snd localStorage set_localStorage].
    apply lookup_insert_eq. }
  unfold checkAuthStatus. rewrite Ht, Hu. unfold present.
  apply String.eqb_neq in Hnt. rewrite Hnt.
  pose proof (stringify_nonempty userData) as Hnu. apply String.eqb_neq in Hnu.
  rewrite Hnu. cbn [negb andb]. rewrite Hverify, Hsuccess, Hparse.
  destruct body; try discriminate Hsuccess; reflexivity.
Qed.

Lemma login_then_restore_witness :
  let profile := JObj [("username", JStr "admin")] in
  let parse := fun s : string =>
    if String.eqb s (hole (stringify profile)) then Some profile else None in
  let verify := fun _ : string => FetchedJson 200 (JObj [("success", JBool true)]) in
  let saved := login (JStr "t1") profile Scenario.start in
  "t1" <> ""
  /\ parse (hole (stringify profile)) = Some profile
  /\ isAuthenticated (auth (fst (checkAuthStatus parse verify initial_provider (snd saved))))
     = true
  /\ user (auth (fst (checkAuthStatus parse verify initial_provider (snd saved))))
     = profile.
Proof.
  intros profile parse verify saved.
  assert ("t1" <> "") as Hnt by discriminate.
  assert (parse (hole (stringify profile)) = Some profile) as Hparse by reflexivity.
  split; [exact Hnt |]. split; [exact Hparse |].
  subst saved.
  rewrite (login_then_restore parse verify "t1" profile
             (JObj [("success", JBool true)]) 200 initial_provider Scenario.start
             Hnt Hparse eq_refl eq_refl).
  split; reflexivity.
Defined.
